(** * wifimon: a shallow embedding of [scripts/wifimon.py]

    The script polls the wireless interfaces through psutil and draws a
    dashboard with curses.  The embedding keeps the script's names.  Python
    integers are [Z], Python floats are IEEE 754 binary64 numbers,
    dictionaries that are only looked up are [gmap]s, the dictionary that is
    iterated is an association list, and the curses calls are recorded in an
    output log. *)

From Stdlib Require Import ZArith String Ascii List Lia Bool.
From Stdlib Require Import DecimalString DecimalZ DecimalN DecimalPos.
From Stdlib Require Import Floats.SpecFloat Floats.FloatOps.
From stdpp Require Import gmap strings.
Import ListNotations.

Local Open Scope Z_scope.

(** ** Python values and exceptions *)

Inductive exn :=
| CursesError                (* curses.error *)
| KeyError (key : string)
| OverflowError
| ValueError
| KeyboardInterrupt
| SystemExit (msg : string).

(** The result of running Python code on a finite supply of inputs: a value,
    a raised exception, or [Diverge] when the supply is used up while the code
    is still running. *)
Inductive result (A : Type) :=
| Ok (a : A)
| Raise (e : exn)
| Diverge.
Arguments Ok {A} a.
Arguments Raise {A} e.
Arguments Diverge {A}.

Module Py.

(** [ord(c)] *)
Definition ord (c : ascii) : Z := Z.of_N (N_of_ascii c).

(** [str(n)] for an [int]. *)
Definition str (n : Z) : string := NilZero.string_of_int (Z.to_int n).

(** [s * n] for a string: no character when [n <= 0].  The string is built
    whatever its length: the interpreter fails with [MemoryError] or
    [OverflowError] on a length it cannot allocate, so the properties of
    bars keep to percentages that give short strings. *)
Fixpoint replicate (n : nat) (s : string) : string :=
  match n with
  | O => EmptyString
  | S k => s +:+ replicate k s
  end.
Definition mul (s : string) (n : Z) : string := replicate (Z.to_nat n) s.

(** [len(s)] *)
Definition len (s : string) : Z := Z.of_nat (String.length s).

(** Floats are the binary64 numbers of IEEE 754, with the arithmetic of
    [SpecFloat].  [float(n)] for an [int] is the nearest float, ties to
    even; [OverflowError] when [n] is beyond the range of floats. *)
Definition float (n : Z) : result spec_float :=
  match binary_normalize prec emax n 0 false with
  | S754_infinity _ => Raise OverflowError
  | x => Ok x
  end.

(** [int(x)] for a [float]: truncation towards zero; [OverflowError] on an
    infinity and [ValueError] on a NaN. *)
Definition int (x : spec_float) : result Z :=
  match x with
  | S754_zero _ => Ok 0
  | S754_finite s m e =>
      let q := match e with
               | Zneg k => Z.shiftr (Zpos m) (Zpos k)
               | _ => Z.shiftl (Zpos m) e
               end in
      Ok (if s then - q else q)
  | S754_infinity _ => Raise OverflowError
  | S754_nan => Raise ValueError
  end.

(** [x / y] and [x * y] on floats, for a divisor that is not zero. *)
Definition truediv (x y : spec_float) : spec_float := SFdiv prec emax x y.
Definition fmul (x y : spec_float) : spec_float := SFmul prec emax x y.

(** The float an integer literal turns into next to a float operand. *)
Definition float_lit (n : Z) : spec_float :=
  binary_normalize prec emax n 0 false.

(** [s.rjust(w)], which is what the conversion [%ws] does. *)
Definition rjust (w : Z) (s : string) : string :=
  mul " " (w - len s) +:+ s.

(** ['{0:,}'.format(n)]: the decimal digits in groups of three, counted from
    the right and separated by commas, after the sign. *)
Fixpoint group3 (l : list ascii) : list ascii :=
  match l with
  | a :: b :: c :: rest =>
      match rest with
      | [] => l
      | _ :: _ => a :: b :: c :: ","%char :: group3 rest
      end
  | _ => l
  end.

Definition group_digits (s : string) : string :=
  string_of_list_ascii (rev (group3 (rev (list_ascii_of_string s)))).

Definition format_comma (n : Z) : string :=
  if n <? 0 then "-" +:+ group_digits (str (- n)) else group_digits (str n).

(** [s.replace(",", "")] *)
Fixpoint strip_commas (s : string) : string :=
  match s with
  | EmptyString => EmptyString
  | String c s' =>
      if Ascii.eqb c ","%char then strip_commas s'
      else String c (strip_commas s')
  end.

(** [int(s)] for a string of decimal digits with an optional minus sign;
    [ValueError] otherwise. *)
Definition digit (c : ascii) : option Z :=
  let d := ord c - 48 in
  if (0 <=? d) && (d <=? 9) then Some d else None.

Fixpoint parse_digits (s : string) (acc : Z) : result Z :=
  match s with
  | EmptyString => Ok acc
  | String c s' =>
      match digit c with
      | Some d => parse_digits s' (10 * acc + d)
      | None => Raise ValueError
      end
  end.

Definition parse_int (s : string) : result Z :=
  match s with
  | EmptyString => Raise ValueError
  | String "-"%char EmptyString => Raise ValueError
  | String "-"%char s' =>
      match parse_digits s' 0 with
      | Ok n => Ok (- n)
      | r => r
      end
  | _ => parse_digits s 0
  end.

End Py.

(** ** [get_dashes] *)

(** [int(float(perc) / 10 * 4)], the number of filled characters. *)
Definition dashes_count (perc : Z) : result Z :=
  match Py.float perc with
  | Ok x => Py.int (Py.fmul (Py.truediv x (Py.float_lit 10)) (Py.float_lit 4))
  | Raise e => Raise e
  | Diverge => Diverge
  end.

Definition get_dashes (perc : Z) : result (string * string) :=
  match dashes_count perc with
  | Ok n =>
      let dashes := Py.mul "=" n in
      let empty_dashes := Py.mul " " (40 - Py.len dashes) in
      Ok (dashes, empty_dashes)
  | Raise e => Raise e
  | Diverge => Diverge
  end.

(** The exact value [floor (perc / 10 * 4)], over the rationals. *)
Definition bar_fill (perc : Z) : Z := (perc * 4) / 10.

(** ** curses and the output log *)

Module Curses.

(** The attribute encoding of ncurses: the colour pair sits in bits 8 to 15,
    [A_UNDERLINE] is bit 17 and [A_BOLD] is bit 21. *)
Definition A_COLOR : Z := Z.shiftl 255 8.
Definition A_UNDERLINE : Z := Z.shiftl 1 17.
Definition A_BOLD : Z := Z.shiftl 1 21.
Definition color_pair (n : Z) : Z := Z.land (Z.shiftl n 8) A_COLOR.
Definition pair_number (attr : Z) : Z := Z.shiftr (Z.land attr A_COLOR) 8.

End Curses.

(** Every call that reaches the terminal (or the clock) is logged in the order
    in which it is made; [addstr] is logged with its outcome. *)
Inductive event :=
| Einitscr
| Estart_color
| Euse_default_colors
| Einit_pair (pair fg bg : Z)
| Eendwin
| Enodelay (flag : Z)
| Ekeypad (flag : Z)
| Enocbreak
| Eecho
| Eaddstr (y x : Z) (s : string) (attr : Z) (ok : bool)
| Erefresh
| Egetch (key : Z)
| Esleep (ms : Z).

(** ** The state of the script and its monad *)

(** [lineno] is the module's global line cursor.  [sigint] is the schedule of
    the interrupt signal: [Some k] when Ctrl-C arrives at the [k]-th next
    terminal or clock operation of the refresh loop, [None] when it never
    arrives. *)
Record state := State { lineno : Z; sigint : option nat }.

Definition M (A : Type) : Type := state -> result A * state * list event.

#[global] Instance M_ret : MRet M := fun A a st => (Ok a, st, []).

#[global] Instance M_bind : MBind M := fun A B f m st =>
  match m st with
  | (Ok a, st1, out1) =>
      let '(r, st2, out2) := f a st1 in (r, st2, out1 ++ out2)
  | (Raise e, st1, out1) => (Raise e, st1, out1)
  | (Diverge, st1, out1) => (Diverge, st1, out1)
  end.

Definition raise {A} (e : exn) : M A := fun st => (Raise e, st, []).
Definition diverge {A} : M A := fun st => (Diverge, st, []).
Definition lift {A} (r : result A) : M A := fun st => (r, st, []).
Definition emit (e : event) : M unit := fun st => (Ok tt, st, [e]).
Definition get_lineno : M Z := fun st => (Ok (lineno st), st, []).
Definition set_lineno (n : Z) : M unit :=
  fun st => (Ok tt, {| lineno := n; sigint := sigint st |}, []).

(** The interpreter looks for a pending signal at every operation of the loop
    and raises [KeyboardInterrupt] there: a signal is taken before the
    operation at which it is due.  One that arrives while a terminal call
    runs is raised when the call returns, which this does not render. *)
Definition check_signals : M unit := fun st =>
  match sigint st with
  | None => (Ok tt, st, [])
  | Some (S k) => (Ok tt, {| lineno := lineno st; sigint := Some k |}, [])
  | Some O =>
      (Raise KeyboardInterrupt, {| lineno := lineno st; sigint := None |}, [])
  end.

(** [try: body / except <catches> as e: handler e / else: orelse]. *)
Definition try_except_else {A B} (body : M A) (catches : exn -> bool)
    (handler : exn -> M B) (orelse : A -> M B) : M B := fun st =>
  match body st with
  | (Ok a, st1, out1) =>
      let '(r, st2, out2) := orelse a st1 in (r, st2, out1 ++ out2)
  | (Raise e, st1, out1) =>
      if catches e
      then let '(r, st2, out2) := handler e st1 in (r, st2, out1 ++ out2)
      else (Raise e, st1, out1)
  | (Diverge, st1, out1) => (Diverge, st1, out1)
  end.

Definition try_except {A} (body : M A) (catches : exn -> bool)
    (handler : exn -> M A) : M A :=
  try_except_else body catches handler mret.

(** [try: body / finally: final]: [final] runs whenever [body] is left, and an
    exception of [final] replaces the outcome of [body]. *)
Definition try_finally {A} (body : M A) (final : M unit) : M A := fun st =>
  match body st with
  | (Diverge, st1, out1) => (Diverge, st1, out1)
  | (r, st1, out1) =>
      match final st1 with
      | (Ok _, st2, out2) => (r, st2, out1 ++ out2)
      | (Raise e, st2, out2) => (Raise e, st2, out1 ++ out2)
      | (Diverge, st2, out2) => (Diverge, st2, out1 ++ out2)
      end
  end.

(** [for x in l: body x] *)
Fixpoint for_each {A} (l : list A) (body : A -> M unit) : M unit :=
  match l with
  | [] => mret tt
  | x :: l' => body x;; for_each l' body
  end.

(** [d[k]] on a dictionary: [KeyError] when the key is missing. *)
Definition getitem {V} (d : gmap string V) (k : string) : result V :=
  match d !! k with
  | Some v => Ok v
  | None => Raise (KeyError k)
  end.

(** [sys.exit(msg)] *)
Definition sys_exit {A} (msg : string) : M A := raise (SystemExit msg).

(** ** The data psutil returns *)

Record wifi_info := {
  proto : string;
  essid : string;
  quality_percent : Z;
  signal : Z;
  signal_percent : Z;
  bssid : string;
  mode : string;
  freq : Z;
  txpower : Z;
  power_save : bool;
  beacons : Z;
  discard_nwid : Z;
  discard_crypt : Z;
  discard_frag : Z;
  discard_retry : Z;
  discard_misc : Z
}.

Record snetio := { bytes_recv : Z; bytes_sent : Z }.

Record snicaddr := { family : Z; address : string }.

(** What the three psutil queries answer during one refresh cycle. *)
Record snapshot := {
  wifi_ifaces : list (string * wifi_info);
  net_io_counters : gmap string snetio;
  net_if_addrs : gmap string (list snicaddr)
}.

(** One turn of the loop: the key [win.getch()] returns ([-1] when no key is
    waiting) and the snapshot psutil returns. *)
Record cycle := { key : Z; snap : snapshot }.

(** The host at startup: whether curses can be imported, and what
    [psutil.wifi_ifaces()] answers when psutil has that function. *)
Record host := {
  has_curses : bool;
  startup_wifi_ifaces : option (list (string * wifi_info))
}.

(** A value that is a string or an integer, as [af_map.get] returns. *)
Inductive pyval :=
| PyStr (s : string)
| PyInt (n : Z).

(** The conversion [%s]. *)
Definition format_s (v : pyval) : string :=
  match v with
  | PyStr s => s
  | PyInt n => Py.str n
  end.

(** ** The script *)

(** [INTERVAL = 0.2] seconds, in milliseconds. *)
Definition INTERVAL_ms : Z := 200.

Definition colors_map : gmap string Z :=
  <["blue" := 5]> (<["red" := 10]> (<["green" := 35]> ∅)).

Definition title_attr : Z :=
  Z.lor (Z.lor (Z.lor 0 (Curses.color_pair 5)) Curses.A_BOLD)
    Curses.A_UNDERLINE.

Module Script.
Section Defs.

(** [psutil._common.bytes2human], which lives outside this script. *)
Variable bytes2human : Z -> string.
(** [curses.COLORS], known once the terminal is. *)
Variable COLORS : Z.
(** Whether the terminal accepts [win.addstr(y, x, s, attr)]; the lines are
    taken to hold no null character, which [addstr] refuses with
    [ValueError]. *)
Variable addstr_ok : Z -> Z -> string -> Z -> bool.
(** [socket.AF_INET], [socket.AF_INET6] and [psutil.AF_LINK]. *)
Variables AF_INET AF_INET6 AF_LINK : Z.

Definition af_map : gmap Z string :=
  <[AF_LINK := "MAC"]> (<[AF_INET6 := "IPv6"]> (<[AF_INET := "IPv4"]> ∅)).

Definition win_addstr (y x : Z) (s : string) (attr : Z) : M unit :=
  check_signals;;
  if addstr_ok y x s attr
  then emit (Eaddstr y x s attr true)
  else (emit (Eaddstr y x s attr false);; raise CursesError).

Definition win_refresh : M unit := check_signals;; emit Erefresh.

Definition win_getch (k : Z) : M Z := check_signals;; emit (Egetch k);; mret k.

Definition time_sleep (ms : Z) : M unit := check_signals;; emit (Esleep ms).

(** The terminal is taken to accept the calls of [setup]; one that has no
    colours refuses them with [curses.error], and [setup] then stops at the
    call refused. *)
Definition setup : M unit :=
  emit Estart_color;;
  emit Euse_default_colors;;
  for_each (seq 0 (Z.to_nat COLORS))
    (fun i => emit (Einit_pair (Z.of_nat i + 1) (Z.of_nat i) (-1)));;
  emit Eendwin;;
  emit (Enodelay 1).

Definition tear_down : M unit :=
  emit (Ekeypad 0);;
  emit Enocbreak;;
  emit Eecho;;
  emit Eendwin.

(** The flags [printl] builds before it calls [addstr]. *)
Definition printl_flags (color : option string) (bold underline : bool)
    : result Z :=
  let with_color :=
    match color with
    | None | Some EmptyString => Ok 0
    | Some c =>
        match getitem colors_map c with
        | Ok n => Ok (Z.lor 0 (Curses.color_pair n))
        | Raise e => Raise e
        | Diverge => Diverge
        end
    end in
  match with_color with
  | Ok flags =>
      let flags := if bold then Z.lor flags Curses.A_BOLD else flags in
      let flags :=
        if underline then Z.lor flags Curses.A_UNDERLINE else flags in
      Ok flags
  | r => r
  end.

Definition is_curses_error (e : exn) : bool :=
  match e with CursesError => true | _ => false end.

Definition printl (line : string) (color : option string)
    (bold underline : bool) : M unit :=
  try_except_else
    (flags ← lift (printl_flags color bold underline);
     y ← get_lineno;
     win_addstr y 0 line flags)
    is_curses_error
    (fun e => set_lineno 0;; win_refresh;; raise e)
    (fun _ => y ← get_lineno; set_lineno (y + 1)).

Definition print_title (line : string) : M unit :=
  printl line (Some "blue") true true.

(** The colour of a bar: ["green" if perc >= 50 else "red"]. *)
Definition bar_color (perc : Z) : string :=
  if perc >=? 50 then "green" else "red".

(** The body of the loop over the interfaces, one definition per block. *)
Definition iface_interface (ifname : string) (info : wifi_info) : M unit :=
  print_title "Interface";;
  printl ("    " +:+ ifname +:+ " (" +:+ proto info +:+ ")") None false false;;
  printl ("    SSID: " +:+ essid info) None false false.

Definition iface_levels (info : wifi_info) : M unit :=
  print_title "Levels";;
  printl ("    Link quality: " +:+ Py.str (quality_percent info) +:+ "%")
    None false false;;
  '(dashes, empty_dashes) ← lift (get_dashes (quality_percent info));
  printl ("    [" +:+ dashes +:+ empty_dashes +:+ "]")
    (Some (bar_color (quality_percent info))) true false;;
  printl ("    Signal level: " +:+ Py.str (signal info) +:+ " dBm ("
          +:+ Py.str (signal_percent info) +:+ "%)") None false false;;
  '(dashes, empty_dashes) ← lift (get_dashes (signal_percent info));
  printl ("    [" +:+ dashes +:+ empty_dashes +:+ "]")
    (Some (bar_color (signal_percent info))) true false.

Definition iface_statistics (s : snapshot) (ifname : string) : M unit :=
  print_title "Statistics";;
  ioc ← lift (getitem (net_io_counters s) ifname);
  printl ("    RX (recv): " +:+ Py.rjust 6 (bytes2human (bytes_recv ioc))
          +:+ " (" +:+ Py.rjust 6 (Py.format_comma (bytes_recv ioc)) +:+ ")")
    None false false;;
  printl ("    TX (sent): " +:+ Py.rjust 6 (bytes2human (bytes_sent ioc))
          +:+ " (" +:+ Py.rjust 6 (Py.format_comma (bytes_sent ioc)) +:+ ")")
    None false false.

Definition iface_info (info : wifi_info) : M unit :=
  print_title "Info";;
  printl ("    Connected to: " +:+ bssid info) None false false;;
  printl ("    Mode: " +:+ mode info) None false false;;
  printl ("    Freq: " +:+ Py.str (freq info) +:+ " MHz") None false false;;
  printl ("    TX-Power: " +:+ Py.str (txpower info) +:+ " dBm")
    None false false;;
  printl ("    Power save: " +:+ (if power_save info then "on" else "off"))
    None false false;;
  printl ("    Beacons: " +:+ Py.str (beacons info) +:+ ", Nwid: "
          +:+ Py.str (discard_nwid info) +:+ ", Crypt: "
          +:+ Py.str (discard_crypt info)) None false false;;
  printl ("    Frag: " +:+ Py.str (discard_frag info) +:+ ", Retry: "
          +:+ Py.str (discard_retry info) +:+ ", Misc: "
          +:+ Py.str (discard_misc info)) None false false.

(** [af_map.get(family, family)] *)
Definition family_label (fam : Z) : pyval :=
  match af_map !! fam with
  | Some label => PyStr label
  | None => PyInt fam
  end.

Definition print_addr (addr : snicaddr) : M unit :=
  let proto := family_label (family addr) in
  printl ("    " +:+ format_s proto +:+ ": " +:+ address addr) None false false.

Definition iface_addresses (s : snapshot) (ifname : string) : M unit :=
  print_title ("Addresses (" +:+ ifname +:+ ")");;
  addrs ← lift (getitem (net_if_addrs s) ifname);
  for_each addrs print_addr.

Definition refresh_iface (s : snapshot) (entry : string * wifi_info) : M unit :=
  let '(ifname, info) := entry in
  iface_interface ifname info;;
  iface_levels info;;
  iface_statistics s ifname;;
  iface_info info;;
  iface_addresses s ifname.

Definition refresh_window (s : snapshot) : M unit :=
  for_each (wifi_ifaces s) (refresh_iface s);;
  printl "" None false false;;
  win_refresh.

(** One turn of [while True]: [true] when the turn ends in [break]. *)
Definition loop_body (c : cycle) : M bool :=
  k ← win_getch (key c);
  if k =? Py.ord "q" then mret true
  else
    refresh_window (snap c);;
    set_lineno 0;;
    time_sleep INTERVAL_ms;;
    mret false.

(** [while True] over the turns the environment supplies; the loop is still
    running when they are used up. *)
Fixpoint while_true (cycles : list cycle) : M unit :=
  match cycles with
  | [] => diverge
  | c :: rest =>
      stop ← loop_body c;
      if stop : bool then mret tt else while_true rest
  end.

Definition is_interrupt_or_exit (e : exn) : bool :=
  match e with
  | KeyboardInterrupt | SystemExit _ => true
  | _ => false
  end.

(** The [try] statement of [main]. *)
Definition guarded_loop (cycles : list cycle) : M unit :=
  try_finally
    (try_except (while_true cycles) is_interrupt_or_exit (fun _ => mret tt))
    tear_down.

Definition main (h : host) (cycles : list cycle) : M unit :=
  match startup_wifi_ifaces h with
  | None => sys_exit "platform not supported"
  | Some [] => sys_exit "no Wi-Fi interfaces installed"
  | Some (_ :: _) => setup;; guarded_loop cycles
  end.

(** The module, top to bottom: the import of curses, [win = curses.initscr()],
    [lineno = 0], then [main()]. *)
Definition script (h : host) (cycles : list cycle) : M unit :=
  (if has_curses h then mret tt else sys_exit "platform not supported");;
  emit Einitscr;;
  set_lineno 0;;
  main h cycles.

End Defs.
End Script.
Import Script.

(** How the process ends: its exit status and the exception reported on the
    error stream, if any.  [sys.exit] with a message prints it and exits with
    status 1, and so does an exception nobody caught (130 for an interrupt);
    a normal return exits with status 0. *)
Inductive outcome :=
| Exited (status : Z) (reported : option exn)
| Running.

Definition outcome_of (r : result unit) : outcome :=
  match r with
  | Ok _ => Exited 0 None
  | Raise KeyboardInterrupt => Exited 130 (Some KeyboardInterrupt)
  | Raise e => Exited 1 (Some e)
  | Diverge => Running
  end.

(** A run of the process on a host, with an interrupt schedule and the turns
    of the loop: the outcome, the final state and the log. *)
Definition run bytes2human COLORS addstr_ok AF_INET AF_INET6 AF_LINK
    (h : host) (interrupt : option nat) (cycles : list cycle)
    : outcome * state * list event :=
  let '(r, st, out) :=
    Script.script bytes2human COLORS addstr_ok AF_INET AF_INET6 AF_LINK h cycles
      {| lineno := 0; sigint := interrupt |} in
  (outcome_of r, st, out).

(** ** Sample data, from the script's docstring *)

Definition sample_info : wifi_info := {|
  proto := "IEEE 802.11"; essid := "ALHN-68DF";
  quality_percent := 64; signal := -65; signal_percent := 45;
  bssid := "68:D4:82:7D:1A:95"; mode := "managed"; freq := 2412; txpower := 22;
  power_save := true; beacons := 0; discard_nwid := 0; discard_crypt := 0;
  discard_frag := 0; discard_retry := 135; discard_misc := 4086 |}.

Definition sample_snapshot : snapshot := {|
  wifi_ifaces := [("wlp3s0", sample_info)];
  net_io_counters :=
    {[ "wlp3s0" := {| bytes_recv := 8406668388; bytes_sent := 1031322354 |} ]};
  net_if_addrs :=
    {[ "wlp3s0" :=
         [ {| family := 2; address := "192.168.1.6" |};
           {| family := 10; address := "fe80::32b6:9d61:74f9:bebb%wlp3s0" |};
           {| family := 17; address := "48:45:20:59:a4:0c" |};
           {| family := 1; address := "?" |} ] ]} |}.

Definition sample_bytes2human (n : Z) : string :=
  if n =? 8406668388 then "7.8G"
  else if n =? 1031322354 then "983.5M"
  else "0.0B".

(** A terminal of [rows] lines and [cols] columns: a line is accepted when it
    starts inside the window and ends before the lower right corner. *)
Definition term_addstr_ok (rows cols : Z) (y x : Z) (s : string) (attr : Z)
    : bool :=
  (0 <=? y) && (y <? rows) && (0 <=? x)
  && (y * cols + x + Py.len s <? rows * cols).

Definition sample_host : host :=
  {| has_curses := true;
     startup_wifi_ifaces := Some (wifi_ifaces sample_snapshot) |}.

Definition no_wifi_host : host :=
  {| has_curses := true; startup_wifi_ifaces := Some [] |}.

Definition sample_cycle (k : Z) : cycle :=
  {| key := k; snap := sample_snapshot |}.

(** The script on a terminal of [rows] lines and 80 columns with 8 colours,
    with the Linux values of the three address families. *)
Definition sample_printl rows := printl (term_addstr_ok rows 80).
Definition sample_print_addr rows :=
  print_addr (term_addstr_ok rows 80) 2 10 17.
Definition sample_iface_levels rows := iface_levels (term_addstr_ok rows 80).
Definition sample_refresh_window rows :=
  refresh_window sample_bytes2human (term_addstr_ok rows 80) 2 10 17.
Definition sample_loop_body rows :=
  loop_body sample_bytes2human (term_addstr_ok rows 80) 2 10 17.
Definition sample_while_true rows :=
  while_true sample_bytes2human (term_addstr_ok rows 80) 2 10 17.
Definition sample_run rows :=
  run sample_bytes2human 8 (term_addstr_ok rows 80) 2 10 17.

Definition start : state := {| lineno := 0; sigint := None |}.

(** The sample without I/O counters for its interface, and a snapshot taken
    after the interface has gone. *)
Definition orphan_snapshot : snapshot := {|
  wifi_ifaces := wifi_ifaces sample_snapshot;
  net_io_counters := ∅;
  net_if_addrs := net_if_addrs sample_snapshot |}.

Definition empty_snapshot : snapshot :=
  {| wifi_ifaces := []; net_io_counters := ∅; net_if_addrs := ∅ |}.

Definition no_curses_host : host :=
  {| has_curses := false; startup_wifi_ifaces := None |}.

Definition no_wifi_api_host : host :=
  {| has_curses := true; startup_wifi_ifaces := None |}.

(** ** Notions used in the proofs *)

(** The last step of [binary_round_aux], on a mantissa of 53 digits or on
    [2 ^ 53]. *)
Definition round_finish (m e : Z) : spec_float :=
  let '(mrs, e') := shr_fexp prec emax m e loc_Exact in
  match shr_m mrs with
  | Z0 => S754_zero false
  | Zpos m' =>
      if e' <=? emax - prec then S754_finite false m' e'
      else S754_infinity false
  | Zneg _ => S754_nan
  end.

(** The value of a decimal numeral read from the left, starting from [acc]. *)
Fixpoint uint_value (d : Decimal.uint) (acc : Z) : Z :=
  match d with
  | Decimal.Nil => acc
  | Decimal.D0 d' => uint_value d' (10 * acc)
  | Decimal.D1 d' => uint_value d' (10 * acc + 1)
  | Decimal.D2 d' => uint_value d' (10 * acc + 2)
  | Decimal.D3 d' => uint_value d' (10 * acc + 3)
  | Decimal.D4 d' => uint_value d' (10 * acc + 4)
  | Decimal.D5 d' => uint_value d' (10 * acc + 5)
  | Decimal.D6 d' => uint_value d' (10 * acc + 6)
  | Decimal.D7 d' => uint_value d' (10 * acc + 7)
  | Decimal.D8 d' => uint_value d' (10 * acc + 8)
  | Decimal.D9 d' => uint_value d' (10 * acc + 9)
  end.

Definition not_comma (c : ascii) : bool := negb (Ascii.eqb c ","%char).

(** What [tear_down] and [setup] write to the log. *)
Definition tear_down_log : list event := [Ekeypad 0; Enocbreak; Eecho; Eendwin].

Definition setup_log (COLORS : Z) : list event :=
  [Estart_color; Euse_default_colors]
  ++ map (fun i => Einit_pair (Z.of_nat i + 1) (Z.of_nat i) (-1))
       (seq 0 (Z.to_nat COLORS))
  ++ [Eendwin; Enodelay 1].

(** The calls only [tear_down] makes. *)
Definition teardown_event (e : event) : bool :=
  match e with
  | Ekeypad _ | Enocbreak | Eecho => true
  | _ => false
  end.

(** The calls the refresh loop makes. *)
Definition loop_event (e : event) : bool :=
  match e with
  | Eaddstr _ _ _ _ _ | Erefresh | Egetch _ | Esleep _ => true
  | _ => false
  end.

(** An [addstr] the terminal refused. *)
Definition failed_addstr (e : event) : bool :=
  match e with
  | Eaddstr _ _ _ _ false => true
  | _ => false
  end.

(** The exceptions of the pure helpers: a missing key, a float out of range. *)
Definition plain_error (e : exn) : bool :=
  match e with
  | KeyError _ | OverflowError | ValueError => true
  | _ => false
  end.

(** [quiet m]: [m] only makes calls of the refresh loop. *)
Definition quiet {A} (m : M A) : Prop :=
  forall st r st' out,
    m st = (r, st', out) -> Forall (fun e => loop_event e = true) out.

(** [steady m]: when no interrupt is pending, [m] either writes every line it
    is given, or stops at the first line the terminal refuses, with the cursor
    back at 0, a refresh as its last call and [curses.error] raised. *)
Definition steady {A} (m : M A) : Prop :=
  forall st r st' out,
    sigint st = None -> m st = (r, st', out) ->
    sigint st' = None
    /\ match r with
       | Ok _ => Forall (fun e => failed_addstr e = false) out
       | Raise CursesError =>
           lineno st' = 0
           /\ exists pre y x s a,
                out = pre ++ [Eaddstr y x s a false; Erefresh]
                /\ Forall (fun e => failed_addstr e = false) pre
       | Raise e =>
           plain_error e = true
           /\ Forall (fun e => failed_addstr e = false) out
       | Diverge => Forall (fun e => failed_addstr e = false) out
       end.

(** [interruptible m]: once the pending interrupt is delivered, [m] ends with
    [KeyboardInterrupt]. *)
Definition interruptible {A} (m : M A) : Prop :=
  forall st r st' out,
    m st = (r, st', out) -> sigint st <> None -> sigint st' = None ->
    r = Raise KeyboardInterrupt.

(** A line handed to [addstr] (written or refused), a key poll, a sleep, and
    a call that draws. *)
Definition is_addstr (e : event) : bool :=
  match e with
  | Eaddstr _ _ _ _ _ => true
  | _ => false
  end.

Definition is_getch (e : event) : bool :=
  match e with
  | Egetch _ => true
  | _ => false
  end.

Definition is_sleep (e : event) : bool :=
  match e with
  | Esleep _ => true
  | _ => false
  end.

Definition is_draw (e : event) : bool :=
  match e with
  | Eaddstr _ _ _ _ _ | Erefresh => true
  | _ => false
  end.

(** How many calls of a kind a log holds. *)
Definition count_if (f : event -> bool) (out : list event) : nat :=
  length (List.filter f out).

(** [rows_from ln out]: the lines of [out] go to column 0 of the rows [ln],
    [ln + 1], ... in this order. *)
Fixpoint rows_from (ln : Z) (out : list event) : Prop :=
  match out with
  | [] => True
  | Eaddstr y x _ _ _ :: rest => y = ln /\ x = 0 /\ rows_from (ln + 1) rest
  | _ :: rest => rows_from ln rest
  end.

(** [rows_from_top ln out]: as [rows_from], but the rows start again at 0
    after every key poll. *)
Fixpoint rows_from_top (ln : Z) (out : list event) : Prop :=
  match out with
  | [] => True
  | Eaddstr y x _ _ _ :: rest => y = ln /\ x = 0 /\ rows_from_top (ln + 1) rest
  | Egetch _ :: rest => rows_from_top 0 rest
  | _ :: rest => rows_from_top ln rest
  end.

(** [tracking m]: [m] hands its lines to the terminal at the cursor, one row
    after the other, and when it returns the cursor is below the last one. *)
Definition tracking {A} (m : M A) : Prop :=
  forall st r st' out,
    m st = (r, st', out) ->
    rows_from (lineno st) out
    /\ (forall a, r = Ok a ->
          lineno st' = lineno st + Z.of_nat (count_if is_addstr out)).

(** [writes n m]: when [m] returns, it has written [n] lines and made no
    other call. *)
Definition writes {A} (n : nat) (m : M A) : Prop :=
  forall st a st' out,
    m st = (Ok a, st', out) ->
    length out = n
    /\ Forall (fun e => is_addstr e = true /\ failed_addstr e = false) out.

(** [raises_only P m]: [m] comes to an end, and every exception it raises
    satisfies [P]. *)
Definition raises_only {A} (P : exn -> Prop) (m : M A) : Prop :=
  forall st r st' out,
    m st = (r, st', out) ->
    match r with
    | Ok _ => True
    | Raise e => P e
    | Diverge => False
    end.

(** [unflushed m]: [m] does not refresh the window, unless it ends with
    [curses.error]; then the refresh is its last call, and the only one. *)
Definition unflushed {A} (m : M A) : Prop :=
  forall st r st' out,
    m st = (r, st', out) ->
    Forall (fun e => e <> Erefresh) out
    \/ (r = Raise CursesError
        /\ exists pre,
             out = pre ++ [Erefresh] /\ Forall (fun e => e <> Erefresh) pre).

(** [logs P m]: every call in the log of [m] satisfies [P]. *)
Definition logs {A} (P : event -> Prop) (m : M A) : Prop :=
  forall st r st' out, m st = (r, st', out) -> Forall P out.

(** The log has the verdict of the terminal on a line. *)
Definition logged_verdict (addstr_ok : Z -> Z -> string -> Z -> bool)
    (e : event) : Prop :=
  match e with
  | Eaddstr y x s a ok => addstr_ok y x s a = ok
  | _ => True
  end.

(** The number of lines of the block of an interface (20 and one for each
    of its addresses) and of the window (the blocks and the empty line). *)
Definition iface_height (s : snapshot) (ifname : string) : nat :=
  20 + length (match net_if_addrs s !! ifname with
               | Some addrs => addrs
               | None => []
               end).

Definition window_height (s : snapshot) : nat :=
  list_sum (map (fun entry => iface_height s (fst entry)) (wifi_ifaces s)) + 1.

(** What may go wrong while the block of the interface [ifname] is drawn,
    and during a refresh of the snapshot [s]. *)
Definition iface_error (s : snapshot) (ifname : string) (e : exn) : Prop :=
  e = CursesError \/ e = KeyboardInterrupt \/ e = OverflowError
  \/ (e = KeyError ifname
      /\ (net_io_counters s !! ifname = None \/ net_if_addrs s !! ifname = None)).

Definition refresh_error (s : snapshot) (e : exn) : Prop :=
  e = CursesError \/ e = KeyboardInterrupt \/ e = OverflowError
  \/ exists ifname info,
       In (ifname, info) (wifi_ifaces s) /\ e = KeyError ifname
       /\ (net_io_counters s !! ifname = None \/ net_if_addrs s !! ifname = None).

Create HintDb quiet.
Create HintDb steady.
Create HintDb interruptible.
Create HintDb tracking.

(** * Properties *)

(** ** The bar of [get_dashes] *)

Lemma replicate_char_length n c :
  String.length (Py.replicate n (String c EmptyString)) = n.
Proof. induction n as [|n IH]; simpl; [reflexivity | f_equal; exact IH]. Qed.

Lemma mul_char_len c n : Py.len (Py.mul (String c EmptyString) n) = Z.max 0 n.
Proof. unfold Py.len, Py.mul. rewrite replicate_char_length. lia. Qed.

Lemma mul_nonpos s n : n <= 0 -> Py.mul s n = EmptyString.
Proof.
  intros H. unfold Py.mul. replace (Z.to_nat n) with O by lia. reflexivity.
Qed.

Lemma get_dashes_of_count p n :
  dashes_count p = Ok n ->
  get_dashes p = Ok (Py.mul "=" n, Py.mul " " (40 - Z.max 0 n)).
Proof.
  intros H. unfold get_dashes. rewrite H.
  change "="%string with (String "="%char EmptyString) at 2.
  now rewrite mul_char_len.
Qed.

(** *** The number of binary digits *)

Lemma digits2_size p : digits2_pos p = Pos.size p.
Proof. induction p; simpl; congruence. Qed.

Lemma digits2_bounds p :
  2 ^ (Zpos (digits2_pos p) - 1) <= Zpos p < 2 ^ Zpos (digits2_pos p).
Proof.
  rewrite digits2_size.
  assert (H : Zpos (Pos.size p) = Z.log2 (Zpos p) + 1).
  { destruct p; simpl; lia. }
  rewrite H. replace (Z.log2 (Z.pos p) + 1 - 1) with (Z.log2 (Zpos p)) by lia.
  replace (Z.log2 (Z.pos p) + 1) with (Z.succ (Z.log2 (Zpos p))) by lia.
  apply Z.log2_spec. lia.
Qed.

Lemma digits2_unique p d :
  2 ^ (d - 1) <= Zpos p < 2 ^ d -> Zpos (digits2_pos p) = d.
Proof.
  intros [Hlo Hhi]. pose proof (digits2_bounds p) as [Blo Bhi].
  assert (0 < d).
  { destruct (Z_lt_le_dec 0 d); [assumption|].
    assert (2 ^ d <= 2 ^ 0) by (apply Z.pow_le_mono_r; lia). simpl in *. lia. }
  destruct (Z_lt_le_dec (Zpos (digits2_pos p)) d) as [Hlt|Hge].
  - assert (2 ^ Zpos (digits2_pos p) <= 2 ^ (d - 1))
      by (apply Z.pow_le_mono_r; lia).
    lia.
  - destruct (Z_lt_le_dec d (Zpos (digits2_pos p))) as [Hlt|Hge'].
    + assert (2 ^ d <= 2 ^ (Zpos (digits2_pos p) - 1))
        by (apply Z.pow_le_mono_r; lia).
      lia.
    + lia.
Qed.

(** *** Rounding to 53 digits *)

Lemma shr_fexp_unfold m e l :
  shr_fexp prec emax (Zpos m) e l =
  shr (shr_record_of_loc (Zpos m) l) e
    (Z.max (Zpos (digits2_pos m) + e - 53) (-1074) - e).
Proof. reflexivity. Qed.

Lemma shr_fexp_fit m e l :
  Zpos (digits2_pos m) = 53 -> -1074 <= e ->
  shr_fexp prec emax (Zpos m) e l = (shr_record_of_loc (Zpos m) l, e).
Proof.
  intros Hd He. rewrite shr_fexp_unfold, Hd.
  replace (Z.max (53 + e - 53) (-1074) - e) with 0 by lia. reflexivity.
Qed.

Lemma shr_fexp_one m e l :
  Zpos (digits2_pos m) = 54 -> -1074 <= e ->
  shr_fexp prec emax (Zpos m) e l = (shr_1 (shr_record_of_loc (Zpos m) l), e + 1).
Proof.
  intros Hd He. rewrite shr_fexp_unfold, Hd.
  replace (Z.max (54 + e - 53) (-1074) - e) with 1 by lia. reflexivity.
Qed.

Lemma loc_of_record m l : loc_of_shr_record (shr_record_of_loc m l) = l.
Proof. destruct l as [|[]]; reflexivity. Qed.

Lemma shr_m_record m l : shr_m (shr_record_of_loc m l) = m.
Proof. destruct l as [|[]]; reflexivity. Qed.

(** An exact mantissa of 53 digits is left as it is. *)
Lemma round_aux_exact s m e :
  Zpos (digits2_pos m) = 53 -> -1074 <= e <= 971 ->
  binary_round_aux prec emax s (Zpos m) e loc_Exact = S754_finite s m e.
Proof.
  intros Hd He. unfold binary_round_aux.
  rewrite (shr_fexp_fit _ _ _ Hd) by lia.
  cbn [shr_record_of_loc shr_m loc_of_shr_record round_nearest_even].
  rewrite (shr_fexp_fit _ _ _ Hd) by lia. cbn [shr_record_of_loc shr_m].
  replace (e <=? emax - prec) with true; [reflexivity|].
  symmetry. apply Z.leb_le. change (emax - prec) with 971. lia.
Qed.

Lemma round_aux_finish m e l :
  binary_round_aux prec emax false m e l =
  let '(mrs, e') := shr_fexp prec emax m e l in
  round_finish (round_nearest_even (shr_m mrs) (loc_of_shr_record mrs)) e'.
Proof.
  unfold binary_round_aux, round_finish.
  destruct (shr_fexp prec emax m e l) as [mrs e']. reflexivity.
Qed.

Lemma round_finish_spec m e :
  2 ^ 52 <= m <= 2 ^ 53 -> -1074 <= e <= 960 ->
  exists mr er,
    round_finish m e = S754_finite false mr er
    /\ Zpos (digits2_pos mr) = 53
    /\ e <= er <= e + 1
    /\ Zpos mr * 2 ^ (er - e) = m.
Proof.
  intros Hm He. destruct m as [|m|m]; try lia.
  destruct (Z_lt_le_dec (Zpos m) (2 ^ 53)) as [Hlt|Hge].
  - assert (Hd : Zpos (digits2_pos m) = 53) by (apply digits2_unique; lia).
    exists m, e. unfold round_finish. rewrite (shr_fexp_fit _ _ _ Hd) by lia.
    cbn [shr_record_of_loc shr_m].
    replace (e <=? emax - prec) with true
      by (symmetry; apply Z.leb_le; change (emax - prec) with 971; lia).
    repeat split; try lia. rewrite Z.sub_diag. lia.
  - assert (Hm' : Zpos m = 2 ^ 53) by lia.
    assert (Hd : Zpos (digits2_pos m) = 54) by (apply digits2_unique; lia).
    exists (2 ^ 52)%positive, (e + 1). unfold round_finish.
    rewrite (shr_fexp_one _ _ _ Hd) by lia.
    replace m with (2 ^ 53)%positive by lia.
    cbn [shr_record_of_loc shr_1 shr_m].
    replace (e + 1 <=? emax - prec) with true
      by (symmetry; apply Z.leb_le; change (emax - prec) with 971; lia).
    split; [reflexivity|]. split; [reflexivity|]. split; [lia|].
    replace (e + 1 - e) with 1 by lia. reflexivity.
Qed.

Lemma round_record_half q l :
  2 <= Zpos q ->
  let r := shr_1 (shr_record_of_loc (Zpos q) l) in
  let m2 := round_nearest_even (shr_m r) (loc_of_shr_record r) in
  Zpos q - 1 <= 2 * m2 <= Zpos q + 1
  /\ (2 * m2 = Zpos q - 1 -> Z.odd (Zpos q) = true).
Proof.
  intros Hq. destruct q as [q'|q'|]; [| |lia].
  - destruct l as [|[]];
      cbn [shr_record_of_loc shr_1 shr_m loc_of_shr_record round_nearest_even orb];
      try destruct (Z.even (Zpos q')); (split; [lia | intros _; reflexivity]).
  - destruct l as [|[]];
      cbn [shr_record_of_loc shr_1 shr_m loc_of_shr_record round_nearest_even orb];
      (split; lia).
Qed.

Lemma round_record_whole q l :
  let r := shr_record_of_loc (Zpos q) l in
  Zpos q <= round_nearest_even (shr_m r) (loc_of_shr_record r) <= Zpos q + 1.
Proof.
  cbv zeta. rewrite shr_m_record, loc_of_record.
  destruct l as [|[]]; cbn [round_nearest_even]; try destruct (Z.even (Zpos q)); lia.
Qed.

(** The rounding of a mantissa [q] of 53 or 54 digits stays within one unit of
    [q], and goes below [q] only when [q] is odd. *)
Lemma round_aux_sandwich q e l :
  2 ^ 52 <= Zpos q < 2 ^ 54 -> -1074 <= e <= 950 ->
  exists mr er,
    binary_round_aux prec emax false (Zpos q) e l = S754_finite false mr er
    /\ Zpos (digits2_pos mr) = 53
    /\ e <= er <= e + 2
    /\ Zpos q - 1 <= Zpos mr * 2 ^ (er - e) <= Zpos q + 1
    /\ (Zpos mr * 2 ^ (er - e) = Zpos q - 1 -> Z.odd (Zpos q) = true).
Proof.
  intros Hq He. rewrite round_aux_finish.
  destruct (Z_lt_le_dec (Zpos q) (2 ^ 53)) as [Hlt|Hge].
  - assert (Hd : Zpos (digits2_pos q) = 53) by (apply digits2_unique; lia).
    rewrite (shr_fexp_fit _ _ _ Hd) by lia. cbv iota beta.
    pose proof (round_record_whole q l) as Hm. cbv zeta in Hm.
    set (m2 := round_nearest_even _ _) in *.
    destruct (round_finish_spec m2 e) as (mr & er & -> & Hd' & He' & HV); [lia|lia|].
    exists mr, er. rewrite HV. repeat split; try assumption; try lia.
  - assert (Hd : Zpos (digits2_pos q) = 54) by (apply digits2_unique; lia).
    rewrite (shr_fexp_one _ _ _ Hd) by lia. cbv iota beta.
    pose proof (round_record_half q l ltac:(lia)) as [Hm Hodd]. cbv zeta in Hm, Hodd.
    set (m2 := round_nearest_even _ _) in *.
    destruct (round_finish_spec m2 (e + 1)) as (mr & er & -> & Hd' & He' & HV);
      [lia|lia|].
    exists mr, er.
    assert (HV2 : Zpos mr * 2 ^ (er - e) = 2 * m2).
    { rewrite <- HV. replace (er - e) with (Z.succ (er - (e + 1))) by lia.
      rewrite Z.pow_succ_r by lia. lia. }
    rewrite HV2. repeat split; try assumption; try lia.
Qed.

(** *** The float of an integer below [2 ^ 53] *)

Lemma iter_xO_value p n : Zpos (Pos.iter xO p n) = Zpos p * 2 ^ Zpos n.
Proof.
  induction n as [|n IH] using Pos.peano_ind.
  - cbn [Pos.iter]. lia.
  - rewrite Pos.iter_succ, Pos2Z.inj_xO, IH, Pos2Z.inj_succ, Z.pow_succ_r by lia. lia.
Qed.

Lemma shifted_digits p k :
  0 <= k -> Zpos (digits2_pos p) = 53 - k ->
  2 ^ 52 <= Zpos p * 2 ^ k < 2 ^ 53.
Proof.
  intros Hk Hd. pose proof (digits2_bounds p) as [Hlo Hhi]. rewrite Hd in Hlo, Hhi.
  replace (2 ^ 52) with (2 ^ (53 - k - 1) * 2 ^ k)
    by (rewrite <- Z.pow_add_r by lia; f_equal; lia).
  replace (2 ^ 53) with (2 ^ (53 - k) * 2 ^ k)
    by (rewrite <- Z.pow_add_r by lia; f_equal; lia).
  assert (0 < 2 ^ k) by (apply Z.pow_pos_nonneg; lia). nia.
Qed.

Lemma fexp_eq e : fexp prec emax e = Z.max (e - 53) (-1074).
Proof. reflexivity. Qed.

Lemma float_of_pos p k :
  0 <= k -> Zpos (digits2_pos p) = 53 - k ->
  exists mx,
    binary_normalize prec emax (Zpos p) 0 false = S754_finite false mx (- k)
    /\ Zpos mx = Zpos p * 2 ^ k
    /\ Zpos (digits2_pos mx) = 53.
Proof.
  intros Hk Hd. pose proof (shifted_digits p k Hk Hd) as Hb.
  pose proof (Pos2Z.is_pos (digits2_pos p)) as Hpos.
  unfold binary_normalize, binary_round, shl_align. rewrite fexp_eq, Hd.
  replace (Z.max (53 - k + 0 - 53) (-1074)) with (- k) by lia.
  rewrite Z.sub_0_r.
  destruct k as [|kk|kk]; [| |lia];
    [change (- 0) with 0 | change (- Z.pos kk) with (Z.neg kk)]; cbv iota beta.
  - exists p. rewrite Z.mul_1_r in Hb.
    assert (Hd' : Zpos (digits2_pos p) = 53) by lia.
    rewrite (round_aux_exact _ _ _ Hd') by lia. split; [reflexivity|]. split; lia.
  - pose proof (iter_xO_value p kk) as Hv.
    assert (Hd' : Zpos (digits2_pos (Pos.iter xO p kk)) = 53)
      by (apply digits2_unique; lia).
    exists (Pos.iter xO p kk).
    rewrite (round_aux_exact _ _ _ Hd') by lia. split; [reflexivity|]. split; assumption.
Qed.

(** *** Division by 10.0 *)

Lemma div_eucl_pair a b : Z.div_eucl a b = (a / b, a mod b).
Proof. unfold Z.div, Z.modulo. now destruct (Z.div_eucl a b). Qed.

Lemma div_by_ten mx ex :
  Zpos (digits2_pos mx) = 53 -> -1000 <= ex ->
  exists q l,
    Py.truediv (S754_finite false mx ex) (Py.float_lit 10)
    = binary_round_aux prec emax false q (ex - 4) l
    /\ q = (8 * Zpos mx) / 5.
Proof.
  intros Hd He.
  change (Py.float_lit 10) with (S754_finite false 5629499534213120 (-49)).
  unfold Py.truediv, SFdiv, SFdiv_core_binary. cbn [xorb Zdigits2].
  rewrite Hd. change (Zpos (digits2_pos 5629499534213120)) with 53.
  rewrite fexp_eq.
  replace (Z.min (Z.max (53 + ex - (53 + -49) - 53) (-1074)) (ex - -49))
    with (ex - 4) by lia.
  replace (ex - -49 - (ex - 4)) with 53 by lia. cbv iota beta zeta.
  rewrite div_eucl_pair. do 2 eexists. split; [reflexivity|].
  rewrite Z.shiftl_mul_pow2 by lia.
  change 5629499534213120 with (5 * 2 ^ 50).
  replace (Zpos mx * 2 ^ 53) with (8 * Zpos mx * 2 ^ 50) by lia.
  apply Z.div_mul_cancel_r; lia.
Qed.

(** *** Multiplication by 4.0 *)

Lemma mul_by_four mr er :
  Zpos (digits2_pos mr) = 53 -> -1000 <= er <= 900 ->
  Py.fmul (S754_finite false mr er) (Py.float_lit 4) = S754_finite false mr (er + 2).
Proof.
  intros Hd He.
  change (Py.float_lit 4) with (S754_finite false 4503599627370496 (-50)).
  unfold Py.fmul, SFmul. cbn [xorb]. rewrite Pos.mul_comm.
  replace (4503599627370496 * mr)%positive with (Pos.iter xO mr 52) by reflexivity.
  cbv [Pos.iter].
  unfold binary_round_aux. rewrite shr_fexp_unfold. cbn [digits2_pos].
  match goal with
  | |- context [Z.pos ?d + (er + -50) - 53] => replace (Z.pos d) with 105 by lia
  end.
  replace (Z.max (105 + (er + -50) - 53) (-1074) - (er + -50)) with 52 by lia.
  cbv [shr iter_pos shr_1 shr_record_of_loc orb].
  cbn [shr_m loc_of_shr_record round_nearest_even].
  rewrite (shr_fexp_fit _ _ _ Hd) by lia. cbn [shr_record_of_loc shr_m].
  replace (er + -50 + 52 <=? emax - prec) with true
    by (symmetry; apply Z.leb_le; change (emax - prec) with 971; lia).
  f_equal. lia.
Qed.

(** *** The number of filled characters, below [2 ^ 52] *)

Lemma fill_from_rounded p W q V :
  0 <= p -> 2 <= W ->
  q = (8 * (p * W)) / 5 ->
  q - 1 <= V <= q + 1 -> (V = q - 1 -> Z.odd q = true) ->
  V / (4 * W) = bar_fill p.
Proof.
  intros Hp HW Hq HV Hodd. unfold bar_fill.
  pose proof (Z.div_mod (8 * (p * W)) 5 ltac:(lia)) as Hq1.
  pose proof (Z.mod_pos_bound (8 * (p * W)) 5 ltac:(lia)) as Hq2.
  pose proof (Z.div_mod (p * 4) 10 ltac:(lia)) as HN1.
  pose proof (Z.mod_pos_bound (p * 4) 10 ltac:(lia)) as HN2.
  rewrite <- Hq in Hq1. set (N := p * 4 / 10) in *.
  set (rq := (8 * (p * W)) mod 5) in *. set (rn := (p * 4) mod 10) in *.
  assert (Hlow : N * (4 * W) <= V).
  { assert (4 * N * W <= q) by nia.
    destruct (Z.eq_dec V (q - 1)) as [E|E]; [|lia].
    apply Hodd in E. apply Z.odd_spec in E as [t Ht].
    assert (4 * N * W <> q) by (intros E'; nia). lia. }
  assert (Hup : V < (N + 1) * (4 * W)) by nia.
  symmetry. apply Z.div_unique with (r := V - N * (4 * W)); lia.
Qed.

Lemma dashes_count_exact p : 0 <= p < 2 ^ 52 -> dashes_count p = Ok (bar_fill p).
Proof.
  intros [Hp0 Hp]. destruct p as [|pp|pp]; [reflexivity| |lia].
  pose proof (digits2_bounds pp) as [Hlo Hhi].
  pose proof (Pos2Z.is_pos (digits2_pos pp)) as Hdpos.
  set (k := 53 - Zpos (digits2_pos pp)).
  assert (Hk : 1 <= k <= 52).
  { split; [|lia].
    destruct (Z_lt_le_dec 52 (Zpos (digits2_pos pp))) as [Hd|Hd]; [|lia].
    assert (2 ^ 52 <= 2 ^ (Zpos (digits2_pos pp) - 1))
      by (apply Z.pow_le_mono_r; lia). lia. }
  assert (Hd : Zpos (digits2_pos pp) = 53 - k) by lia.
  pose proof (shifted_digits pp k ltac:(lia) Hd) as Hb.
  destruct (float_of_pos pp k ltac:(lia) Hd) as (mx & Hf & Hmx & Hdx).
  unfold dashes_count, Py.float. rewrite Hf.
  destruct (div_by_ten mx (- k) Hdx ltac:(lia)) as (q & l & -> & Hq).
  assert (Hqb : 2 ^ 52 <= q < 2 ^ 54).
  { rewrite Hq, Hmx. split.
    - apply Z.div_le_lower_bound; lia.
    - apply Z.div_lt_upper_bound; lia. }
  destruct q as [|qq|qq]; try lia.
  destruct (round_aux_sandwich qq (- k - 4) l Hqb ltac:(lia))
    as (mr & er & -> & Hdr & Her & HV & Hodd).
  rewrite (mul_by_four _ _ Hdr) by lia. unfold Py.int.
  destruct (er + 2) as [|kk|kk] eqn:Ee; try lia.
  rewrite Z.shiftr_div_pow2 by lia. f_equal.
  set (j := er - (- k - 4)) in *.
  assert (Hj : 0 <= j <= 2) by lia.
  assert (Hkk : Zpos kk = k + 2 - j) by lia.
  rewrite <- (Z.div_mul_cancel_r (Zpos mr) (2 ^ Zpos kk) (2 ^ j))
    by (apply Z.pow_nonzero; lia).
  rewrite <- Z.pow_add_r, Hkk by lia.
  replace (k + 2 - j + j) with (2 + k) by lia.
  rewrite Z.pow_add_r by lia. change (2 ^ 2) with 4.
  apply (fill_from_rounded (Zpos pp) (2 ^ k) (Zpos qq)); try assumption; try lia.
  - change 2 with (2 ^ 1) at 1. apply Z.pow_le_mono_r; lia.
  - rewrite Hq, Hmx. reflexivity.
Qed.

(** C1.  For every percentage [p] between 0 and 100, [get_dashes] returns
    [floor (p / 10 * 4)] filled characters, and the filled and the empty
    characters together are exactly 40. *)
Theorem get_dashes_percent (p : Z) :
  0 <= p <= 100 ->
  exists dashes empty_dashes,
    get_dashes p = Ok (dashes, empty_dashes)
    /\ dashes = Py.mul "=" (bar_fill p)
    /\ empty_dashes = Py.mul " " (40 - bar_fill p)
    /\ Py.len dashes = bar_fill p
    /\ Py.len dashes + Py.len empty_dashes = 40.
Proof.
  intros Hp.
  assert (Hf : 0 <= bar_fill p <= 40)
    by (unfold bar_fill; split; [apply Z.div_pos | apply Z.div_le_upper_bound]; lia).
  exists (Py.mul "=" (bar_fill p)), (Py.mul " " (40 - bar_fill p)).
  rewrite (get_dashes_of_count p _ (dashes_count_exact p ltac:(lia))).
  replace (Z.max 0 (bar_fill p)) with (bar_fill p) by lia.
  change "="%string with (String "="%char EmptyString).
  change " "%string with (String " "%char EmptyString).
  rewrite !mul_char_len. repeat split; lia.
Qed.

Lemma get_dashes_percent_witness :
  exists dashes empty_dashes,
    get_dashes 64 = Ok (dashes, empty_dashes)
    /\ dashes = Py.mul "=" (bar_fill 64)
    /\ empty_dashes = Py.mul " " (40 - bar_fill 64)
    /\ Py.len dashes = bar_fill 64
    /\ Py.len dashes + Py.len empty_dashes = 40.
Proof. apply (get_dashes_percent 64). lia. Defined.

(** C10, as the code has it.  For a percentage [p] above 100 and up to 1000
    the empty segment is the empty string and the bar is
    [floor (p / 10 * 4)] characters wide, which is at least 40, and more than
    40 from 103 on.  Far larger inputs are left out: the filled segment grows
    with [p], and building it can fail for want of memory. *)
Theorem get_dashes_above_100 (p : Z) :
  100 < p <= 1000 ->
  get_dashes p = Ok (Py.mul "=" (bar_fill p), EmptyString)
  /\ Py.len (Py.mul "=" (bar_fill p)) + Py.len EmptyString = bar_fill p
  /\ 40 <= bar_fill p
  /\ (40 < bar_fill p <-> 103 <= p).
Proof.
  intros Hp.
  assert (H40 : 40 <= bar_fill p)
    by (unfold bar_fill; apply Z.div_le_lower_bound; lia).
  rewrite (get_dashes_of_count p _ (dashes_count_exact p ltac:(lia))).
  rewrite (mul_nonpos " ") by lia.
  change "="%string with (String "="%char EmptyString).
  rewrite mul_char_len.
  split; [reflexivity|].
  split; [change (Py.len EmptyString) with 0; lia|]. split; [exact H40|]. split.
  - intros H. destruct (Z_lt_le_dec p 103) as [Hlt|]; [|assumption].
    exfalso. assert (bar_fill p < 41); [|lia].
    unfold bar_fill. apply Z.div_lt_upper_bound; lia.
  - intros H. unfold bar_fill.
    apply Z.lt_le_trans with (m := 41); [lia|]. apply Z.div_le_lower_bound; lia.
Qed.

Lemma get_dashes_above_100_witness :
  get_dashes 250 = Ok (Py.mul "=" (bar_fill 250), EmptyString)
  /\ Py.len (Py.mul "=" (bar_fill 250)) + Py.len EmptyString = bar_fill 250
  /\ 40 <= bar_fill 250
  /\ (40 < bar_fill 250 <-> 103 <= 250).
Proof. apply (get_dashes_above_100 250). lia. Defined.

(** At [p = 101] the bar is exactly 40 characters wide: it does not exceed 40. *)
Lemma get_dashes_101_not_wider :
  100 < 101
  /\ ~ (exists dashes empty_dashes,
          get_dashes 101 = Ok (dashes, empty_dashes)
          /\ empty_dashes = EmptyString
          /\ Py.len dashes + Py.len empty_dashes = bar_fill 101
          /\ 40 < Py.len dashes + Py.len empty_dashes).
Proof.
  split; [lia|]. intros (d & e & Hg & _ & _ & Hw).
  vm_compute in Hg. injection Hg as <- <-. vm_compute in Hw. discriminate.
Qed.

(** Further up the float division is no longer exact: here the number of
    filled characters is one more than [floor (p / 10 * 4)]; and an integer
    beyond the range of floats is refused. *)
Lemma dashes_count_inexact :
  dashes_count 7626894645979002 = Ok (bar_fill 7626894645979002 + 1)
  /\ dashes_count (2 ^ 1024) = Raise OverflowError.
Proof. split; vm_compute; reflexivity. Qed.

(** *** Negative percentages *)

Lemma round_aux_negb s m e l :
  binary_round_aux prec emax (negb s) m e l
  = SFopp (binary_round_aux prec emax s m e l).
Proof.
  unfold binary_round_aux. destruct (shr_fexp prec emax m e l) as [mrs e'].
  destruct (shr_fexp prec emax _ e' loc_Exact) as [mrs2 e2].
  destruct (shr_m mrs2); [reflexivity| |reflexivity].
  destruct (e2 <=? emax - prec); reflexivity.
Qed.

Lemma SFopp_involutive x : SFopp (SFopp x) = x.
Proof. destruct x as [[]|[]| |[] ? ?]; reflexivity. Qed.

(** The float of [- p] is the opposite of the float of [p]. *)
Lemma float_opp p :
  binary_normalize prec emax (- p) 0 false
  = match p with
    | 0 => S754_zero false
    | _ => SFopp (binary_normalize prec emax p 0 false)
    end.
Proof.
  destruct p as [|p|p]; [reflexivity | |].
  - change (binary_round prec emax true p 0
            = SFopp (binary_round prec emax false p 0)).
    unfold binary_round. destruct (shl_align _ _ _) as [mz ez].
    exact (round_aux_negb false _ _ _).
  - change (binary_round prec emax false p 0
            = SFopp (binary_round prec emax true p 0)).
    unfold binary_round. destruct (shl_align _ _ _) as [mz ez].
    change true with (negb false). rewrite round_aux_negb.
    now rewrite SFopp_involutive.
Qed.

Lemma truediv_opp x :
  Py.truediv (SFopp x) (Py.float_lit 10) = SFopp (Py.truediv x (Py.float_lit 10)).
Proof.
  change (Py.float_lit 10) with (S754_finite false 5629499534213120 (-49)).
  unfold Py.truediv. destruct x as [[]|[]| |s m e]; try reflexivity.
  cbn [SFopp SFdiv].
  destruct (SFdiv_core_binary prec emax (Z.pos m) e _ _) as [[mz ez] lz].
  rewrite !xorb_false_r. apply round_aux_negb.
Qed.

Lemma fmul_opp x :
  Py.fmul (SFopp x) (Py.float_lit 4) = SFopp (Py.fmul x (Py.float_lit 4)).
Proof.
  change (Py.float_lit 4) with (S754_finite false 4503599627370496 (-50)).
  unfold Py.fmul. destruct x as [[]|[]| |s m e]; try reflexivity.
  cbn [SFopp SFmul]. rewrite !xorb_false_r. apply round_aux_negb.
Qed.

Lemma int_opp x :
  Py.int (SFopp x) = match Py.int x with Ok n => Ok (- n) | r => r end.
Proof.
  destruct x as [[]|[]| |s m e]; try reflexivity.
  cbn [SFopp Py.int]. f_equal. destruct s; cbn [negb]; lia.
Qed.

(** The count for [- p] is the opposite of the count for [p]: [int] rounds
    towards zero. *)
Lemma dashes_count_opp p :
  dashes_count (- p) = match dashes_count p with Ok n => Ok (- n) | r => r end.
Proof.
  unfold dashes_count, Py.float. rewrite float_opp.
  destruct p as [|p|p]; [reflexivity | |];
    destruct (binary_normalize prec emax _ 0 false) as [s|s| |s m e];
    try reflexivity; cbn [SFopp];
    try (change (S754_zero (negb s)) with (SFopp (S754_zero s)));
    try (change (S754_finite (negb s) m e) with (SFopp (S754_finite s m e)));
    rewrite truediv_opp, fmul_opp, int_opp; reflexivity.
Qed.

(** X9.  For a negative percentage [p] above [- 2 ^ 52], the count
    [int (float p / 10 * 4)] is [- floor (- p / 10 * 4)], which is not
    positive; so [get_dashes] returns no filled character and 40 blanks: the
    bar is empty, and nothing is raised. *)
Theorem get_dashes_negative (p : Z) :
  - 2 ^ 52 < p < 0 ->
  dashes_count p = Ok (- bar_fill (- p))
  /\ get_dashes p = Ok (EmptyString, Py.mul " " 40).
Proof.
  intros Hp.
  assert (Hc : dashes_count p = Ok (- bar_fill (- p))).
  { replace p with (- - p) at 1 by lia. rewrite dashes_count_opp.
    now rewrite (dashes_count_exact (- p)) by lia. }
  split; [exact Hc|].
  assert (Hf : 0 <= bar_fill (- p)) by (unfold bar_fill; apply Z.div_pos; lia).
  rewrite (get_dashes_of_count _ _ Hc), mul_nonpos by lia.
  do 3 f_equal. lia.
Qed.

(** A signal level given in dBm instead of percent. *)
Lemma get_dashes_negative_witness :
  dashes_count (-65) = Ok (- bar_fill (- -65))
  /\ get_dashes (-65) = Ok (EmptyString, Py.mul " " 40).
Proof. apply (get_dashes_negative (-65)). lia. Defined.

(** ** The comma-grouped rendering of a counter *)

Lemma filter_group3 l : List.filter not_comma (Py.group3 l) = List.filter not_comma l.
Proof.
  assert (H : forall n l, (length l <= n)%nat ->
              List.filter not_comma (Py.group3 l) = List.filter not_comma l).
  { clear l. induction n as [|n IH]; intros l Hl.
    - destruct l; [reflexivity | simpl in Hl; lia].
    - destruct l as [|a [|b [|c [|d rest]]]]; try reflexivity.
      change (Py.group3 (a :: b :: c :: d :: rest))
        with (a :: b :: c :: ","%char :: Py.group3 (d :: rest)).
      cbn [List.filter]. change (not_comma ",") with false. cbv iota.
      rewrite (IH (d :: rest)) by (simpl in *; lia). reflexivity. }
  apply (H (length l)). lia.
Qed.

Lemma filter_not_comma_rev l : List.filter not_comma (rev l) = rev (List.filter not_comma l).
Proof.
  induction l as [|a l IH]; [reflexivity|].
  simpl. rewrite List.filter_app, IH. simpl. destruct (not_comma a); simpl.
  - reflexivity.
  - now rewrite app_nil_r.
Qed.

Lemma strip_commas_filter l :
  Py.strip_commas (string_of_list_ascii l) = string_of_list_ascii (List.filter not_comma l).
Proof.
  induction l as [|a l IH]; [reflexivity|].
  cbn [string_of_list_ascii Py.strip_commas List.filter]. unfold not_comma at 1.
  destruct (Ascii.eqb a ","); simpl; now rewrite IH.
Qed.

(** Stripping the commas undoes the grouping of a string without commas. *)
Lemma strip_group_digits s :
  List.filter not_comma (list_ascii_of_string s) = list_ascii_of_string s ->
  Py.strip_commas (Py.group_digits s) = s.
Proof.
  intros H. unfold Py.group_digits.
  rewrite strip_commas_filter, filter_not_comma_rev, filter_group3.
  rewrite filter_not_comma_rev, rev_involutive, H.
  apply string_of_list_ascii_of_string.
Qed.

Lemma uint_string_no_comma d :
  List.filter not_comma (list_ascii_of_string (NilEmpty.string_of_uint d))
  = list_ascii_of_string (NilEmpty.string_of_uint d).
Proof. induction d; simpl; [reflexivity | now rewrite IHd ..]. Qed.

Lemma parse_digits_uint d acc :
  Py.parse_digits (NilEmpty.string_of_uint d) acc = Ok (uint_value d acc).
Proof.
  revert acc. induction d; intros acc; simpl; [reflexivity | rewrite IHd ..];
    do 2 f_equal;
    match goal with
    | |- context [Py.ord ?c - 48] =>
        let v := eval vm_compute in (Py.ord c - 48) in
        change (Py.ord c - 48) with v
    end; lia.
Qed.

Lemma of_uint_acc_value d acc :
  Zpos (Pos.of_uint_acc d acc) = uint_value d (Zpos acc).
Proof.
  revert acc. induction d; intros acc; simpl; [reflexivity | rewrite IHd; f_equal; lia ..].
Qed.

Lemma of_uint_value d : Z.of_N (Pos.of_uint d) = uint_value d 0.
Proof.
  induction d; simpl; try assumption; try reflexivity;
    rewrite of_uint_acc_value; reflexivity.
Qed.

Lemma pos_to_uint_value p : uint_value (Pos.to_uint p) 0 = Zpos p.
Proof. rewrite <- of_uint_value, DecimalPos.Unsigned.of_to. reflexivity. Qed.

(** The first character of a numeral is a digit, so [int] reads no sign. *)
Lemma parse_int_uint d :
  d <> Decimal.Nil ->
  Py.parse_int (NilEmpty.string_of_uint d) = Ok (uint_value d 0).
Proof.
  intros Hd. rewrite <- parse_digits_uint.
  destruct d; [congruence | reflexivity ..].
Qed.

Lemma str_nonneg_no_comma n :
  0 <= n ->
  List.filter not_comma (list_ascii_of_string (Py.str n)) = list_ascii_of_string (Py.str n).
Proof.
  intros Hn. unfold Py.str. destruct n as [|p|p]; [reflexivity| |lia].
  cbn [Z.to_int NilZero.string_of_int]. unfold NilZero.string_of_uint.
  destruct (Pos.to_uint p); [reflexivity | apply uint_string_no_comma ..].
Qed.

Lemma parse_int_str n : 0 <= n -> Py.parse_int (Py.str n) = Ok n.
Proof.
  intros Hn. unfold Py.str. destruct n as [|p|p]; [reflexivity| |lia].
  cbn [Z.to_int NilZero.string_of_int]. unfold NilZero.string_of_uint.
  generalize (pos_to_uint_value p) (DecimalPos.Unsigned.to_uint_nonnil p).
  destruct (Pos.to_uint p) eqn:E; intros Hv Hnil; try congruence;
    rewrite parse_int_uint by discriminate; now rewrite Hv.
Qed.

(** C9.  For every non-negative counter, stripping the commas from the
    comma-grouped rendering and reading the result as an integer gives the
    counter back; so it does for 0, 1234 and 8406668388. *)
Theorem format_comma_roundtrip (n : Z) :
  0 <= n ->
  Py.parse_int (Py.strip_commas (Py.format_comma n)) = Ok n.
Proof.
  intros Hn. unfold Py.format_comma.
  destruct (Z.ltb_spec n 0) as [Hneg|_]; [lia|].
  rewrite strip_group_digits by (apply str_nonneg_no_comma; exact Hn).
  apply parse_int_str; exact Hn.
Qed.

Lemma format_comma_roundtrip_witness :
  Py.format_comma 8406668388 = "8,406,668,388"%string
  /\ Py.format_comma 1234 = "1,234"%string
  /\ Py.format_comma 0 = "0"%string
  /\ Py.parse_int (Py.strip_commas (Py.format_comma 8406668388)) = Ok 8406668388
  /\ Py.parse_int (Py.strip_commas (Py.format_comma 1234)) = Ok 1234
  /\ Py.parse_int (Py.strip_commas (Py.format_comma 0)) = Ok 0.
Proof.
  split; [reflexivity|]. split; [reflexivity|]. split; [reflexivity|].
  split; [exact (format_comma_roundtrip 8406668388 ltac:(lia))|].
  split; [exact (format_comma_roundtrip 1234 ltac:(lia))|].
  exact (format_comma_roundtrip 0 ltac:(lia)).
Defined.

(** ** The monad *)

Lemma bind_run {A B} (m : M A) (f : A -> M B) st :
  (m ≫= f) st =
  match m st with
  | (Ok a, st1, out1) => let '(r, st2, out2) := f a st1 in (r, st2, out1 ++ out2)
  | (Raise e, st1, out1) => (Raise e, st1, out1)
  | (Diverge, st1, out1) => (Diverge, st1, out1)
  end.
Proof. reflexivity. Qed.

(** Inversion of a sequence: either the first part fails and the second never
    runs, or the first part returns and the second runs from its state. *)
Lemma bind_inv {A B} (m : M A) (f : A -> M B) st r st' out :
  (m ≫= f) st = (r, st', out) ->
  (exists a st1 out1 out2,
      m st = (Ok a, st1, out1) /\ f a st1 = (r, st', out2) /\ out = out1 ++ out2)
  \/ (m st = (Diverge, st', out) /\ r = Diverge)
  \/ (exists e, m st = (Raise e, st', out) /\ r = Raise e).
Proof.
  rewrite bind_run. destruct (m st) as [[[a|e|] st1] out1].
  - destruct (f a st1) as [[r2 st2] out2] eqn:Ef. intros [= <- <- <-].
    left. exists a, st1, out1, out2. auto.
  - intros [= <- <- <-]. right; right. exists e. auto.
  - intros [= <- <- <-]. right; left. auto.
Qed.

Lemma bind_ok_inv {A B} (m : M A) (f : A -> M B) st b st' out :
  (m ≫= f) st = (Ok b, st', out) ->
  exists a st1 out1 out2,
    m st = (Ok a, st1, out1) /\ f a st1 = (Ok b, st', out2) /\ out = out1 ++ out2.
Proof.
  intros H. apply bind_inv in H as [H|[[_ H]|(e & _ & H)]];
    [exact H | discriminate H | discriminate H].
Qed.

Lemma lift_ok_inv {A} (x : result A) st a st' out :
  lift x st = (Ok a, st', out) -> x = Ok a /\ st' = st /\ out = [].
Proof. intros [= -> <- <-]. auto. Qed.

Lemma for_each_emit {A} (g : A -> event) (l : list A) st :
  for_each l (fun x => emit (g x)) st = (Ok tt, st, map g l).
Proof.
  induction l as [|x l IH]; [reflexivity|].
  cbn [for_each]. rewrite bind_run. unfold emit at 1. rewrite IH. reflexivity.
Qed.

Lemma emit_then {A} e (m : M A) st :
  (emit e;; m) st = let '(r, st', out) := m st in (r, st', e :: out).
Proof. rewrite bind_run. cbn. destruct (m st) as [[r st'] out]. reflexivity. Qed.

Lemma ret_then {A B} (a : A) (f : A -> M B) st : (mret a ≫= f) st = f a st.
Proof. rewrite bind_run. cbn. destruct (f a st) as [[r st'] out]. reflexivity. Qed.

Lemma set_lineno_then {A} n (m : M A) st :
  (set_lineno n;; m) st = m {| lineno := n; sigint := sigint st |}.
Proof.
  rewrite bind_run. cbn. destruct (m _) as [[r st'] out]. reflexivity.
Qed.

Lemma bind_ok_run {A B} (m : M A) (f : A -> M B) st a st1 out1 :
  m st = (Ok a, st1, out1) ->
  (m ≫= f) st = let '(r, st2, out2) := f a st1 in (r, st2, out1 ++ out2).
Proof. intros H. rewrite bind_run, H. reflexivity. Qed.

Section Structure.

Context {A B : Type}.

Lemma quiet_bind (m : M A) (f : A -> M B) :
  quiet m -> (forall a, quiet (f a)) -> quiet (m ≫= f).
Proof.
  intros Hm Hf st r st' out H.
  apply bind_inv in H as [(a & st1 & o1 & o2 & H1 & H2 & ->)|[[H1 _]|(e & H1 & _)]].
  - apply Forall_app. split; [exact (Hm _ _ _ _ H1) | exact (Hf _ _ _ _ _ H2)].
  - exact (Hm _ _ _ _ H1).
  - exact (Hm _ _ _ _ H1).
Qed.

Lemma steady_bind (m : M A) (f : A -> M B) :
  steady m -> (forall a, steady (f a)) -> steady (m ≫= f).
Proof.
  intros Hm Hf st r st' out Hs H.
  apply bind_inv in H as [(a & st1 & o1 & o2 & H1 & H2 & ->)|[[H1 ->]|(e & H1 & ->)]].
  - destruct (Hm _ _ _ _ Hs H1) as [Hs1 Ho1].
    destruct (Hf _ _ _ _ _ Hs1 H2) as [Hs2 Ho2]. split; [exact Hs2|].
    destruct r as [b|[]|]; try (destruct Ho2 as [Hp Ho2]; split; [exact Hp|]);
      try (apply Forall_app; split; assumption); try assumption.
    destruct Ho2 as (pre & y & x & s & a0 & -> & Hpre).
    exists (o1 ++ pre), y, x, s, a0. rewrite app_assoc. split; [reflexivity|].
    apply Forall_app. split; assumption.
  - exact (Hm _ _ _ _ Hs H1).
  - exact (Hm _ _ _ _ Hs H1).
Qed.

Lemma interruptible_bind (m : M A) (f : A -> M B) :
  interruptible m -> (forall a, interruptible (f a)) -> interruptible (m ≫= f).
Proof.
  intros Hm Hf st r st' out H Hs Hs'.
  apply bind_inv in H as [(a & st1 & o1 & o2 & H1 & H2 & ->)|[[H1 ->]|(e & H1 & ->)]].
  - destruct (sigint st1) as [k|] eqn:E1.
    + apply (Hf _ _ _ _ _ H2); [congruence | exact Hs'].
    + discriminate (Hm _ _ _ _ H1 Hs E1).
  - discriminate (Hm _ _ _ _ H1 Hs Hs').
  - pose proof (Hm _ _ _ _ H1 Hs Hs') as E. injection E as ->. reflexivity.
Qed.

End Structure.

(** Splitting a sequence of steps into its steps, with the lemma [L] for one
    bind. *)
Ltac structural L leaf :=
  repeat first
    [ solve [leaf]
    | apply L; [| intros ?]
    | match goal with
      | |- context [let '(_, _) := ?p in _] => destruct p
      end ].

(** *** The primitive steps *)

Lemma quiet_ret {A} (a : A) : quiet (mret a).
Proof. intros st r st' out [= <- <- <-]. constructor. Qed.

Lemma quiet_raise {A} e : quiet (@raise A e).
Proof. intros st r st' out [= <- <- <-]. constructor. Qed.

Lemma quiet_lift {A} (x : result A) : quiet (lift x).
Proof. intros st r st' out [= <- <- <-]. constructor. Qed.

Lemma quiet_diverge {A} : quiet (@diverge A).
Proof. intros st r st' out [= <- <- <-]. constructor. Qed.

Lemma quiet_get_lineno : quiet get_lineno.
Proof. intros st r st' out [= <- <- <-]. constructor. Qed.

Lemma quiet_set_lineno n : quiet (set_lineno n).
Proof. intros st r st' out [= <- <- <-]. constructor. Qed.

Lemma quiet_check_signals : quiet check_signals.
Proof.
  intros st r st' out H. unfold check_signals in H.
  destruct (sigint st) as [[|k]|]; injection H as <- <- <-; constructor.
Qed.

Lemma quiet_emit e : loop_event e = true -> quiet (emit e).
Proof. intros He st r st' out [= <- <- <-]. repeat constructor. exact He. Qed.

Lemma quiet_try_except_else {A B} (body : M A) catches (handler : exn -> M B) orelse :
  quiet body -> (forall e, quiet (handler e)) -> (forall a, quiet (orelse a)) ->
  quiet (try_except_else body catches handler orelse).
Proof.
  intros Hb Hh Ho st r st' out H. unfold try_except_else in H.
  destruct (body st) as [[[a|e|] st1] out1] eqn:Eb; pose proof (Hb _ _ _ _ Eb) as H1.
  - destruct (orelse a st1) as [[r2 st2] out2] eqn:Eo. injection H as <- <- <-.
    apply Forall_app. split; [exact H1 | exact (Ho _ _ _ _ _ Eo)].
  - destruct (catches e).
    + destruct (handler e st1) as [[r2 st2] out2] eqn:Eh. injection H as <- <- <-.
      apply Forall_app. split; [exact H1 | exact (Hh _ _ _ _ _ Eh)].
    + injection H as <- <- <-. exact H1.
  - injection H as <- <- <-. exact H1.
Qed.

Lemma quiet_for_each {A} (l : list A) body :
  (forall x, quiet (body x)) -> quiet (for_each l body).
Proof.
  intros Hb. induction l as [|x l IH]; cbn [for_each].
  - apply quiet_ret.
  - apply quiet_bind; [apply Hb | intros _; exact IH].
Qed.

Lemma interruptible_still {A} (m : M A) :
  (forall st r st' out, m st = (r, st', out) -> sigint st' = sigint st) ->
  interruptible m.
Proof.
  intros Hm st r st' out H Hs Hs'. rewrite (Hm _ _ _ _ H) in Hs'. contradiction.
Qed.

Lemma interruptible_ret {A} (a : A) : interruptible (mret a).
Proof. apply interruptible_still. now intros st r st' out [= <- <- <-]. Qed.

Lemma interruptible_raise {A} e : interruptible (@raise A e).
Proof. apply interruptible_still. now intros st r st' out [= <- <- <-]. Qed.

Lemma interruptible_lift {A} (x : result A) : interruptible (lift x).
Proof. apply interruptible_still. now intros st r st' out [= <- <- <-]. Qed.

Lemma interruptible_diverge {A} : interruptible (@diverge A).
Proof. apply interruptible_still. now intros st r st' out [= <- <- <-]. Qed.

Lemma interruptible_get_lineno : interruptible get_lineno.
Proof. apply interruptible_still. now intros st r st' out [= <- <- <-]. Qed.

Lemma interruptible_set_lineno n : interruptible (set_lineno n).
Proof. apply interruptible_still. now intros st r st' out [= <- <- <-]. Qed.

Lemma interruptible_emit e : interruptible (emit e).
Proof. apply interruptible_still. now intros st r st' out [= <- <- <-]. Qed.

Lemma interruptible_check_signals : interruptible check_signals.
Proof.
  intros st r st' out H Hs Hs'. unfold check_signals in H.
  destruct (sigint st) as [[|k]|]; injection H as <- <- <-;
    [reflexivity | discriminate | contradiction].
Qed.

Lemma interruptible_try_except_else {A B} (body : M A) catches
    (handler : exn -> M B) orelse :
  catches KeyboardInterrupt = false ->
  interruptible body -> (forall e, interruptible (handler e)) ->
  (forall a, interruptible (orelse a)) ->
  interruptible (try_except_else body catches handler orelse).
Proof.
  intros Hc Hb Hh Ho st r st' out H Hs Hs'. unfold try_except_else in H.
  destruct (body st) as [[[a|e|] st1] out1] eqn:Eb.
  - destruct (orelse a st1) as [[r2 st2] out2] eqn:Eo. injection H as <- <- <-.
    destruct (sigint st1) as [k|] eqn:E1.
    + apply (Ho _ _ _ _ _ Eo); [congruence | exact Hs'].
    + discriminate (Hb _ _ _ _ Eb Hs E1).
  - destruct (sigint st1) as [k|] eqn:E1.
    + destruct (catches e).
      * destruct (handler e st1) as [[r2 st2] out2] eqn:Eh. injection H as <- <- <-.
        apply (Hh _ _ _ _ _ Eh); [congruence | exact Hs'].
      * injection H as <- <- <-. congruence.
    + pose proof (Hb _ _ _ _ Eb Hs E1) as E. injection E as ->. rewrite Hc in H.
      injection H as <- <- <-. reflexivity.
  - injection H as <- <- <-. discriminate (Hb _ _ _ _ Eb Hs Hs').
Qed.

Lemma interruptible_for_each {A} (l : list A) body :
  (forall x, interruptible (body x)) -> interruptible (for_each l body).
Proof.
  intros Hb. induction l as [|x l IH]; cbn [for_each].
  - apply interruptible_ret.
  - apply interruptible_bind; [apply Hb | intros _; exact IH].
Qed.

Lemma steady_ret {A} (a : A) : steady (mret a).
Proof. intros st r st' out Hs [= <- <- <-]. split; [exact Hs | constructor]. Qed.

Lemma steady_lift {A} (x : result A) :
  match x with Ok _ => True | Raise e => plain_error e = true | Diverge => False end ->
  steady (lift x).
Proof.
  intros Hx st r st' out Hs [= <- <- <-]. split; [exact Hs|].
  destruct x as [a|[]|]; try discriminate Hx; try contradiction;
    try (split; [reflexivity|]); constructor.
Qed.

Lemma steady_set_lineno n : steady (set_lineno n).
Proof. intros st r st' out Hs [= <- <- <-]. split; [exact Hs | constructor]. Qed.

Lemma steady_emit e : failed_addstr e = false -> steady (emit e).
Proof.
  intros He st r st' out Hs [= <- <- <-]. split; [exact Hs|].
  repeat constructor. exact He.
Qed.

Lemma steady_check_signals : steady check_signals.
Proof.
  intros st r st' out Hs H. unfold check_signals in H. rewrite Hs in H.
  injection H as <- <- <-. split; [exact Hs | constructor].
Qed.

Lemma steady_for_each {A} (l : list A) body :
  (forall x, steady (body x)) -> steady (for_each l body).
Proof.
  intros Hb. induction l as [|x l IH]; cbn [for_each].
  - apply steady_ret.
  - apply steady_bind; [apply Hb | intros _; exact IH].
Qed.

Lemma written_not_failed (out : list event) :
  Forall (fun e => failed_addstr e = false) out ->
  Exists (fun e => failed_addstr e = true) out -> False.
Proof.
  intros Hall Hex. induction Hex as [e l He|e l _ IH]; inversion Hall; subst.
  - congruence.
  - auto.
Qed.

(** When a steady computation has a refused [addstr] in its log, it failed
    with [curses.error], after a cursor reset and a refresh. *)
Lemma steady_failed {A} (m : M A) st r st' out :
  steady m -> sigint st = None -> m st = (r, st', out) ->
  Exists (fun e => failed_addstr e = true) out ->
  r = Raise CursesError
  /\ lineno st' = 0
  /\ exists pre y x s a, out = pre ++ [Eaddstr y x s a false; Erefresh].
Proof.
  intros Hm Hs H Hex. destruct (Hm _ _ _ _ Hs H) as [_ Hr].
  destruct r as [a|e|]; [destruct (written_not_failed _ Hr Hex)| |
                         destruct (written_not_failed _ Hr Hex)].
  destruct e; try (destruct Hr as [_ Hr]; destruct (written_not_failed _ Hr Hex)).
  destruct Hr as (Hl & pre & y & x & s & a & -> & _). eauto 10.
Qed.

(** ** The errors of the pure helpers *)

Lemma getitem_plain {V} (d : gmap string V) k :
  match getitem d k with
  | Ok _ => True
  | Raise e => plain_error e = true
  | Diverge => False
  end.
Proof. unfold getitem. destruct (d !! k); [exact I | reflexivity]. Qed.

Lemma dashes_count_plain p :
  match dashes_count p with
  | Ok _ => True
  | Raise e => plain_error e = true
  | Diverge => False
  end.
Proof.
  unfold dashes_count, Py.float.
  destruct (binary_normalize prec emax p 0 false); try reflexivity;
    unfold Py.int;
    match goal with
    | |- context [Py.fmul ?a ?b] => destruct (Py.fmul a b)
    end; try reflexivity; exact I.
Qed.

Lemma get_dashes_plain p :
  match get_dashes p with
  | Ok _ => True
  | Raise e => plain_error e = true
  | Diverge => False
  end.
Proof.
  unfold get_dashes. pose proof (dashes_count_plain p) as H.
  destruct (dashes_count p); [exact I | exact H | exact H].
Qed.

(** ** More on the bar of [get_dashes] *)

(** *** A higher percentage, a longer bar *)

(** [int] rounds towards zero: below [2 ^ 52] in absolute value the count is
    the quotient of [4 p] by 10, truncated. *)
Lemma dashes_count_quot p :
  - 2 ^ 52 < p < 2 ^ 52 -> dashes_count p = Ok (Z.quot (p * 4) 10).
Proof.
  intros Hp. destruct (Z_lt_le_dec p 0) as [Hn|Hn].
  - replace p with (- - p) at 1 by lia. rewrite dashes_count_opp.
    rewrite (dashes_count_exact (- p)) by lia. f_equal. unfold bar_fill.
    rewrite <- Z.quot_div_nonneg by lia.
    rewrite <- Z.quot_opp_l by lia. f_equal. lia.
  - rewrite (dashes_count_exact p) by lia. f_equal. unfold bar_fill.
    symmetry. apply Z.quot_div_nonneg; lia.
Qed.

(** X14.  From above [- 2 ^ 52] up to 1000 the bar grows with the
    percentage: of two percentages the higher one never has fewer filled
    characters nor more blanks; and five points more are exactly two filled
    characters more. *)
Theorem get_dashes_monotone (p q : Z) :
  - 2 ^ 52 < p -> p <= q -> q <= 1000 ->
  exists d1 e1 d2 e2,
    get_dashes p = Ok (d1, e1) /\ get_dashes q = Ok (d2, e2)
    /\ Py.len d1 <= Py.len d2 /\ Py.len e2 <= Py.len e1
    /\ (0 <= p -> q = p + 5 -> Py.len d2 = Py.len d1 + 2).
Proof.
  intros Hp Hpq Hq.
  pose proof (dashes_count_quot p ltac:(lia)) as Cp.
  pose proof (dashes_count_quot q ltac:(lia)) as Cq.
  assert (Hm : Z.quot (p * 4) 10 <= Z.quot (q * 4) 10)
    by (apply Z.quot_le_mono; lia).
  rewrite (get_dashes_of_count _ _ Cp), (get_dashes_of_count _ _ Cq).
  do 4 eexists. split; [reflexivity|]. split; [reflexivity|].
  change "="%string with (String "="%char EmptyString).
  change " "%string with (String " "%char EmptyString).
  rewrite !mul_char_len. split; [lia|]. split; [lia|].
  intros H0 ->. rewrite !Z.quot_div_nonneg by lia.
  replace ((p + 5) * 4) with (p * 4 + 2 * 10) by lia.
  rewrite Z.div_add by lia.
  assert (0 <= p * 4 / 10) by (apply Z.div_pos; lia). lia.
Qed.

(** The signal level and the link quality of the sample, and five points. *)
Lemma get_dashes_monotone_witness :
  (exists d1 e1 d2 e2,
      get_dashes 45 = Ok (d1, e1) /\ get_dashes 64 = Ok (d2, e2)
      /\ Py.len d1 <= Py.len d2 /\ Py.len e2 <= Py.len e1
      /\ (0 <= 45 -> 64 = 45 + 5 -> Py.len d2 = Py.len d1 + 2))
  /\ (exists d1 e1 d2 e2,
        get_dashes 45 = Ok (d1, e1) /\ get_dashes 50 = Ok (d2, e2)
        /\ Py.len d1 <= Py.len d2 /\ Py.len e2 <= Py.len e1
        /\ (0 <= 45 -> 50 = 45 + 5 -> Py.len d2 = Py.len d1 + 2)).
Proof.
  split; [apply (get_dashes_monotone 45 64) | apply (get_dashes_monotone 45 50)];
    lia.
Defined.

(** *** The bar below zero and above 100, and the count for any integer *)

Lemma shr_1_nonneg mrs : 0 <= shr_m mrs -> 0 <= shr_m (shr_1 mrs).
Proof.
  destruct mrs as [m r s]. cbn [shr_m]. intros H.
  destruct m as [|[p|p|]|p]; cbn; lia.
Qed.

Lemma iter_shr_1_nonneg n mrs :
  0 <= shr_m mrs -> 0 <= shr_m (SpecFloat.iter_pos shr_1 n mrs).
Proof.
  revert mrs. induction n as [n IH|n IH|]; intros mrs H; cbn [SpecFloat.iter_pos].
  - apply IH, IH, shr_1_nonneg, H.
  - apply IH, IH, H.
  - apply shr_1_nonneg, H.
Qed.

Lemma shr_fexp_nonneg m e l :
  0 <= m -> 0 <= shr_m (fst (shr_fexp prec emax m e l)).
Proof.
  intros H. unfold shr_fexp, shr.
  destruct (fexp prec emax (Zdigits2 m + e) - e); cbn [fst];
    try apply iter_shr_1_nonneg; now rewrite shr_m_record.
Qed.

Lemma round_nearest_even_nonneg m l : 0 <= m -> 0 <= round_nearest_even m l.
Proof.
  intros H. destruct l as [|[]]; cbn [round_nearest_even];
    try destruct (Z.even m); lia.
Qed.

(** Rounding a mantissa that is not negative never gives a NaN. *)
Lemma round_aux_not_nan s m e l :
  0 <= m -> binary_round_aux prec emax s m e l <> S754_nan.
Proof.
  intros H. unfold binary_round_aux.
  pose proof (shr_fexp_nonneg m e l H) as H1.
  destruct (shr_fexp prec emax m e l) as [mrs e']. cbn [fst] in H1.
  pose proof (shr_fexp_nonneg _ e' loc_Exact
                (round_nearest_even_nonneg _ (loc_of_shr_record mrs) H1)) as H2.
  destruct (shr_fexp prec emax _ e' loc_Exact) as [mrs2 e2]. cbn [fst] in H2.
  destruct (shr_m mrs2); [discriminate| |lia].
  destruct (e2 <=? emax - prec); discriminate.
Qed.

Lemma float_not_nan p : binary_normalize prec emax p 0 false <> S754_nan.
Proof.
  destruct p as [|p|p]; [discriminate | |]; cbn [binary_normalize];
    unfold binary_round; destruct (shl_align _ _ _) as [mz ez];
    apply round_aux_not_nan; lia.
Qed.

Lemma truediv_not_nan x :
  x <> S754_nan -> (forall s, x <> S754_infinity s) ->
  Py.truediv x (Py.float_lit 10) <> S754_nan.
Proof.
  intros Hn Hi.
  change (Py.float_lit 10) with (S754_finite false 5629499534213120 (-49)).
  unfold Py.truediv. destruct x as [s|s| |s m e]; try discriminate; try congruence.
  cbn [SFdiv]. unfold SFdiv_core_binary. rewrite div_eucl_pair.
  apply round_aux_not_nan. apply Z.div_pos; [|lia].
  match goal with |- 0 <= match ?d with _ => _ end => destruct d end;
    try lia. apply Z.shiftl_nonneg. lia.
Qed.

Lemma fmul_not_nan y :
  y <> S754_nan -> Py.fmul y (Py.float_lit 4) <> S754_nan.
Proof.
  intros Hn.
  change (Py.float_lit 4) with (S754_finite false 4503599627370496 (-50)).
  unfold Py.fmul. destruct y as [s|s| |s m e]; try discriminate; try congruence.
  cbn [SFmul]. apply round_aux_not_nan. lia.
Qed.

(** The count fails with [OverflowError] only: [ValueError], which [int]
    raises on a NaN, cannot happen. *)
Lemma dashes_count_raises p e : dashes_count p = Raise e -> e = OverflowError.
Proof.
  unfold dashes_count, Py.float.
  pose proof (float_not_nan p) as Hn.
  destruct (binary_normalize prec emax p 0 false) as [s|s| |s m ex] eqn:E;
    try congruence;
    match goal with
    | |- Py.int (Py.fmul (Py.truediv ?x _) _) = _ -> _ =>
        pose proof (fmul_not_nan _ (truediv_not_nan x ltac:(discriminate)
                                      ltac:(discriminate))) as H;
        destruct (Py.fmul (Py.truediv x _) _); cbn [Py.int]; congruence
    end.
Qed.

Lemma get_dashes_raises p e : get_dashes p = Raise e -> e = OverflowError.
Proof.
  unfold get_dashes. pose proof (dashes_count_raises p) as H.
  destruct (dashes_count p); [discriminate| |discriminate].
  intros [= <-]. now apply H.
Qed.

(** X10.  For every percentage [p] above [- 2 ^ 52] and up to 1000,
    [get_dashes] raises nothing and returns a bar that is never shorter than
    40 characters: filled characters only in the first segment,
    [max 0 (floor (p / 10 * 4))] of them, blanks only in the second, as many
    as the filled characters leave of 40.  And for every integer whatever,
    the count [int (float p / 10 * 4)] is an integer or fails with
    [OverflowError]: [ValueError], which [int] raises on a NaN, cannot
    happen. *)
Theorem get_dashes_never_short (p : Z) :
  (- 2 ^ 52 < p <= 1000 ->
   exists dashes empty_dashes,
     get_dashes p = Ok (dashes, empty_dashes)
     /\ dashes = Py.mul "=" (Py.len dashes)
     /\ empty_dashes = Py.mul " " (40 - Py.len dashes)
     /\ Py.len dashes = Z.max 0 (bar_fill p)
     /\ Py.len dashes + Py.len empty_dashes = Z.max 40 (bar_fill p))
  /\ (dashes_count p = Raise OverflowError \/ exists n, dashes_count p = Ok n).
Proof.
  split.
  - intros Hp. pose proof (dashes_count_quot p ltac:(lia)) as E.
    rewrite (get_dashes_of_count _ _ E).
    exists (Py.mul "=" (Z.quot (p * 4) 10)),
      (Py.mul " " (40 - Z.max 0 (Z.quot (p * 4) 10))).
    change "="%string with (String "="%char EmptyString).
    change " "%string with (String " "%char EmptyString).
    rewrite !mul_char_len.
    assert (Hq : Z.max 0 (Z.quot (p * 4) 10) = Z.max 0 (bar_fill p)).
    { unfold bar_fill. destruct (Z_lt_le_dec p 0) as [Hn|Hn].
      - assert (Z.quot (p * 4) 10 <= 0) by (apply Z.quot_le_upper_bound; lia).
        assert (p * 4 / 10 < 0) by (apply Z.div_lt_upper_bound; lia). lia.
      - now rewrite Z.quot_div_nonneg by lia. }
    split; [reflexivity|]. split; [unfold Py.mul; f_equal; lia|].
    split; [reflexivity|]. split; [exact Hq | lia].
  - destruct (dashes_count p) as [n|e|] eqn:E.
    + right. now exists n.
    + left. now rewrite (dashes_count_raises _ _ E).
    + exfalso. pose proof (dashes_count_plain p) as H. now rewrite E in H.
Qed.

(** A signal level in dBm, and a percentage above 100. *)
Lemma get_dashes_never_short_witness :
  (exists dashes empty_dashes,
      get_dashes (-65) = Ok (dashes, empty_dashes)
      /\ dashes = Py.mul "=" (Py.len dashes)
      /\ empty_dashes = Py.mul " " (40 - Py.len dashes)
      /\ Py.len dashes = Z.max 0 (bar_fill (-65))
      /\ Py.len dashes + Py.len empty_dashes = Z.max 40 (bar_fill (-65)))
  /\ (exists dashes empty_dashes,
        get_dashes 250 = Ok (dashes, empty_dashes)
        /\ dashes = Py.mul "=" (Py.len dashes)
        /\ empty_dashes = Py.mul " " (40 - Py.len dashes)
        /\ Py.len dashes = Z.max 0 (bar_fill 250)
        /\ Py.len dashes + Py.len empty_dashes = Z.max 40 (bar_fill 250)).
Proof.
  split; [apply (proj1 (get_dashes_never_short (-65)))
         | apply (proj1 (get_dashes_never_short 250))]; lia.
Defined.

(** ** Rows, counts and exceptions *)

Lemma count_if_app f o1 o2 : count_if f (o1 ++ o2) = (count_if f o1 + count_if f o2)%nat.
Proof. unfold count_if. now rewrite List.filter_app, length_app. Qed.

Lemma filter_all {A} (f : A -> bool) l :
  Forall (fun x => f x = true) l -> List.filter f l = l.
Proof.
  induction 1 as [|x l Hx _ IH]; [reflexivity|]. cbn. now rewrite Hx, IH.
Qed.

Lemma count_if_none f g out :
  Forall (fun e => g e = true) out -> (forall e, g e = true -> f e = false) ->
  count_if f out = 0%nat.
Proof.
  intros H Hfg. unfold count_if. induction H as [|e out He _ IH]; [reflexivity|].
  cbn. now rewrite (Hfg _ He).
Qed.

Lemma rows_from_app ln o1 o2 :
  rows_from ln o1 -> rows_from (ln + Z.of_nat (count_if is_addstr o1)) o2 ->
  rows_from ln (o1 ++ o2).
Proof.
  unfold count_if. revert ln. induction o1 as [|e o1 IH]; intros ln H1 H2.
  - cbn in H2. now rewrite Z.add_0_r in H2.
  - destruct e; cbn [app rows_from] in *; try (apply IH; [exact H1|exact H2]).
    destruct H1 as (Hy & Hx & H1). split; [exact Hy|]. split; [exact Hx|].
    apply IH; [exact H1|]. cbn [List.filter is_addstr length] in H2.
    replace (ln + 1 + Z.of_nat (length (List.filter is_addstr o1)))
      with (ln + Z.of_nat (S (length (List.filter is_addstr o1)))) by lia.
    exact H2.
Qed.

(** The [i]-th line of a log that starts at row [ln] is at row [ln + i]. *)
Lemma rows_from_nth ln out i y x s a ok :
  rows_from ln out ->
  nth_error (List.filter is_addstr out) i = Some (Eaddstr y x s a ok) ->
  y = ln + Z.of_nat i /\ x = 0.
Proof.
  revert ln i. induction out as [|e out IH]; intros ln i H Hn.
  - destruct i; discriminate Hn.
  - destruct e; cbn [rows_from List.filter is_addstr] in *; try (exact (IH _ _ H Hn)).
    destruct H as (Hy & Hx & H). destruct i as [|i]; cbn [nth_error] in Hn.
    + injection Hn as <- <- _ _ _. lia.
    + destruct (IH _ _ H Hn) as [-> ->]. lia.
Qed.

Lemma rows_from_silent ln out :
  Forall (fun e => is_addstr e = false) out ->
  rows_from ln out /\ count_if is_addstr out = 0%nat.
Proof.
  unfold count_if.
  induction 1 as [|e out He _ [IH1 IH2]]; [split; [exact I | reflexivity]|].
  destruct e; try discriminate He; cbn in *; auto.
Qed.

Lemma rows_from_top_app ln o1 o2 :
  rows_from_top ln o1 -> (forall ln', rows_from_top ln' o2) ->
  rows_from_top ln (o1 ++ o2).
Proof.
  intros H1 H2. revert ln H1. induction o1 as [|e o1 IH]; intros ln H1.
  - apply H2.
  - destruct e; cbn [app rows_from_top] in *; try (apply IH; exact H1).
    destruct H1 as (Hy & Hx & H1). auto.
Qed.

Lemma rows_from_top_draws ln out :
  Forall (fun e => is_draw e = true) out -> rows_from ln out ->
  rows_from_top ln out.
Proof.
  intros Hd. revert ln. induction Hd as [|e out He _ IH]; intros ln H; [exact I|].
  destruct e; try discriminate He; cbn [rows_from rows_from_top] in *.
  - destruct H as (Hy & Hx & H). auto.
  - auto.
Qed.

Lemma rows_from_top_lines base lines post :
  Forall (fun e => is_addstr e = true) lines ->
  rows_from_top base (lines ++ post) ->
  forall i y x s a ok,
    nth_error lines i = Some (Eaddstr y x s a ok) ->
    y = base + Z.of_nat i /\ x = 0.
Proof.
  intros Hl. revert base.
  induction Hl as [|e lines He _ IH]; intros base H i y x s a ok Hn.
  - destruct i; discriminate Hn.
  - destruct e; try discriminate He. cbn [app rows_from_top] in H.
    destruct H as (Hy & Hx & H). destruct i as [|i]; cbn [nth_error] in Hn.
    + injection Hn as <- <- _ _ _. lia.
    + destruct (IH _ H _ _ _ _ _ _ Hn) as [-> ->]. lia.
Qed.

(** The lines that follow a key poll are at the rows 0, 1, 2, ... *)
Lemma rows_from_top_nth ln pre k lines post :
  rows_from_top ln (pre ++ Egetch k :: lines ++ post) ->
  Forall (fun e => is_addstr e = true) lines ->
  forall i y x s a ok,
    nth_error lines i = Some (Eaddstr y x s a ok) -> y = Z.of_nat i /\ x = 0.
Proof.
  intros H Hl.
  assert (H0 : rows_from_top 0 (lines ++ post)).
  { clear Hl. revert ln H. induction pre as [|e pre IH]; intros ln H.
    - exact H.
    - destruct e; cbn [app rows_from_top] in H; try exact (IH _ H).
      destruct H as (_ & _ & H). exact (IH _ H). }
  intros i y x s a ok Hn.
  exact (rows_from_top_lines 0 lines post Hl H0 _ _ _ _ _ _ Hn).
Qed.

Section Composition.

Context {A B : Type}.

Lemma tracking_bind (m : M A) (f : A -> M B) :
  tracking m -> (forall a, tracking (f a)) -> tracking (m ≫= f).
Proof.
  intros Hm Hf st r st' out H.
  apply bind_inv in H as [(a & st1 & o1 & o2 & H1 & H2 & ->)|[[H1 ->]|(e & H1 & ->)]].
  - destruct (Hm _ _ _ _ H1) as [R1 L1]. specialize (L1 a eq_refl).
    destruct (Hf _ _ _ _ _ H2) as [R2 L2]. rewrite L1 in R2, L2. split.
    + apply rows_from_app; assumption.
    + intros b Hb. rewrite (L2 b Hb), count_if_app. lia.
  - split; [exact (proj1 (Hm _ _ _ _ H1)) | discriminate].
  - split; [exact (proj1 (Hm _ _ _ _ H1)) | discriminate].
Qed.

Lemma writes_bind n k (m : M A) (f : A -> M B) :
  writes n m -> (forall a, writes k (f a)) -> writes (n + k) (m ≫= f).
Proof.
  intros Hm Hf st b st' out H.
  apply bind_ok_inv in H as (a & st1 & o1 & o2 & H1 & H2 & ->).
  destruct (Hm _ _ _ _ H1) as [<- F1]. destruct (Hf _ _ _ _ _ H2) as [<- F2].
  split; [apply length_app | apply Forall_app; split; assumption].
Qed.

Lemma writes_lift_then k (x : result A) (f : A -> M B) :
  (forall a, x = Ok a -> writes k (f a)) -> writes k (lift x ≫= f).
Proof.
  intros Hf st b st' out H.
  apply bind_ok_inv in H as (a & st1 & o1 & o2 & H1 & H2 & ->).
  apply lift_ok_inv in H1 as (Hx & -> & ->). exact (Hf _ Hx _ _ _ _ H2).
Qed.

Lemma raises_only_bind P (m : M A) (f : A -> M B) :
  raises_only P m -> (forall a, raises_only P (f a)) -> raises_only P (m ≫= f).
Proof.
  intros Hm Hf st r st' out H.
  apply bind_inv in H as [(a & st1 & o1 & o2 & H1 & H2 & ->)|[[H1 ->]|(e & H1 & ->)]].
  - exact (Hf _ _ _ _ _ H2).
  - exact (Hm _ _ _ _ H1).
  - exact (Hm _ _ _ _ H1).
Qed.

Lemma logs_bind P (m : M A) (f : A -> M B) :
  logs P m -> (forall a, logs P (f a)) -> logs P (m ≫= f).
Proof.
  intros Hm Hf st r st' out H.
  apply bind_inv in H as [(a & st1 & o1 & o2 & H1 & H2 & ->)|[[H1 _]|(e & H1 & _)]].
  - apply Forall_app. split; [exact (Hm _ _ _ _ H1) | exact (Hf _ _ _ _ _ H2)].
  - exact (Hm _ _ _ _ H1).
  - exact (Hm _ _ _ _ H1).
Qed.

End Composition.

Lemma raises_only_weaken {A} (P Q : exn -> Prop) (m : M A) :
  raises_only P m -> (forall e, P e -> Q e) -> raises_only Q m.
Proof.
  intros Hm HPQ st r st' out H. specialize (Hm _ _ _ _ H).
  destruct r; [exact I | exact (HPQ _ Hm) | exact Hm].
Qed.

(** A step that leaves the cursor alone and writes no line. *)
Lemma tracking_still {A} (m : M A) :
  (forall st r st' out,
      m st = (r, st', out) ->
      lineno st' = lineno st /\ Forall (fun e => is_addstr e = false) out) ->
  tracking m.
Proof.
  intros Hm st r st' out H. destruct (Hm _ _ _ _ H) as [Hl Ho].
  destruct (rows_from_silent (lineno st) _ Ho) as [Hr Hn].
  split; [exact Hr|]. intros _ _. rewrite Hl, Hn. lia.
Qed.

Lemma tracking_ret {A} (a : A) : tracking (mret a).
Proof. apply tracking_still. intros st r st' out [= <- <- <-]. auto. Qed.

Lemma tracking_lift {A} (x : result A) : tracking (lift x).
Proof. apply tracking_still. intros st r st' out [= <- <- <-]. auto. Qed.

Lemma tracking_check_signals : tracking check_signals.
Proof.
  apply tracking_still. intros st r st' out H. unfold check_signals in H.
  destruct (sigint st) as [[|k]|]; injection H as <- <- <-; auto.
Qed.

Lemma tracking_emit e : is_addstr e = false -> tracking (emit e).
Proof.
  intros He. apply tracking_still. intros st r st' out [= <- <- <-]. auto.
Qed.

Lemma tracking_for_each {A} (l : list A) body :
  (forall x, tracking (body x)) -> tracking (for_each l body).
Proof.
  intros Hb. induction l as [|x l IH]; cbn [for_each].
  - apply tracking_ret.
  - apply tracking_bind; [apply Hb | intros _; exact IH].
Qed.

Lemma writes_ret {A} (a : A) : writes 0 (mret a).
Proof. intros st b st' out [= <- <- <-]. split; [reflexivity | constructor]. Qed.

Lemma writes_for_each {A} (h : A -> nat) (l : list A) body :
  (forall x, writes (h x) (body x)) ->
  writes (list_sum (map h l)) (for_each l body).
Proof.
  intros Hb. induction l as [|x l IH]; cbn [for_each map list_sum].
  - apply writes_ret.
  - apply writes_bind; [apply Hb | intros _; exact IH].
Qed.

Lemma list_sum_ones {A} (l : list A) : list_sum (map (fun _ => 1%nat) l) = length l.
Proof. induction l as [|x l IH]; [reflexivity|]. simpl. f_equal. exact IH. Qed.

Lemma raises_only_ret {A} P (a : A) : raises_only P (mret a).
Proof. intros st r st' out [= <- _ _]. exact I. Qed.

Lemma raises_only_for_each {A} P (l : list A) body :
  (forall x, In x l -> raises_only P (body x)) -> raises_only P (for_each l body).
Proof.
  intros Hb. induction l as [|x l IH]; cbn [for_each].
  - apply raises_only_ret.
  - apply raises_only_bind; [apply Hb; left; reflexivity | intros _].
    apply IH. intros y Hy. apply Hb. right. exact Hy.
Qed.

(** A missing key is the one error of a lookup. *)
Lemma raises_only_getitem {V} (d : gmap string V) k :
  raises_only (fun e => e = KeyError k /\ d !! k = None) (lift (getitem d k)).
Proof.
  intros st r st' out. unfold lift, getitem.
  destruct (d !! k); intros [= <- _ _]; [exact I | auto].
Qed.

Lemma raises_only_get_dashes p :
  raises_only (fun e => e = OverflowError) (lift (get_dashes p)).
Proof.
  intros st r st' out. unfold lift. intros [= <- _ _].
  pose proof (get_dashes_plain p) as Hp. pose proof (get_dashes_raises p) as Hr.
  destruct (get_dashes p); [exact I | now apply Hr | exact Hp].
Qed.

(** A step that raises nothing but the interrupt. *)
Lemma raises_only_signal {A} (m : M A) :
  (forall st r st' out,
      m st = (r, st', out) -> r = Raise KeyboardInterrupt \/ exists a, r = Ok a) ->
  raises_only (fun e => e = KeyboardInterrupt) m.
Proof.
  intros Hm st r st' out H.
  destruct (Hm _ _ _ _ H) as [->|[a ->]]; [reflexivity | exact I].
Qed.

Lemma logs_ret {A} P (a : A) : logs P (mret a).
Proof. intros st r st' out [= <- <- <-]. constructor. Qed.

Lemma logs_lift {A} P (x : result A) : logs P (lift x).
Proof. intros st r st' out [= <- <- <-]. constructor. Qed.

Lemma logs_for_each {A} P (l : list A) body :
  (forall x, logs P (body x)) -> logs P (for_each l body).
Proof.
  intros Hb. induction l as [|x l IH]; cbn [for_each].
  - apply logs_ret.
  - apply logs_bind; [apply Hb | intros _; exact IH].
Qed.

Lemma unflushed_bind {A B} (m : M A) (f : A -> M B) :
  unflushed m -> (forall a, unflushed (f a)) -> unflushed (m ≫= f).
Proof.
  intros Hm Hf st r st' out H.
  apply bind_inv in H as [(a & st1 & o1 & o2 & H1 & H2 & ->)|[[H1 ->]|(e & H1 & ->)]].
  - destruct (Hm _ _ _ _ H1) as [N1|[E _]]; [|discriminate E].
    destruct (Hf _ _ _ _ _ H2) as [N2|(-> & pre & -> & N2)].
    + left. apply Forall_app. split; assumption.
    + right. split; [reflexivity|]. exists (o1 ++ pre).
      rewrite app_assoc. split; [reflexivity|]. apply Forall_app. split; assumption.
  - destruct (Hm _ _ _ _ H1) as [N|[E _]]; [now left | discriminate E].
  - destruct (Hm _ _ _ _ H1) as [N|[E P]]; [now left|].
    injection E as ->. right. split; [reflexivity | exact P].
Qed.

Lemma unflushed_silent {A} (m : M A) :
  (forall st r st' out, m st = (r, st', out) -> out = []) -> unflushed m.
Proof. intros Hm st r st' out H. left. rewrite (Hm _ _ _ _ H). constructor. Qed.

Lemma unflushed_ret {A} (a : A) : unflushed (mret a).
Proof. apply unflushed_silent. now intros st r st' out [= _ _ <-]. Qed.

Lemma unflushed_lift {A} (x : result A) : unflushed (lift x).
Proof. apply unflushed_silent. now intros st r st' out [= _ _ <-]. Qed.

Lemma unflushed_for_each {A} (l : list A) body :
  (forall x, unflushed (body x)) -> unflushed (for_each l body).
Proof.
  intros Hb. induction l as [|x l IH]; cbn [for_each].
  - apply unflushed_ret.
  - apply unflushed_bind; [apply Hb | intros _; exact IH].
Qed.

(** The keys of [colors_map]. *)
Lemma colors_map_values color n :
  colors_map !! color = Some n ->
  (color = "green"%string /\ n = 35) \/ (color = "red"%string /\ n = 10)
  \/ (color = "blue"%string /\ n = 5).
Proof.
  unfold colors_map. rewrite !lookup_insert_Some, lookup_empty.
  intuition (subst; auto; discriminate).
Qed.

Lemma colors_map_missing color :
  colors_map !! color = None
  <-> color <> "green"%string /\ color <> "red"%string /\ color <> "blue"%string.
Proof.
  unfold colors_map. rewrite !lookup_insert_None. intuition auto.
Qed.

(** ** The script *)

Section ScriptProperties.

Variable bytes2human : Z -> string.
Variable COLORS : Z.
Variable addstr_ok : Z -> Z -> string -> Z -> bool.
Variables AF_INET AF_INET6 AF_LINK : Z.

Abbreviation win_addstr := (Script.win_addstr addstr_ok).
Abbreviation printl := (Script.printl addstr_ok).
Abbreviation print_title := (Script.print_title addstr_ok).
Abbreviation iface_interface := (Script.iface_interface addstr_ok).
Abbreviation iface_levels := (Script.iface_levels addstr_ok).
Abbreviation iface_statistics := (Script.iface_statistics bytes2human addstr_ok).
Abbreviation iface_info := (Script.iface_info addstr_ok).
Abbreviation family_label := (Script.family_label AF_INET AF_INET6 AF_LINK).
Abbreviation print_addr := (Script.print_addr addstr_ok AF_INET AF_INET6 AF_LINK).
Abbreviation iface_addresses := (Script.iface_addresses addstr_ok AF_INET AF_INET6 AF_LINK).
Abbreviation refresh_iface :=
  (Script.refresh_iface bytes2human addstr_ok AF_INET AF_INET6 AF_LINK).
Abbreviation refresh_window :=
  (Script.refresh_window bytes2human addstr_ok AF_INET AF_INET6 AF_LINK).
Abbreviation loop_body := (Script.loop_body bytes2human addstr_ok AF_INET AF_INET6 AF_LINK).
Abbreviation while_true := (Script.while_true bytes2human addstr_ok AF_INET AF_INET6 AF_LINK).
Abbreviation guarded_loop :=
  (Script.guarded_loop bytes2human addstr_ok AF_INET AF_INET6 AF_LINK).
Abbreviation main := (Script.main bytes2human COLORS addstr_ok AF_INET AF_INET6 AF_LINK).
Abbreviation script := (Script.script bytes2human COLORS addstr_ok AF_INET AF_INET6 AF_LINK).
Abbreviation run := (run bytes2human COLORS addstr_ok AF_INET AF_INET6 AF_LINK).

Lemma printl_flags_plain color bold underline :
  match printl_flags color bold underline with
  | Ok _ => True
  | Raise e => plain_error e = true
  | Diverge => False
  end.
Proof.
  unfold printl_flags. destruct color as [[|c s]|]; try exact I.
  pose proof (getitem_plain colors_map (String c s)) as H.
  destruct (getitem colors_map (String c s)); [exact I | exact H | exact H].
Qed.

(** What [printl] does when no interrupt is pending. *)
Lemma printl_run line color bold underline flags ln :
  printl_flags color bold underline = Ok flags ->
  printl line color bold underline {| lineno := ln; sigint := None |} =
  if addstr_ok ln 0 line flags
  then (Ok tt, {| lineno := ln + 1; sigint := None |},
        [Eaddstr ln 0 line flags true])
  else (Raise CursesError, {| lineno := 0; sigint := None |},
        [Eaddstr ln 0 line flags false; Erefresh]).
Proof.
  intros Hf. unfold printl, Script.printl, try_except_else.
  rewrite bind_run. unfold lift at 1. rewrite Hf.
  rewrite bind_run. unfold get_lineno at 1. cbn [lineno].
  unfold Script.win_addstr. rewrite bind_run. unfold check_signals at 1. cbn [sigint].
  destruct (addstr_ok ln 0 line flags); reflexivity.
Qed.

Lemma printl_run_error line color bold underline e st :
  printl_flags color bold underline = Raise e ->
  printl line color bold underline st = (Raise e, st, []).
Proof.
  intros Hf. pose proof (printl_flags_plain color bold underline) as Hp.
  rewrite Hf in Hp.
  unfold printl, Script.printl, try_except_else.
  rewrite bind_run. unfold lift at 1. rewrite Hf.
  destruct e; try discriminate Hp; reflexivity.
Qed.

Lemma steady_printl line color bold underline :
  steady (printl line color bold underline).
Proof.
  intros [ln sg] r st' out Hs H. cbn [sigint] in Hs. subst sg.
  pose proof (printl_flags_plain color bold underline) as Hp.
  destruct (printl_flags color bold underline) as [flags|e|] eqn:Ef;
    [|rewrite (printl_run_error _ _ _ _ _ _ Ef) in H|contradiction].
  - rewrite (printl_run _ _ _ _ _ _ Ef) in H.
    destruct (addstr_ok ln 0 line flags); injection H as <- <- <-.
    + split; [reflexivity|]. repeat constructor.
    + split; [reflexivity|]. split; [reflexivity|].
      exists [], ln, 0, line, flags. split; [reflexivity | constructor].
  - injection H as <- <- <-. split; [reflexivity|].
    destruct e; try discriminate Hp; (split; [reflexivity | constructor]).
Qed.

#[local] Hint Resolve quiet_ret quiet_raise quiet_lift quiet_diverge
  quiet_get_lineno quiet_set_lineno quiet_check_signals : quiet.
#[local] Hint Resolve interruptible_ret interruptible_raise interruptible_lift
  interruptible_diverge interruptible_get_lineno interruptible_set_lineno
  interruptible_emit interruptible_check_signals : interruptible.
#[local] Hint Resolve steady_ret steady_set_lineno steady_check_signals
  steady_printl : steady.

Lemma quiet_win_addstr y x s a : quiet (win_addstr y x s a).
Proof.
  unfold Script.win_addstr. apply quiet_bind; [auto with quiet | intros _].
  destruct (addstr_ok y x s a); [apply quiet_emit; reflexivity|].
  apply quiet_bind; [apply quiet_emit; reflexivity | auto with quiet].
Qed.

Lemma quiet_win_refresh : quiet win_refresh.
Proof.
  unfold win_refresh. apply quiet_bind; [auto with quiet | intros _].
  apply quiet_emit; reflexivity.
Qed.

Lemma quiet_printl line color bold underline :
  quiet (printl line color bold underline).
Proof.
  unfold Script.printl. apply quiet_try_except_else; intros;
    structural @quiet_bind
      ltac:(auto using quiet_win_addstr, quiet_win_refresh with quiet).
Qed.

Lemma interruptible_win_addstr y x s a : interruptible (win_addstr y x s a).
Proof.
  unfold Script.win_addstr.
  apply interruptible_bind; [auto with interruptible | intros _].
  destruct (addstr_ok y x s a); [auto with interruptible|].
  apply interruptible_bind; auto with interruptible.
Qed.

Lemma interruptible_win_refresh : interruptible win_refresh.
Proof. unfold win_refresh. apply interruptible_bind; auto with interruptible. Qed.

Lemma interruptible_printl line color bold underline :
  interruptible (printl line color bold underline).
Proof.
  unfold Script.printl.
  apply interruptible_try_except_else; [reflexivity | ..]; intros;
    structural @interruptible_bind
      ltac:(auto using interruptible_win_addstr, interruptible_win_refresh
              with interruptible).
Qed.

Lemma steady_win_refresh : steady win_refresh.
Proof.
  unfold win_refresh. apply steady_bind; [auto with steady | intros _].
  apply steady_emit; reflexivity.
Qed.

#[local] Hint Resolve quiet_printl quiet_win_refresh : quiet.
#[local] Hint Resolve interruptible_printl interruptible_win_refresh : interruptible.
#[local] Hint Resolve steady_win_refresh : steady.
#[local] Hint Extern 1 (steady (lift (get_dashes _))) =>
  apply steady_lift, get_dashes_plain : steady.
#[local] Hint Extern 1 (steady (lift (getitem _ _))) =>
  apply steady_lift, getitem_plain : steady.

(** The three properties hold of the body of the loop over the interfaces,
    of [refresh_window] and of the turns of the refresh loop. *)
Ltac by_structure L leaf :=
  unfold Script.refresh_window, Script.refresh_iface, Script.iface_interface,
    Script.iface_levels, Script.iface_statistics, Script.iface_info,
    Script.iface_addresses, Script.print_addr, Script.print_title;
  structural L leaf.

Lemma quiet_refresh_iface s entry : quiet (refresh_iface s entry).
Proof.
  destruct entry as [ifname info].
  by_structure @quiet_bind ltac:(auto using quiet_for_each with quiet).
Qed.

Lemma quiet_refresh_window s : quiet (refresh_window s).
Proof.
  unfold Script.refresh_window.
  structural @quiet_bind
    ltac:(auto using quiet_for_each, quiet_refresh_iface with quiet).
Qed.

Lemma interruptible_refresh_iface s entry : interruptible (refresh_iface s entry).
Proof.
  destruct entry as [ifname info].
  by_structure @interruptible_bind
    ltac:(auto using interruptible_for_each with interruptible).
Qed.

Lemma interruptible_refresh_window s : interruptible (refresh_window s).
Proof.
  unfold Script.refresh_window.
  structural @interruptible_bind
    ltac:(auto using interruptible_for_each, interruptible_refresh_iface
            with interruptible).
Qed.

Lemma steady_refresh_iface s entry : steady (refresh_iface s entry).
Proof.
  destruct entry as [ifname info].
  by_structure @steady_bind ltac:(auto using steady_for_each with steady).
Qed.

Lemma steady_refresh_window s : steady (refresh_window s).
Proof.
  unfold Script.refresh_window.
  structural @steady_bind
    ltac:(auto using steady_for_each, steady_refresh_iface with steady).
Qed.

Lemma quiet_loop_body c : quiet (loop_body c).
Proof.
  unfold Script.loop_body, win_getch, time_sleep.
  apply quiet_bind; [|intros k; destruct (k =? Py.ord "q")];
    structural @quiet_bind
      ltac:(auto using quiet_refresh_window, quiet_emit with quiet).
Qed.

Lemma quiet_while_true cycles : quiet (while_true cycles).
Proof.
  induction cycles as [|c rest IH]; cbn [Script.while_true]; [auto with quiet|].
  apply quiet_bind; [apply quiet_loop_body | intros [|]; auto with quiet].
Qed.

Lemma interruptible_loop_body c : interruptible (loop_body c).
Proof.
  unfold Script.loop_body, win_getch, time_sleep.
  apply interruptible_bind; [|intros k; destruct (k =? Py.ord "q")];
    structural @interruptible_bind
      ltac:(auto using interruptible_refresh_window with interruptible).
Qed.

Lemma interruptible_while_true cycles : interruptible (while_true cycles).
Proof.
  induction cycles as [|c rest IH]; cbn [Script.while_true];
    [auto with interruptible|].
  apply interruptible_bind;
    [apply interruptible_loop_body | intros [|]; auto with interruptible].
Qed.

(** *** [setup], [tear_down] and the [try] statement of [main] *)

Lemma setup_run st : setup COLORS st = (Ok tt, st, setup_log COLORS).
Proof.
  unfold setup. rewrite !emit_then, bind_run, for_each_emit, emit_then.
  reflexivity.
Qed.

Lemma tear_down_run st : tear_down st = (Ok tt, st, tear_down_log).
Proof. reflexivity. Qed.

(** The [try] statement runs [tear_down] however the loop is left, swallows
    an interrupt and lets every other exception through. *)
Lemma guarded_loop_run cycles st r st1 out1 :
  while_true cycles st = (r, st1, out1) ->
  guarded_loop cycles st =
  match r with
  | Ok _ => (Ok tt, st1, out1 ++ tear_down_log)
  | Raise e =>
      (if is_interrupt_or_exit e then Ok tt else Raise e, st1, out1 ++ tear_down_log)
  | Diverge => (Diverge, st1, out1)
  end.
Proof.
  intros H. unfold Script.guarded_loop, try_finally, try_except, try_except_else.
  rewrite H. destruct r as [[]|e|]; [| |reflexivity].
  - cbn. now rewrite app_nil_r.
  - destruct (is_interrupt_or_exit e); cbn; [now rewrite app_nil_r | reflexivity].
Qed.

(** The whole script on a host with curses and at least one interface. *)
Lemma script_run h cycles interrupt entry entries r st1 out1 :
  has_curses h = true ->
  startup_wifi_ifaces h = Some (entry :: entries) ->
  guarded_loop cycles {| lineno := 0; sigint := interrupt |} = (r, st1, out1) ->
  run h interrupt cycles = (outcome_of r, st1, Einitscr :: setup_log COLORS ++ out1).
Proof.
  intros Hc Hw Hg. unfold run, Script.script, Script.main. rewrite Hc, Hw.
  rewrite ret_then, emit_then, set_lineno_then.
  rewrite (bind_ok_run _ _ _ _ _ _ (setup_run _)). cbn [sigint].
  rewrite Hg. reflexivity.
Qed.

Lemma steady_loop_body c : steady (loop_body c).
Proof.
  unfold Script.loop_body, win_getch, time_sleep.
  apply steady_bind; [|intros k; destruct (k =? Py.ord "q")];
    structural @steady_bind
      ltac:(auto using steady_refresh_window, steady_emit with steady).
Qed.

Lemma steady_while_true cycles : steady (while_true cycles).
Proof.
  induction cycles as [|c rest IH]; cbn [Script.while_true].
  - intros st r st' out Hs [= <- <- <-]. split; [exact Hs | constructor].
  - apply steady_bind; [apply steady_loop_body | intros [|]; auto with steady].
Qed.

Lemma setup_log_no_teardown :
  Forall (fun e => teardown_event e = false) (setup_log COLORS).
Proof.
  unfold setup_log. repeat constructor. apply Forall_app. split.
  - apply List.Forall_forall. intros e He. apply in_map_iff in He as (i & <- & _).
    reflexivity.
  - repeat constructor.
Qed.

Lemma loop_log_no_teardown cycles st r st1 out1 :
  while_true cycles st = (r, st1, out1) ->
  Forall (fun e => teardown_event e = false) (Einitscr :: setup_log COLORS ++ out1).
Proof.
  intros H. constructor; [reflexivity|]. apply Forall_app.
  split; [apply setup_log_no_teardown|].
  apply (List.Forall_impl (P := fun e => loop_event e = true));
    [|exact (quiet_while_true _ _ _ _ _ H)].
  intros [] He; try discriminate He; reflexivity.
Qed.

Lemma log_assoc (e : event) (a b c : list event) :
  (e :: a ++ b) ++ c = e :: a ++ b ++ c.
Proof. cbn. now rewrite <- app_assoc. Qed.

(** *** Startup *)

(** C3, as the code has it.  When curses is there and psutil reports no
    wireless interface, the process exits with status 1 and the message
    "no Wi-Fi interfaces installed" before [setup] and before the first
    turn of the loop: nothing is written to the window and nothing is
    refreshed.  The log holds the one call made when the module is loaded,
    [curses.initscr()]. *)
Theorem no_interfaces_exit h interrupt cycles :
  has_curses h = true ->
  startup_wifi_ifaces h = Some [] ->
  run h interrupt cycles =
    (Exited 1 (Some (SystemExit "no Wi-Fi interfaces installed")),
     {| lineno := 0; sigint := interrupt |},
     [Einitscr]).
Proof.
  intros Hc Hw. unfold run, Script.script, Script.main. rewrite Hc, Hw. reflexivity.
Qed.

(** *** Leaving the loop *)

(** C4.  However the refresh loop is left (by the quit key, by an interrupt
    or by an exception of the renderer), [tear_down] runs: the log of the
    run ends with its four calls, and they are made only there. *)
Theorem teardown_on_every_exit h interrupt cycles entry entries r st1 out1 :
  has_curses h = true ->
  startup_wifi_ifaces h = Some (entry :: entries) ->
  while_true cycles {| lineno := 0; sigint := interrupt |} = (r, st1, out1) ->
  r <> Diverge ->
  exists o,
    run h interrupt cycles =
      (o, st1, (Einitscr :: setup_log COLORS ++ out1) ++ tear_down_log)
    /\ o <> Running
    /\ Forall (fun e => teardown_event e = false)
         (Einitscr :: setup_log COLORS ++ out1)
    /\ (r = Ok tt -> o = Exited 0 None)
    /\ (r = Raise KeyboardInterrupt -> o = Exited 0 None)
    /\ (forall e, r = Raise e -> is_interrupt_or_exit e = false ->
          o = Exited 1 (Some e)).
Proof.
  intros Hc Hw Hl Hr. pose proof (guarded_loop_run _ _ _ _ _ Hl) as Hg.
  pose proof (loop_log_no_teardown _ _ _ _ _ Hl) as Hq.
  destruct r as [[]|e|]; [| |contradiction].
  - exists (Exited 0 None).
    rewrite (script_run _ _ _ _ _ _ _ _ Hc Hw Hg).
    cbn [outcome_of]. rewrite log_assoc.
    repeat split; try assumption; try discriminate.
  - destruct (is_interrupt_or_exit e) eqn:Ee.
    + exists (Exited 0 None).
      rewrite (script_run _ _ _ _ _ _ _ _ Hc Hw Hg).
      cbn [outcome_of]. rewrite log_assoc.
      repeat split; try assumption; try discriminate.
      intros e' [= <-] He'. congruence.
    + exists (Exited 1 (Some e)).
      rewrite (script_run _ _ _ _ _ _ _ _ Hc Hw Hg).
      rewrite log_assoc.
      repeat split; try assumption; try discriminate.
      * destruct e; try discriminate Ee; reflexivity.
      * intros [= ->]. discriminate Ee.
      * intros e' [= <-] _. reflexivity.
Qed.

(** A turn whose key is not the quit key renders, resets the cursor,
    sleeps and goes on. *)
Lemma loop_body_other_key c st :
  key c <> Py.ord "q" ->
  loop_body c st =
  (win_getch (key c);; refresh_window (snap c);; set_lineno 0;;
   time_sleep INTERVAL_ms;; mret false) st.
Proof.
  intros Hk. apply Z.eqb_neq in Hk. unfold Script.loop_body.
  etransitivity; [apply bind_run|]. symmetry. etransitivity; [apply bind_run|].
  destruct (win_getch (key c) st) as [[[k|e|] st1] o1] eqn:E; [|reflexivity ..].
  replace k with (key c); [now rewrite Hk|].
  destruct st as [ln [[|n]|]]; unfold win_getch, mbind, M_bind in E; cbn in E;
    congruence.
Qed.

Lemma loop_body_break c st st' out :
  loop_body c st = (Ok true, st', out) -> key c = Py.ord "q".
Proof.
  intros H. destruct (Z.eq_dec (key c) (Py.ord "q")) as [Hk|Hk]; [exact Hk|].
  exfalso. rewrite (loop_body_other_key _ _ Hk) in H.
  repeat (apply bind_ok_inv in H as (? & ? & ? & ? & _ & H & _)).
  discriminate H.
Qed.

(** The loop returns only through the quit key. *)
Lemma while_true_quit cycles st st' out :
  while_true cycles st = (Ok tt, st', out) ->
  Exists (fun c => key c = Py.ord "q") cycles.
Proof.
  revert st out. induction cycles as [|c rest IH]; intros st out H.
  - discriminate H.
  - cbn [Script.while_true] in H.
    apply bind_ok_inv in H as ([|] & st1 & o1 & o2 & Hb & H & _).
    + apply Exists_cons_hd. exact (loop_body_break _ _ _ _ Hb).
    + apply Exists_cons_tl. exact (IH _ _ H).
Qed.

(** C6.  The quit key ends the loop at once, before anything is drawn, and
    the loop returns in no other way; any other key never ends it, and the
    turn renders, resets the cursor and sleeps; a delivered interrupt leaves
    the loop as [KeyboardInterrupt].  Both ways of leaving end the same:
    [tear_down] runs once, at the end of the log, nothing is reported and the
    exit status is 0. *)
Theorem quit_and_interrupt_exit_cleanly :
  (forall c rest st,
      key c = Py.ord "q" -> sigint st <> Some O ->
      exists st', while_true (c :: rest) st = (Ok tt, st', [Egetch (key c)]))
  /\ (forall cycles st st' out,
        while_true cycles st = (Ok tt, st', out) ->
        Exists (fun c => key c = Py.ord "q") cycles)
  /\ (forall c st r st' out,
        key c <> Py.ord "q" ->
        loop_body c st = (r, st', out) ->
        r <> Ok true
        /\ loop_body c st =
           (win_getch (key c);; refresh_window (snap c);; set_lineno 0;;
            time_sleep INTERVAL_ms;; mret false) st)
  /\ (forall cycles st r st' out,
        while_true cycles st = (r, st', out) ->
        sigint st <> None -> sigint st' = None ->
        r = Raise KeyboardInterrupt)
  /\ (forall h interrupt cycles entry entries r st1 out1,
        has_curses h = true ->
        startup_wifi_ifaces h = Some (entry :: entries) ->
        while_true cycles {| lineno := 0; sigint := interrupt |} = (r, st1, out1) ->
        r = Ok tt \/ r = Raise KeyboardInterrupt ->
        run h interrupt cycles =
          (Exited 0 None, st1,
           (Einitscr :: setup_log COLORS ++ out1) ++ tear_down_log)
        /\ Forall (fun e => teardown_event e = false)
             (Einitscr :: setup_log COLORS ++ out1)).
Proof.
  split; [|split; [|split; [|split]]].
  - intros c rest [ln sg] Hk Hs. cbn [sigint] in Hs.
    cbn [Script.while_true]. unfold Script.loop_body, win_getch. rewrite Hk.
    destruct sg as [[|k]|]; [contradiction | eexists; reflexivity ..].
  - exact while_true_quit.
  - intros c st r st' out Hk H. split; [|apply loop_body_other_key, Hk].
    intros ->. exact (Hk (loop_body_break _ _ _ _ H)).
  - intros cycles st r st' out H. exact (interruptible_while_true _ _ _ _ _ H).
  - intros h interrupt cycles entry entries r st1 out1 Hc Hw Hl Hr.
    split; [|exact (loop_log_no_teardown _ _ _ _ _ Hl)].
    pose proof (guarded_loop_run _ _ _ _ _ Hl) as Hg.
    rewrite log_assoc.
    destruct Hr as [-> | ->]; exact (script_run _ _ _ _ _ _ _ _ Hc Hw Hg).
Qed.

(** *** Rendering *)

(** C5.  With no interrupt pending, a line the terminal refuses makes
    [printl] put the line cursor back to 0, refresh the window and raise
    [curses.error] again; a line it accepts moves the cursor down by exactly
    one.  The error is not swallowed on the way up: [refresh_window] fails
    with it, and so does the process, after [tear_down]. *)
Theorem printl_overflow :
  (forall line color bold underline flags ln,
      printl_flags color bold underline = Ok flags ->
      addstr_ok ln 0 line flags = false ->
      printl line color bold underline {| lineno := ln; sigint := None |} =
        (Raise CursesError, {| lineno := 0; sigint := None |},
         [Eaddstr ln 0 line flags false; Erefresh]))
  /\ (forall line color bold underline flags ln,
        printl_flags color bold underline = Ok flags ->
        addstr_ok ln 0 line flags = true ->
        printl line color bold underline {| lineno := ln; sigint := None |} =
          (Ok tt, {| lineno := ln + 1; sigint := None |},
           [Eaddstr ln 0 line flags true]))
  /\ (forall s st r st' out,
        sigint st = None ->
        refresh_window s st = (r, st', out) ->
        Exists (fun e => failed_addstr e = true) out ->
        r = Raise CursesError
        /\ lineno st' = 0
        /\ exists pre y x line a, out = pre ++ [Eaddstr y x line a false; Erefresh])
  /\ (forall h cycles entry entries r st1 out1,
        has_curses h = true ->
        startup_wifi_ifaces h = Some (entry :: entries) ->
        while_true cycles {| lineno := 0; sigint := None |} = (r, st1, out1) ->
        Exists (fun e => failed_addstr e = true) out1 ->
        run h None cycles =
          (Exited 1 (Some CursesError), st1,
           (Einitscr :: setup_log COLORS ++ out1) ++ tear_down_log)).
Proof.
  split; [|split; [|split]].
  - intros line color bold underline flags ln Hf Ha.
    rewrite (printl_run _ _ _ _ _ _ Hf), Ha. reflexivity.
  - intros line color bold underline flags ln Hf Ha.
    rewrite (printl_run _ _ _ _ _ _ Hf), Ha. reflexivity.
  - intros s st r st' out Hs H Hex.
    exact (steady_failed _ _ _ _ _ (steady_refresh_window s) Hs H Hex).
  - intros h cycles entry entries r st1 out1 Hc Hw Hl Hex.
    destruct (steady_failed (while_true cycles) {| lineno := 0; sigint := None |}
                _ _ _ (steady_while_true cycles) eq_refl Hl Hex)
      as (-> & _ & _).
    pose proof (guarded_loop_run _ _ _ _ _ Hl) as Hg. rewrite log_assoc.
    exact (script_run _ _ _ _ _ _ _ _ Hc Hw Hg).
Qed.

(** *** Two refresh cycles *)

Lemma getch_then {A} k (f : Z -> M A) ln :
  (win_getch k ≫= f) {| lineno := ln; sigint := None |} =
  let '(r, st', out) := f k {| lineno := ln; sigint := None |} in
  (r, st', Egetch k :: out).
Proof.
  rewrite bind_run.
  change (win_getch k {| lineno := ln; sigint := None |})
    with (Ok k, {| lineno := ln; sigint := None |}, [Egetch k]).
  cbv iota. destruct (f k _) as [[r st'] out]. reflexivity.
Qed.

Lemma loop_body_quit c ln :
  key c = Py.ord "q" ->
  loop_body c {| lineno := ln; sigint := None |} =
    (Ok true, {| lineno := ln; sigint := None |}, [Egetch (key c)]).
Proof. intros Hk. unfold Script.loop_body. rewrite getch_then, Hk. reflexivity. Qed.

(** A turn with another key, in terms of what [refresh_window] does. *)
Lemma loop_body_run c ln :
  key c <> Py.ord "q" ->
  loop_body c {| lineno := ln; sigint := None |} =
  match refresh_window (snap c) {| lineno := ln; sigint := None |} with
  | (Ok _, st_r, rendered) =>
      (Ok false, {| lineno := 0; sigint := None |},
       Egetch (key c) :: rendered ++ [Esleep INTERVAL_ms])
  | (Raise e, st_r, rendered) => (Raise e, st_r, Egetch (key c) :: rendered)
  | (Diverge, st_r, rendered) => (Diverge, st_r, Egetch (key c) :: rendered)
  end.
Proof.
  intros Hk. rewrite (loop_body_other_key _ _ Hk), getch_then, bind_run.
  destruct (refresh_window (snap c) _) as [[[[]|e|] st_r] rendered] eqn:E;
    [|reflexivity ..].
  destruct (steady_refresh_window _ {| lineno := ln; sigint := None |}
              _ _ _ eq_refl E) as [Hs _].
  rewrite set_lineno_then, Hs. reflexivity.
Qed.

(** C7.  Two consecutive refresh cycles on the same snapshot write the same
    lines with the same attributes at the same positions: the first one
    leaves the line cursor at 0, where it started, so the second one starts
    from the same state. *)
Theorem refresh_cycles_identical c1 c2 st st1 out1 :
  lineno st = 0 -> sigint st = None ->
  snap c1 = snap c2 -> key c2 <> Py.ord "q" ->
  loop_body c1 st = (Ok false, st1, out1) ->
  exists rendered st_r,
    refresh_window (snap c1) st = (Ok tt, st_r, rendered)
    /\ out1 = Egetch (key c1) :: rendered ++ [Esleep INTERVAL_ms]
    /\ st1 = st
    /\ loop_body c2 st1
       = (Ok false, st1, Egetch (key c2) :: rendered ++ [Esleep INTERVAL_ms])
    /\ while_true [c1; c2] st =
         (Diverge, st, out1 ++ Egetch (key c2) :: rendered ++ [Esleep INTERVAL_ms]).
Proof.
  destruct st as [ln sg]. cbn [lineno sigint]. intros -> -> Hsnap Hk2 H1.
  destruct (Z.eq_dec (key c1) (Py.ord "q")) as [Hk1|Hk1];
    [rewrite (loop_body_quit _ _ Hk1) in H1; discriminate H1|].
  pose proof (loop_body_run c2 0 Hk2) as H2. rewrite <- Hsnap in H2.
  assert (H1' := H1). rewrite (loop_body_run _ _ Hk1) in H1.
  destruct (refresh_window (snap c1) _) as [[[[]|e|] st_r] rendered] eqn:E;
    try discriminate H1.
  injection H1 as <- <-. exists rendered, st_r.
  repeat split; try assumption; try reflexivity.
  cbn [Script.while_true]. rewrite (bind_ok_run _ _ _ _ _ _ H1').
  cbv iota. rewrite (bind_ok_run _ _ _ _ _ _ H2).
  unfold diverge. rewrite app_nil_r. reflexivity.
Qed.

(** *** The bars and the address labels *)

(** A [printl] that returns has written its line at the cursor and moved
    the cursor down by one. *)
Lemma printl_ok_inv line color bold underline st st' out :
  printl line color bold underline st = (Ok tt, st', out) ->
  exists flags,
    printl_flags color bold underline = Ok flags
    /\ out = [Eaddstr (lineno st) 0 line flags true]
    /\ lineno st' = lineno st + 1.
Proof.
  unfold Script.printl, try_except_else. rewrite bind_run. unfold lift at 1.
  pose proof (printl_flags_plain color bold underline) as Hp.
  destruct (printl_flags color bold underline) as [flags|e|];
    [|destruct e; try discriminate Hp; discriminate|contradiction].
  intros H. exists flags. split; [reflexivity|]. revert H.
  rewrite bind_run. unfold get_lineno at 1. unfold Script.win_addstr.
  rewrite bind_run. unfold check_signals.
  destruct st as [ln [[|k]|]]; cbn [lineno sigint];
    destruct (addstr_ok ln 0 line flags); intros H;
    unfold win_refresh, check_signals, mbind, M_bind in H; cbn in H;
    try discriminate H; try (destruct k; discriminate H); inversion H; subst; auto.
Qed.

Lemma bar_flags p :
  printl_flags (Some (bar_color p)) true false =
  Ok (Z.lor (Z.lor 0 (Curses.color_pair (if p >=? 50 then 35 else 10)))
        Curses.A_BOLD).
Proof. unfold bar_color. destruct (p >=? 50); reflexivity. Qed.

(** C2.  The colour of a bar is green from 50 on, 50 included, and red
    below; the line of the bar is written with that colour pair and in bold,
    for the link quality (third line of the block) and for the signal level
    (fifth line). *)
Theorem bar_colour_and_bold :
  (forall p, (50 <= p -> bar_color p = "green"%string)
             /\ (p < 50 -> bar_color p = "red"%string))
  /\ bar_color 50 = "green"%string
  /\ colors_map !! "green"%string = Some 35
  /\ colors_map !! "red"%string = Some 10
  /\ (forall p flags,
        printl_flags (Some (bar_color p)) true false = Ok flags ->
        Curses.pair_number flags = (if p >=? 50 then 35 else 10)
        /\ Z.land flags Curses.A_BOLD = Curses.A_BOLD
        /\ Z.land flags Curses.A_UNDERLINE = 0)
  /\ (forall info st st' out,
        iface_levels info st = (Ok tt, st', out) ->
        exists quality bar_q level bar_s attr_q attr_s,
          out = [Eaddstr (lineno st) 0 "Levels" title_attr true;
                 Eaddstr (lineno st + 1) 0 quality 0 true;
                 Eaddstr (lineno st + 2) 0 bar_q attr_q true;
                 Eaddstr (lineno st + 3) 0 level 0 true;
                 Eaddstr (lineno st + 4) 0 bar_s attr_s true]
          /\ printl_flags (Some (bar_color (quality_percent info))) true false
             = Ok attr_q
          /\ printl_flags (Some (bar_color (signal_percent info))) true false
             = Ok attr_s
          /\ (exists d e, get_dashes (quality_percent info) = Ok (d, e)
                          /\ bar_q = "    [" +:+ d +:+ e +:+ "]")
          /\ (exists d e, get_dashes (signal_percent info) = Ok (d, e)
                          /\ bar_s = "    [" +:+ d +:+ e +:+ "]")).
Proof.
  split; [|split; [|split; [|split; [|split]]]]; try reflexivity.
  - intros p. unfold bar_color. split; intros Hp.
    + destruct (Z.geb_spec p 50); [reflexivity | lia].
    + destruct (Z.geb_spec p 50); [lia | reflexivity].
  - intros p flags. rewrite bar_flags. intros [= <-].
    destruct (p >=? 50); repeat split; reflexivity.
  - intros info st st' out H. unfold Script.iface_levels, Script.print_title in H.
    apply bind_ok_inv in H as ([] & s1 & ? & ? & H1 & H & ->).
    apply printl_ok_inv in H1 as (f1 & Hf1 & -> & L1).
    apply bind_ok_inv in H as ([] & s2 & ? & ? & H2 & H & ->).
    apply printl_ok_inv in H2 as (f2 & Hf2 & -> & L2).
    apply bind_ok_inv in H as ([d1 e1] & ? & ? & ? & G1 & H & ->).
    apply lift_ok_inv in G1 as (G1 & -> & ->).
    apply bind_ok_inv in H as ([] & s3 & ? & ? & H3 & H & ->).
    apply printl_ok_inv in H3 as (f3 & Hf3 & -> & L3).
    apply bind_ok_inv in H as ([] & s4 & ? & ? & H4 & H & ->).
    apply printl_ok_inv in H4 as (f4 & Hf4 & -> & L4).
    apply bind_ok_inv in H as ([d2 e2] & ? & ? & ? & G2 & H & ->).
    apply lift_ok_inv in G2 as (G2 & -> & ->).
    apply printl_ok_inv in H as (f5 & Hf5 & -> & L5).
    injection Hf1 as <-. injection Hf2 as <-. injection Hf4 as <-.
    rewrite L4, L3, L2, L1. cbn [app].
    replace (lineno st + 1 + 1) with (lineno st + 2) by lia.
    replace (lineno st + 2 + 1) with (lineno st + 3) by lia.
    replace (lineno st + 3 + 1) with (lineno st + 4) by lia.
    do 6 eexists. split; [reflexivity|]. eauto 10.
Qed.

(** C8.  When the three family constants differ, an address is labelled
    "IPv4", "IPv6" or "MAC" after its family, and by the family value itself
    when that is none of the three; writing the line raises nothing but the
    overflow of the terminal. *)
Theorem family_labels :
  AF_INET <> AF_INET6 -> AF_INET <> AF_LINK -> AF_INET6 <> AF_LINK ->
  family_label AF_INET = PyStr "IPv4"
  /\ family_label AF_INET6 = PyStr "IPv6"
  /\ family_label AF_LINK = PyStr "MAC"
  /\ (forall fam,
        fam <> AF_INET -> fam <> AF_INET6 -> fam <> AF_LINK ->
        family_label fam = PyInt fam
        /\ format_s (family_label fam) = Py.str fam)
  /\ (forall addr ln,
        let line := "    " +:+ format_s (family_label (family addr)) +:+ ": "
                    +:+ address addr in
        print_addr addr {| lineno := ln; sigint := None |} =
        if addstr_ok ln 0 line 0
        then (Ok tt, {| lineno := ln + 1; sigint := None |},
              [Eaddstr ln 0 line 0 true])
        else (Raise CursesError, {| lineno := 0; sigint := None |},
              [Eaddstr ln 0 line 0 false; Erefresh])).
Proof.
  intros H46 H4L H6L.
  split; [|split; [|split; [|split]]]; unfold Script.family_label at 1, af_map.
  - now rewrite lookup_insert_ne, lookup_insert_ne, lookup_insert_eq.
  - now rewrite lookup_insert_ne, lookup_insert_eq.
  - now rewrite lookup_insert_eq.
  - intros fam H1 H2 H3. unfold Script.family_label, af_map.
    rewrite !lookup_insert_ne, lookup_empty by congruence. auto.
  - intros addr ln. unfold Script.print_addr. apply printl_run. reflexivity.
Qed.

(** ** Further properties of the script *)

(** *** What [printl] logs, raises and writes *)

Ltac unfold_printl :=
  unfold Script.printl, try_except_else, Script.win_addstr, win_refresh,
    check_signals, lift, get_lineno, set_lineno, emit, raise,
    mbind, M_bind, mret, M_ret.

(** The calls of [printl]: the line at the cursor, with the verdict of the
    terminal, and a refresh. *)
Lemma printl_log line color bold underline st r st' out :
  printl line color bold underline st = (r, st', out) ->
  rows_from (lineno st) out
  /\ Forall (fun e => e = Erefresh
                      \/ exists y x s a, e = Eaddstr y x s a (addstr_ok y x s a))
       out
  /\ (r = Ok tt -> lineno st' = lineno st + Z.of_nat (count_if is_addstr out)).
Proof.
  destruct st as [ln sg]. unfold_printl.
  pose proof (printl_flags_plain color bold underline) as Hp.
  destruct (printl_flags color bold underline) as [flags|e|]; [| |contradiction].
  - cbn [lineno sigint].
    destruct (addstr_ok ln 0 line flags) eqn:Ea;
      destruct sg as [[|[|k]]|]; cbn; intros [= <- <- <-];
      (split; [cbn; auto|]);
      (split; [|intros; first [discriminate | cbn; lia]]);
      repeat first [apply List.Forall_nil | apply List.Forall_cons];
      first [now left | right; exists ln, 0, line, flags; now rewrite Ea].
  - destruct e; try discriminate Hp; cbn; intros [= <- <- <-];
      (split; [exact I|]); (split; [constructor | discriminate]).
Qed.

Lemma tracking_printl line color bold underline :
  tracking (printl line color bold underline).
Proof.
  intros st r st' out H. destruct (printl_log _ _ _ _ _ _ _ _ H) as (Hr & _ & Hl).
  split; [exact Hr|]. intros [] ->. exact (Hl eq_refl).
Qed.

Lemma logs_printl P line color bold underline :
  P Erefresh -> (forall y x s a, P (Eaddstr y x s a (addstr_ok y x s a))) ->
  logs P (printl line color bold underline).
Proof.
  intros Hr Ha st r st' out H.
  destruct (printl_log _ _ _ _ _ _ _ _ H) as (_ & Hl & _).
  eapply List.Forall_impl; [|exact Hl].
  intros e [->|(y & x & s & a & ->)]; [exact Hr | apply Ha].
Qed.

(** With a colour that [colors_map] has, or none, [printl] raises nothing but
    the error of the terminal and the interrupt. *)
Lemma raises_only_printl line color bold underline :
  (exists flags, printl_flags color bold underline = Ok flags) ->
  raises_only (fun e => e = CursesError \/ e = KeyboardInterrupt)
    (printl line color bold underline).
Proof.
  intros [f Hf] [ln sg] r st' out. unfold_printl. rewrite Hf.
  destruct sg as [[|[|k]]|]; cbn [lineno sigint];
    destruct (addstr_ok ln 0 line f); cbn; intros [= <- _ _]; auto.
Qed.

Lemma writes_printl line color bold underline :
  writes 1 (printl line color bold underline).
Proof.
  intros st [] st' out H. apply printl_ok_inv in H as (flags & _ & -> & _).
  split; [reflexivity | repeat constructor].
Qed.

Lemma win_refresh_inv st r st' out :
  win_refresh st = (r, st', out) ->
  lineno st' = lineno st
  /\ ((r = Ok tt /\ out = [Erefresh]) \/ (r = Raise KeyboardInterrupt /\ out = [])).
Proof.
  unfold win_refresh, check_signals, emit, mbind, M_bind.
  destruct (sigint st) as [[|k]|]; cbn; intros [= <- <- <-]; auto.
Qed.

Lemma tracking_win_refresh : tracking win_refresh.
Proof.
  apply tracking_still. intros st r st' out H.
  destruct (win_refresh_inv _ _ _ _ H) as [Hl [[_ ->]|[_ ->]]];
    split; try exact Hl; repeat constructor.
Qed.

Lemma raises_only_win_refresh :
  raises_only (fun e => e = KeyboardInterrupt) win_refresh.
Proof.
  apply raises_only_signal. intros st r st' out H.
  destruct (win_refresh_inv _ _ _ _ H) as [_ [[-> _]|[-> _]]]; eauto.
Qed.

Lemma logs_win_refresh P : P Erefresh -> logs P win_refresh.
Proof.
  intros HP st r st' out H.
  destruct (win_refresh_inv _ _ _ _ H) as [_ [[_ ->]|[_ ->]]]; repeat constructor.
  exact HP.
Qed.

(** *** The rows of a refresh *)

#[local] Hint Resolve tracking_ret tracking_lift tracking_printl
  tracking_win_refresh : tracking.

Lemma tracking_refresh_iface s entry : tracking (refresh_iface s entry).
Proof.
  destruct entry as [ifname info].
  by_structure @tracking_bind ltac:(auto using tracking_for_each with tracking).
Qed.

Lemma tracking_refresh_window s : tracking (refresh_window s).
Proof.
  unfold Script.refresh_window.
  structural @tracking_bind
    ltac:(auto using tracking_for_each, tracking_refresh_iface with tracking).
Qed.

(** X4.  However a refresh ends (it completes, a line is refused, an
    interrupt arrives, a key is missing), the lines it has handed to the
    terminal are at column 0 of consecutive rows, the [i]-th of them at row
    [lineno + i]; and when it completes, the cursor is below the last line. *)
Theorem lines_on_consecutive_rows s st r st' out :
  refresh_window s st = (r, st', out) ->
  (forall i y x line attr ok,
      nth_error (List.filter is_addstr out) i = Some (Eaddstr y x line attr ok) ->
      y = lineno st + Z.of_nat i /\ x = 0)
  /\ (r = Ok tt ->
      lineno st' = lineno st + Z.of_nat (length (List.filter is_addstr out))).
Proof.
  intros H. destruct (tracking_refresh_window s _ _ _ _ H) as [Hr Hl]. split.
  - intros i y x line attr ok. apply rows_from_nth. exact Hr.
  - intros ->. exact (Hl tt eq_refl).
Qed.

(** *** The height of the window *)

Ltac count_lines :=
  repeat first
    [ apply writes_printl
    | apply (writes_bind 1); [apply writes_printl | intros ?]
    | apply writes_lift_then; intros ? ?
    | match goal with
      | |- context [let '(_, _) := ?p in _] => destruct p
      end ].

Lemma writes_iface_interface ifname info : writes 3 (iface_interface ifname info).
Proof. unfold Script.iface_interface, Script.print_title. count_lines. Qed.

Lemma writes_iface_levels info : writes 5 (iface_levels info).
Proof. unfold Script.iface_levels, Script.print_title. count_lines. Qed.

Lemma writes_iface_statistics s ifname : writes 3 (iface_statistics s ifname).
Proof. unfold Script.iface_statistics, Script.print_title. count_lines. Qed.

Lemma writes_iface_info info : writes 8 (iface_info info).
Proof. unfold Script.iface_info, Script.print_title. count_lines. Qed.

Lemma writes_iface_addresses s ifname :
  writes (1 + length (match net_if_addrs s !! ifname with
                      | Some addrs => addrs
                      | None => []
                      end))
    (iface_addresses s ifname).
Proof.
  unfold Script.iface_addresses, Script.print_title.
  apply writes_bind; [apply writes_printl | intros _].
  unfold getitem. destruct (net_if_addrs s !! ifname) as [addrs|].
  - apply writes_lift_then. intros l [= <-]. rewrite <- (list_sum_ones addrs).
    apply writes_for_each. intros addr. apply writes_printl.
  - intros st a st' out H. discriminate H.
Qed.

Lemma writes_refresh_iface s ifname info :
  writes (iface_height s ifname) (refresh_iface s (ifname, info)).
Proof.
  unfold Script.refresh_iface.
  apply (writes_bind 3); [apply writes_iface_interface | intros _].
  apply (writes_bind 5); [apply writes_iface_levels | intros _].
  apply (writes_bind 3); [apply writes_iface_statistics | intros _].
  apply (writes_bind 8); [apply writes_iface_info | intros _].
  apply writes_iface_addresses.
Qed.

(** The log of a refresh that completes. *)
Lemma refresh_window_lines s st st' out :
  refresh_window s st = (Ok tt, st', out) ->
  exists lines,
    out = lines ++ [Erefresh]
    /\ Forall (fun e => is_addstr e = true /\ failed_addstr e = false) lines
    /\ length lines = window_height s
    /\ List.filter is_addstr out = lines
    /\ lineno st' = lineno st + Z.of_nat (window_height s).
Proof.
  intros H. destruct (tracking_refresh_window s _ _ _ _ H) as [_ Hl].
  specialize (Hl tt eq_refl). unfold Script.refresh_window in H.
  apply bind_ok_inv in H as ([] & st1 & o1 & ? & H1 & H & ->).
  apply bind_ok_inv in H as ([] & st2 & o2 & o3 & H2 & H3 & ->).
  apply (writes_for_each (fun entry => iface_height s (fst entry))) in H1 as [L1 F1];
    [|intros [ifname info]; apply writes_refresh_iface].
  apply writes_printl in H2 as [L2 F2].
  destruct (win_refresh_inv _ _ _ _ H3) as [_ [[_ ->]|[E _]]]; [|discriminate E].
  assert (Hlen : length (o1 ++ o2) = window_height s)
    by (unfold window_height; rewrite length_app; lia).
  assert (Hall : Forall (fun e => is_addstr e = true /\ failed_addstr e = false)
                   (o1 ++ o2)) by (apply Forall_app; split; assumption).
  assert (Hf : List.filter is_addstr (o1 ++ o2 ++ [Erefresh]) = o1 ++ o2).
  { rewrite app_assoc, List.filter_app, filter_all; [apply app_nil_r|].
    eapply List.Forall_impl; [|exact Hall]. now intros e [He _]. }
  exists (o1 ++ o2). rewrite <- app_assoc. repeat split; try assumption.
  rewrite Hl. unfold count_if. now rewrite Hf, Hlen.
Qed.

(** X5.  A refresh that completes has written 20 lines and one line for each
    address for every interface, then the empty line, all of them accepted
    by the terminal, and has refreshed the window once, as its last call;
    the cursor has moved down by that number of lines. *)
Theorem refresh_window_height s st st' out :
  refresh_window s st = (Ok tt, st', out) ->
  exists lines,
    out = lines ++ [Erefresh]
    /\ Forall (fun e => is_addstr e = true /\ failed_addstr e = false) lines
    /\ length lines = window_height s
    /\ lineno st' = lineno st + Z.of_nat (window_height s).
Proof.
  intros H. destruct (refresh_window_lines _ _ _ _ H) as (lines & ? & ? & ? & _ & ?).
  exists lines. auto.
Qed.

(** *** What a refresh raises *)

Ltac raises_leaf :=
  first
    [ eapply raises_only_weaken;
      [ apply raises_only_printl; eexists; first [reflexivity | apply bar_flags]
      | unfold iface_error; intros ? [-> | ->]; auto ]
    | eapply raises_only_weaken;
      [ apply raises_only_get_dashes | unfold iface_error; intros ? ->; auto ]
    | eapply raises_only_weaken;
      [ apply raises_only_getitem | unfold iface_error; intros ? [-> ?]; auto 10 ] ].

Lemma raises_only_refresh_iface s ifname info :
  raises_only (iface_error s ifname) (refresh_iface s (ifname, info)).
Proof.
  by_structure @raises_only_bind ltac:(raises_leaf).
  apply raises_only_for_each. intros addr _. unfold Script.print_addr.
  raises_leaf.
Qed.

Lemma raises_only_refresh_window s :
  raises_only (refresh_error s) (refresh_window s).
Proof.
  unfold Script.refresh_window.
  apply raises_only_bind; [|intros _; apply raises_only_bind; [|intros _]].
  - apply raises_only_for_each. intros [ifname info] Hin.
    eapply raises_only_weaken; [apply raises_only_refresh_iface|].
    unfold iface_error, refresh_error. intros e [H|[H|[H|[H1 H2]]]]; eauto 10.
  - eapply raises_only_weaken;
      [apply raises_only_printl; eexists; reflexivity|].
    unfold refresh_error. intros e [H|H]; auto.
  - eapply raises_only_weaken; [apply raises_only_win_refresh|].
    unfold refresh_error. intros e H; auto.
Qed.

(** The block of an interface is drawn to the end only if psutil has its
    counters and its addresses. *)
Lemma refresh_iface_ok_lookups s ifname info st st' out :
  refresh_iface s (ifname, info) st = (Ok tt, st', out) ->
  net_io_counters s !! ifname <> None /\ net_if_addrs s !! ifname <> None.
Proof.
  unfold Script.refresh_iface. intros H.
  apply bind_ok_inv in H as (? & ? & ? & ? & _ & H & _).
  apply bind_ok_inv in H as (? & ? & ? & ? & _ & H & _).
  apply bind_ok_inv in H as (? & ? & ? & ? & Hs & H & _).
  apply bind_ok_inv in H as (? & ? & ? & ? & _ & Ha & _).
  unfold Script.iface_statistics in Hs. unfold Script.iface_addresses in Ha.
  apply bind_ok_inv in Hs as (? & ? & ? & ? & _ & Hs & _).
  apply bind_ok_inv in Hs as (? & ? & ? & ? & Hs & _ & _).
  apply bind_ok_inv in Ha as (? & ? & ? & ? & _ & Ha & _).
  apply bind_ok_inv in Ha as (? & ? & ? & ? & Ha & _ & _).
  apply lift_ok_inv in Hs as (Hs & _). apply lift_ok_inv in Ha as (Ha & _).
  unfold getitem in Hs, Ha.
  destruct (net_io_counters s !! ifname); [|discriminate Hs].
  destruct (net_if_addrs s !! ifname); [|discriminate Ha].
  split; discriminate.
Qed.

Lemma for_each_ok_each {A} (l : list A) body st st' out x :
  for_each l body st = (Ok tt, st', out) -> In x l ->
  exists st1 st2 o, body x st1 = (Ok tt, st2, o).
Proof.
  revert st out. induction l as [|y l IH]; intros st out H Hin; [destruct Hin|].
  cbn [for_each] in H. apply bind_ok_inv in H as ([] & s1 & o1 & o2 & H1 & H2 & _).
  destruct Hin as [->|Hin]; [eauto | exact (IH _ _ H2 Hin)].
Qed.

(** X6.  With an interface in the snapshot that [wifi_ifaces] lists and
    that [net_io_counters] or [net_if_addrs] does not have, a refresh never
    completes; and a [KeyError] of a refresh has the name of such an
    interface. *)
Theorem refresh_window_errors s :
  (forall ifname info st r st' out,
      In (ifname, info) (wifi_ifaces s) ->
      net_io_counters s !! ifname = None \/ net_if_addrs s !! ifname = None ->
      refresh_window s st = (r, st', out) ->
      r <> Ok tt)
  /\ (forall st k st' out,
        refresh_window s st = (Raise (KeyError k), st', out) ->
        exists info,
          In (k, info) (wifi_ifaces s)
          /\ (net_io_counters s !! k = None \/ net_if_addrs s !! k = None)).
Proof.
  split.
  - intros ifname info st r st' out Hin Hmiss H ->.
    unfold Script.refresh_window in H.
    apply bind_ok_inv in H as ([] & st1 & o1 & ? & H1 & _ & _).
    destruct (for_each_ok_each _ _ _ _ _ _ H1 Hin) as (s1 & s2 & o & Hi).
    destruct (refresh_iface_ok_lookups _ _ _ _ _ _ Hi) as [Hc Ha].
    destruct Hmiss; contradiction.
  - intros st k st' out H.
    destruct (raises_only_refresh_window s _ _ _ _ H)
      as [E|[E|[E|(ifname & info & Hin & E & Hm)]]]; try discriminate E.
    injection E as ->. eauto.
Qed.

(** *** One refresh, at the end *)

Lemma unflushed_printl line color bold underline :
  unflushed (printl line color bold underline).
Proof.
  intros [ln sg] r st' out. unfold_printl.
  pose proof (printl_flags_plain color bold underline) as Hp.
  destruct (printl_flags color bold underline) as [flags|e|]; [| |contradiction].
  - cbn [lineno sigint].
    destruct (addstr_ok ln 0 line flags);
      destruct sg as [[|[|k]]|]; cbn; intros [= <- _ <-];
      first [ left; repeat constructor; discriminate
            | right; split; [reflexivity|];
              exists [Eaddstr ln 0 line flags false];
              split; [reflexivity | repeat constructor; discriminate] ].
  - destruct e; try discriminate Hp; cbn; intros [= _ _ <-]; left; constructor.
Qed.

Lemma unflushed_refresh_iface s entry : unflushed (refresh_iface s entry).
Proof.
  destruct entry as [ifname info].
  by_structure @unflushed_bind
    ltac:(auto using unflushed_for_each, unflushed_printl, unflushed_lift,
            unflushed_ret).
Qed.

(** X16.  A refresh updates the screen at most once, and as its last call:
    after the whole dashboard has been written, or right after the line the
    terminal has refused.  When it has updated the screen, it completes or
    ends with [curses.error] or with [KeyboardInterrupt] (an interrupt can
    arrive while the screen is updated); so a refresh cut short by a missing
    key or by a float overflow has not updated the screen. *)
Theorem refresh_is_last s st r st' out :
  refresh_window s st = (r, st', out) ->
  (Forall (fun e => e <> Erefresh) out
   \/ exists pre,
        out = pre ++ [Erefresh]
        /\ Forall (fun e => e <> Erefresh) pre
        /\ (r = Ok tt \/ r = Raise CursesError \/ r = Raise KeyboardInterrupt))
  /\ ((r = Raise OverflowError \/ exists k, r = Raise (KeyError k)) ->
      Forall (fun e => e <> Erefresh) out).
Proof.
  intros H.
  assert (G : Forall (fun e => e <> Erefresh) out
              \/ exists pre,
                   out = pre ++ [Erefresh]
                   /\ Forall (fun e => e <> Erefresh) pre
                   /\ (r = Ok tt \/ r = Raise CursesError)).
  { unfold Script.refresh_window in H.
    apply bind_inv in H as [(a & st1 & o1 & o2 & H1 & H2 & ->)|[[H1 ->]|(e & H1 & ->)]];
      pose proof (unflushed_for_each _ _ (unflushed_refresh_iface s) _ _ _ _ H1) as U1.
    - destruct U1 as [N1|[E _]]; [|discriminate E].
      apply bind_inv in H2 as [(b & st2 & o3 & o4 & H3 & H4 & ->)|[[H3 ->]|(e & H3 & ->)]];
        pose proof (unflushed_printl _ _ _ _ _ _ _ _ H3) as U3.
      + destruct U3 as [N3|[E _]]; [|discriminate E].
        destruct (win_refresh_inv _ _ _ _ H4) as [_ [[-> ->]|[-> ->]]].
        * right. exists (o1 ++ o3). rewrite app_assoc.
          split; [reflexivity|]. split; [apply Forall_app; split; assumption | auto].
        * left. rewrite app_nil_r. apply Forall_app. split; assumption.
      + destruct U3 as [N3|[E _]]; [|discriminate E].
        left. apply Forall_app. split; assumption.
      + destruct U3 as [N3|(E & pre & -> & N3)].
        * left. apply Forall_app. split; assumption.
        * injection E as ->. right. exists (o1 ++ pre). rewrite app_assoc.
          split; [reflexivity|]. split; [apply Forall_app; split; assumption | auto].
    - destruct U1 as [N1|[E _]]; [now left | discriminate E].
    - destruct U1 as [N1|(E & pre & -> & N1)]; [now left|].
      injection E as ->. right. exists pre. auto. }
  split.
  - destruct G as [N|(pre & E & N & [Hr|Hr])]; [now left | right; exists pre; auto ..].
  - intros Hr. destruct G as [N|(pre & _ & _ & [->| ->])]; [exact N | exfalso ..];
      destruct Hr as [Hr|[k Hr]]; discriminate Hr.
Qed.

(** *** A window that is too small *)

Lemma logs_refresh_window P s :
  P Erefresh -> (forall y x line a, P (Eaddstr y x line a (addstr_ok y x line a))) ->
  logs P (refresh_window s).
Proof.
  intros Hr Ha.
  assert (Hi : forall entry, logs P (refresh_iface s entry)).
  { intros [ifname info].
    by_structure @logs_bind
      ltac:(auto using logs_for_each, logs_printl, logs_lift, logs_ret). }
  unfold Script.refresh_window.
  structural @logs_bind
    ltac:(auto using logs_for_each, logs_printl, logs_win_refresh).
Qed.

(** X7.  A refresh from row [lineno] needs the rows [lineno] to
    [lineno + window_height - 1]: when the terminal refuses whatever is
    written at one of these rows, the refresh does not complete. *)
Theorem window_too_small s st r st' out y :
  lineno st <= y < lineno st + Z.of_nat (window_height s) ->
  (forall x line attr, addstr_ok y x line attr = false) ->
  refresh_window s st = (r, st', out) ->
  r <> Ok tt.
Proof.
  intros Hy Hno H ->.
  pose proof (logs_refresh_window (logged_verdict addstr_ok) s I
                (fun _ _ _ _ => eq_refl) _ _ _ _ H) as Hh.
  destruct (tracking_refresh_window s _ _ _ _ H) as [Hr _].
  destruct (refresh_window_lines _ _ _ _ H) as (lines & -> & Hall & Hlen & Hf & _).
  set (i := Z.to_nat (y - lineno st)).
  destruct (nth_error lines i) as [e|] eqn:En;
    [|apply nth_error_None in En; lia].
  assert (Hin : In e lines) by (eapply nth_error_In; exact En).
  destruct (proj1 (List.Forall_forall _ _) Hall e Hin) as [Ha Hw].
  apply Forall_app in Hh as [Hh _].
  pose proof (proj1 (List.Forall_forall _ _) Hh e Hin) as Hv.
  destruct e as [| | | | | | | | |y' x' line attr ok| | |]; try discriminate Ha.
  destruct ok; [|discriminate Hw]. cbn in Hv.
  destruct (rows_from_nth _ _ i y' x' line attr true Hr) as [-> _];
    [rewrite Hf; exact En|].
  replace (lineno st + Z.of_nat i) with y in Hv by lia.
  rewrite Hno in Hv. discriminate Hv.
Qed.

(** *** A refresh without interfaces *)

(** X8.  When the interfaces have gone after startup, a refresh writes the
    empty line at the cursor and refreshes the window, and nothing else: what
    was drawn before is not written over.  The turn ends as any other (cursor
    back at 0, one sleep) and the loop goes on; only at startup is a host
    without interfaces refused. *)
Theorem refresh_without_interfaces c ln :
  wifi_ifaces (snap c) = [] -> key c <> Py.ord "q" ->
  addstr_ok ln 0 "" 0 = true ->
  refresh_window (snap c) {| lineno := ln; sigint := None |}
  = (Ok tt, {| lineno := ln + 1; sigint := None |},
     [Eaddstr ln 0 "" 0 true; Erefresh])
  /\ loop_body c {| lineno := ln; sigint := None |}
     = (Ok false, {| lineno := 0; sigint := None |},
        [Egetch (key c); Eaddstr ln 0 "" 0 true; Erefresh; Esleep INTERVAL_ms]).
Proof.
  intros Hw Hk Ha.
  assert (Hr : refresh_window (snap c) {| lineno := ln; sigint := None |}
               = (Ok tt, {| lineno := ln + 1; sigint := None |},
                  [Eaddstr ln 0 "" 0 true; Erefresh])).
  { unfold Script.refresh_window. rewrite Hw. cbn [for_each].
    rewrite ret_then, bind_run.
    rewrite (printl_run ""%string None false false 0 ln eq_refl), Ha.
    reflexivity. }
  split; [exact Hr|]. rewrite (loop_body_run c ln Hk), Hr. reflexivity.
Qed.

(** *** [setup] and the colours *)

(** X1.  [setup] initialises no colour pair outside 1 to [COLORS], and a
    pair [n] only with the foreground [n - 1] on the default background.  So
    on a terminal with fewer colours than the number of a pair that
    [colors_map] names, [setup] does not initialise that pair. *)
Theorem setup_no_pair_above_colors st r st' out :
  setup COLORS st = (r, st', out) ->
  (forall n fg bg,
      In (Einit_pair n fg bg) out -> 1 <= n <= COLORS /\ fg = n - 1 /\ bg = -1)
  /\ (forall color n fg bg,
        colors_map !! color = Some n -> COLORS < n ->
        ~ In (Einit_pair n fg bg) out).
Proof.
  rewrite setup_run. intros [= _ _ <-].
  assert (Hin : forall n fg bg,
             In (Einit_pair n fg bg) (setup_log COLORS) ->
             1 <= n <= COLORS /\ fg = n - 1 /\ bg = -1).
  { intros n fg bg. unfold setup_log. cbn [app In].
    intros [H|[H|H]]; try discriminate H.
    apply in_app_or in H as [H|[H|[H|[]]]]; try discriminate H.
    apply in_map_iff in H as (i & [= <- <- <-] & Hi). apply in_seq in Hi. lia. }
  split; [exact Hin|]. intros color n fg bg _ Hn H.
  destruct (Hin _ _ _ H). lia.
Qed.

(** X2.  A colour name that is not a key of [colors_map] (any name but
    "green", "red" and "blue") makes [printl] fail with [KeyError]: the
    handler of [curses.error] does not catch it, nothing is written, nothing
    is refreshed and the cursor stays where it was.  The empty name counts as
    no colour. *)
Theorem printl_unknown_colour line bold underline st :
  (forall c,
      c <> ""%string -> colors_map !! c = None ->
      printl line (Some c) bold underline st = (Raise (KeyError c), st, []))
  /\ (forall c,
        colors_map !! c = None
        <-> c <> "green"%string /\ c <> "red"%string /\ c <> "blue"%string)
  /\ printl line (Some ""%string) bold underline st
     = printl line None bold underline st.
Proof.
  split; [|split; [exact colors_map_missing | reflexivity]].
  intros c Hc Hm. apply printl_run_error. unfold printl_flags, getitem.
  rewrite Hm. destruct c; [contradiction | reflexivity].
Qed.

(** X3.  The attribute [printl] passes to [addstr] can be read back: its
    colour pair is the one [colors_map] gives for the colour (0 without a
    colour), it has the bold attribute exactly when [bold] is set and the
    underline attribute exactly when [underline] is, whatever the
    combination.  A title is a line in pair 5 (blue), bold and underlined. *)
Theorem printl_attributes :
  (forall color bold underline flags,
      printl_flags color bold underline = Ok flags ->
      Curses.pair_number flags
      = match color with
        | Some c => match colors_map !! c with Some n => n | None => 0 end
        | None => 0
        end
      /\ Z.land flags Curses.A_BOLD = (if bold then Curses.A_BOLD else 0)
      /\ Z.land flags Curses.A_UNDERLINE
         = (if underline then Curses.A_UNDERLINE else 0))
  /\ (forall line ln,
        print_title line {| lineno := ln; sigint := None |}
        = if addstr_ok ln 0 line title_attr
          then (Ok tt, {| lineno := ln + 1; sigint := None |},
                [Eaddstr ln 0 line title_attr true])
          else (Raise CursesError, {| lineno := 0; sigint := None |},
                [Eaddstr ln 0 line title_attr false; Erefresh]))
  /\ Curses.pair_number title_attr = 5
  /\ Z.land title_attr Curses.A_BOLD = Curses.A_BOLD
  /\ Z.land title_attr Curses.A_UNDERLINE = Curses.A_UNDERLINE.
Proof.
  split; [|split; [|repeat split]].
  - assert (He : colors_map !! ""%string = None)
      by (apply colors_map_missing; repeat split; discriminate).
    intros color bold underline flags. unfold printl_flags, getitem.
    destruct color as [[|a c]|].
    + rewrite He. destruct bold, underline; intros [= <-]; repeat split.
    + destruct (colors_map !! String a c) as [n|] eqn:E; [|discriminate].
      destruct (colors_map_values _ _ E) as [[_ ->]|[[_ ->]|[_ ->]]];
        destruct bold, underline; intros [= <-]; repeat split.
    + destruct bold, underline; intros [= <-]; repeat split.
  - intros line ln. unfold Script.print_title. apply printl_run. reflexivity.
Qed.

(** *** Startup and exit *)

(** X11.  Without curses the script exits with status 1 and the message
    "platform not supported" before any call to the terminal; with curses and
    a psutil that has no [wifi_ifaces], it exits the same way after
    [initscr], the only call made.  Neither [setup], nor the loop, nor
    [tear_down] runs: [endwin] is not called. *)
Theorem platform_not_supported h interrupt cycles :
  (has_curses h = false ->
   run h interrupt cycles
   = (Exited 1 (Some (SystemExit "platform not supported")),
      {| lineno := 0; sigint := interrupt |}, []))
  /\ (has_curses h = true -> startup_wifi_ifaces h = None ->
      run h interrupt cycles
      = (Exited 1 (Some (SystemExit "platform not supported")),
         {| lineno := 0; sigint := interrupt |}, [Einitscr])).
Proof.
  split.
  - intros Hc. unfold run, Script.script. rewrite Hc. reflexivity.
  - intros Hc Hw. unfold run, Script.script, Script.main.
    rewrite Hc, Hw. reflexivity.
Qed.

Lemma win_getch_inv k st r st' out :
  win_getch k st = (r, st', out) ->
  (r = Ok k /\ out = [Egetch k]) \/ (r = Raise KeyboardInterrupt /\ out = []).
Proof.
  unfold win_getch, check_signals, emit, mbind, M_bind, mret, M_ret.
  destruct (sigint st) as [[|n]|]; cbn; intros [= <- _ <-]; auto.
Qed.

Lemma time_sleep_inv ms st r st' out :
  time_sleep ms st = (r, st', out) ->
  (r = Ok tt /\ out = [Esleep ms]) \/ (r = Raise KeyboardInterrupt /\ out = []).
Proof.
  unfold time_sleep, check_signals, emit, mbind, M_bind.
  destruct (sigint st) as [[|n]|]; cbn; intros [= <- _ <-]; auto.
Qed.

Lemma raises_only_loop_body c :
  raises_only (fun e => e = KeyboardInterrupt \/ refresh_error (snap c) e)
    (loop_body c).
Proof.
  unfold Script.loop_body. apply raises_only_bind.
  - eapply raises_only_weaken; [apply raises_only_signal | auto].
    intros st r st' out H.
    destruct (win_getch_inv _ _ _ _ _ H) as [[-> _]|[-> _]]; eauto.
  - intros k. destruct (k =? Py.ord "q"); [apply raises_only_ret|].
    apply raises_only_bind; [|intros _].
    + eapply raises_only_weaken; [apply raises_only_refresh_window | auto].
    + assert (Hs : raises_only
                     (fun e => e = KeyboardInterrupt \/ refresh_error (snap c) e)
                     (time_sleep INTERVAL_ms;; mret false)).
      { apply raises_only_bind; [|intros _; apply raises_only_ret].
        eapply raises_only_weaken; [apply raises_only_signal | auto].
        intros st1 r st' out H.
        destruct (time_sleep_inv _ _ _ _ _ H) as [[-> _]|[-> _]]; eauto. }
      intros st r st' out H. rewrite set_lineno_then in H.
      exact (Hs _ _ _ _ H).
Qed.

(** The loop raises what a refresh of one of its turns raises. *)
Lemma while_true_raises cycles st e st' out :
  while_true cycles st = (Raise e, st', out) ->
  e = KeyboardInterrupt \/ Exists (fun c => refresh_error (snap c) e) cycles.
Proof.
  revert st out. induction cycles as [|c rest IH]; intros st out H;
    [discriminate H|].
  cbn [Script.while_true] in H.
  apply bind_inv in H as [(stop & st1 & o1 & o2 & H1 & H2 & _)|[[_ H]|(e' & H1 & H)]].
  - destruct stop; [discriminate H2|].
    destruct (IH _ _ H2) as [He|He]; [now left | right; now apply Exists_cons_tl].
  - discriminate H.
  - injection H as <-. pose proof (raises_only_loop_body c _ _ _ _ H1) as He.
    cbn in He. destruct He as [He|He]; [now left | right; now apply Exists_cons_hd].
Qed.

(** X12.  The process exits with status 0 and nothing reported only when the
    quit key was among the keys or an interrupt was due.  It reports
    [SystemExit] only at startup: with status 1, one of the two startup
    messages, and no call made after [initscr].  And a [KeyError] it reports
    has the name of an interface that, in one of the turns, [wifi_ifaces]
    lists and [net_io_counters] or [net_if_addrs] does not have. *)
Theorem exit_statuses h interrupt cycles :
  let '(o, _, out) := run h interrupt cycles in
  (o = Exited 0 None ->
   Exists (fun c => key c = Py.ord "q") cycles \/ interrupt <> None)
  /\ (forall status msg,
        o = Exited status (Some (SystemExit msg)) ->
        status = 1
        /\ (msg = "platform not supported"%string
            \/ msg = "no Wi-Fi interfaces installed"%string)
        /\ (out = [] \/ out = [Einitscr]))
  /\ (forall status k,
        o = Exited status (Some (KeyError k)) ->
        status = 1
        /\ Exists
             (fun c =>
                exists info,
                  In (k, info) (wifi_ifaces (snap c))
                  /\ (net_io_counters (snap c) !! k = None
                      \/ net_if_addrs (snap c) !! k = None))
             cycles).
Proof.
  destruct (has_curses h) eqn:Hc.
  2:{ replace (run h interrupt cycles)
        with (Exited 1 (Some (SystemExit "platform not supported")),
              {| lineno := 0; sigint := interrupt |}, @nil event)
        by (unfold run, Script.script; rewrite Hc; reflexivity).
      split; [discriminate|]. split; [|discriminate].
      intros status msg [= <- <-]. auto. }
  destruct (startup_wifi_ifaces h) as [[|entry entries]|] eqn:Hw.
  1:{ replace (run h interrupt cycles)
        with (Exited 1 (Some (SystemExit "no Wi-Fi interfaces installed")),
              {| lineno := 0; sigint := interrupt |}, [Einitscr])
        by (unfold run, Script.script, Script.main; rewrite Hc, Hw; reflexivity).
      split; [discriminate|]. split; [|discriminate].
      intros status msg [= <- <-]. auto. }
  2:{ replace (run h interrupt cycles)
        with (Exited 1 (Some (SystemExit "platform not supported")),
              {| lineno := 0; sigint := interrupt |}, [Einitscr])
        by (unfold run, Script.script, Script.main; rewrite Hc, Hw; reflexivity).
      split; [discriminate|]. split; [|discriminate].
      intros status msg [= <- <-]. auto. }
  destruct (while_true cycles {| lineno := 0; sigint := interrupt |})
    as [[r st1] out1] eqn:Hl.
  pose proof (guarded_loop_run _ _ _ _ _ Hl) as Hg.
  destruct r as [[]|e|].
  - rewrite (script_run _ _ _ _ _ _ _ _ Hc Hw Hg). cbn [outcome_of].
    split; [|split; discriminate].
    intros _. left. exact (while_true_quit _ _ _ _ Hl).
  - pose proof (while_true_raises _ _ _ _ _ Hl) as He.
    destruct e as [|k| | | |msg]; cbn in Hg;
      rewrite (script_run _ _ _ _ _ _ _ _ Hc Hw Hg); cbn [outcome_of];
      (split; [|split]); try discriminate.
    + intros status k' [= <- <-]. split; [reflexivity|].
      destruct He as [He|He]; [discriminate He|].
      eapply List.Exists_impl; [|exact He]. unfold refresh_error.
      intros c [E|[E|[E|(ifname & info & Hin & E & Hm)]]]; try discriminate E.
      injection E as ->. eauto.
    + intros _. right. intros ->.
      destruct (steady_while_true cycles {| lineno := 0; sigint := None |}
                  _ _ _ eq_refl Hl) as [_ [Hp _]].
      discriminate Hp.
    + exfalso. destruct He as [He|He]; [discriminate He|].
      apply List.Exists_exists in He as (c & _ & He). unfold refresh_error in He.
      destruct He as [E|[E|[E|(ifname & info & Hin & E & Hm)]]]; discriminate E.
  - rewrite (script_run _ _ _ _ _ _ _ _ Hc Hw Hg). cbn [outcome_of].
    split; [|split]; discriminate.
Qed.

(** *** Polling and sleeping *)

Lemma draws_no_sleep out :
  Forall (fun e => is_draw e = true) out ->
  count_if is_getch out = 0%nat /\ count_if is_sleep out = 0%nat
  /\ Forall (fun e => is_sleep e = true -> e = Esleep INTERVAL_ms) out.
Proof.
  intros H. split; [|split].
  - apply (count_if_none _ _ _ H). now intros [].
  - apply (count_if_none _ _ _ H). now intros [].
  - eapply List.Forall_impl; [|exact H]. now intros [].
Qed.

(** A turn polls the keyboard once; it sleeps once, for [INTERVAL], when it
    is completed, and not at all when it ends the loop. *)
Lemma loop_body_counts c st r st' out :
  loop_body c st = (r, st', out) ->
  Forall (fun e => is_sleep e = true -> e = Esleep INTERVAL_ms) out
  /\ ((r = Ok false
       /\ count_if is_getch out = 1%nat /\ count_if is_sleep out = 1%nat)
      \/ (r = Ok true
          /\ count_if is_getch out = 1%nat /\ count_if is_sleep out = 0%nat)
      \/ ((exists e, r = Raise e)
          /\ (count_if is_getch out <= 1)%nat /\ count_if is_sleep out = 0%nat)).
Proof.
  unfold Script.loop_body. intros H.
  apply bind_inv in H as [(k & st1 & o1 & o2 & H1 & H2 & ->)|[[H1 ->]|(e & H1 & ->)]];
    apply win_getch_inv in H1 as [[E1 ->]|[E1 ->]]; try discriminate E1.
  2:{ split; [constructor|]. right; right. cbn. eauto. }
  injection E1 as ->. destruct (key c =? Py.ord "q").
  { injection H2 as <- _ <-. split; [repeat constructor; discriminate|].
    right; left. auto. }
  apply bind_inv in H2 as [(a & st2 & o_r & o3 & Hr & H3 & ->)|[[Hr ->]|(e & Hr & ->)]];
    pose proof (logs_refresh_window (fun e => is_draw e = true) (snap c)
                  eq_refl (fun _ _ _ _ => eq_refl) _ _ _ _ Hr) as Hd;
    destruct (draws_no_sleep _ Hd) as (Hg & Hs & Hf).
  - rewrite set_lineno_then in H3.
    apply bind_inv in H3 as [(b & st3 & o4 & o5 & H4 & H5 & ->)|[[H4 ->]|(e & H4 & ->)]];
      apply time_sleep_inv in H4 as [[E4 ->]|[E4 ->]]; try discriminate E4.
    + injection H5 as <- _ <-. split.
      * constructor; [discriminate|]. apply Forall_app. split; [exact Hf|].
        repeat constructor.
      * left. split; [reflexivity|].
        change ([Egetch (key c)] ++ o_r ++ [Esleep INTERVAL_ms] ++ [])
          with (Egetch (key c) :: o_r ++ [Esleep INTERVAL_ms]).
        unfold count_if in *. cbn [List.filter is_getch is_sleep length].
        rewrite !List.filter_app, !length_app, Hg, Hs. cbn. lia.
    + split.
      * constructor; [discriminate|]. now rewrite app_nil_r.
      * right; right. split; [eauto|].
        unfold count_if in *. cbn [app List.filter is_getch is_sleep length].
        rewrite app_nil_r, Hg, Hs. lia.
  - destruct (raises_only_refresh_window _ _ _ _ _ Hr).
  - split.
    + constructor; [discriminate | exact Hf].
    + right; right. split; [eauto|].
      unfold count_if in *. cbn [app List.filter is_getch is_sleep length].
      rewrite Hg, Hs. lia.
Qed.

(** X13.  The loop polls the keyboard once in every turn and sleeps
    [INTERVAL] once after every completed turn, and at no other time: in any
    run the key polls are as many as the sleeps or one more, every sleep is
    of [INTERVAL], a loop still running after its turns has polled and slept
    once in each, and a loop ended by the quit key has polled once more than
    it has slept. *)
Theorem one_sleep_per_turn cycles st r st' out :
  while_true cycles st = (r, st', out) ->
  (count_if is_sleep out <= count_if is_getch out <= count_if is_sleep out + 1)%nat
  /\ (count_if is_getch out <= length cycles)%nat
  /\ Forall (fun e => is_sleep e = true -> e = Esleep INTERVAL_ms) out
  /\ (r = Diverge ->
      count_if is_getch out = length cycles
      /\ count_if is_sleep out = length cycles)
  /\ (r = Ok tt -> count_if is_getch out = S (count_if is_sleep out)).
Proof.
  revert st out. induction cycles as [|c rest IH]; intros st out H.
  - injection H as <- _ <-. cbn. repeat split; try lia; try constructor.
    discriminate.
  - cbn [Script.while_true] in H.
    apply bind_inv in H as [(stop & st1 & o1 & o2 & H1 & H2 & ->)|[[H1 ->]|(e & H1 & ->)]];
      destruct (loop_body_counts _ _ _ _ _ H1)
        as (Hf & [(E & Hg & Hs)|[(E & Hg & Hs)|([e' E] & Hg & Hs)]]);
      try discriminate E.
    + injection E as ->.
      destruct (IH _ _ H2) as (Hc & Hl & Hf2 & Hd & Hq).
      rewrite !count_if_app, Hg, Hs. cbn [length].
      split; [lia|]. split; [lia|].
      split; [apply Forall_app; split; assumption|]. split.
      * intros Hr. destruct (Hd Hr). lia.
      * intros Hr. specialize (Hq Hr). lia.
    + injection E as ->. injection H2 as <- _ <-.
      rewrite app_nil_r, Hg, Hs. cbn [length].
      split; [lia|]. split; [lia|]. split; [exact Hf|].
      split; [discriminate | reflexivity].
    + cbn [length]. rewrite Hs.
      split; [lia|]. split; [lia|]. split; [exact Hf|].
      split; discriminate.
Qed.

(** *** Every turn draws from the top *)

Lemma win_getch_lineno k st r st' out :
  win_getch k st = (r, st', out) -> lineno st' = lineno st.
Proof.
  unfold win_getch, check_signals, emit, mbind, M_bind, mret, M_ret.
  destruct (sigint st) as [[|n]|]; cbn; intros [= _ <- _]; reflexivity.
Qed.

Lemma time_sleep_lineno ms st r st' out :
  time_sleep ms st = (r, st', out) -> lineno st' = lineno st.
Proof.
  unfold time_sleep, check_signals, emit, mbind, M_bind.
  destruct (sigint st) as [[|n]|]; cbn; intros [= _ <- _]; reflexivity.
Qed.

(** A turn that starts with the cursor at 0 draws from row 0, and ends with
    the cursor at 0 when the loop goes on. *)
Lemma loop_body_rows c st r st' out :
  lineno st = 0 -> loop_body c st = (r, st', out) ->
  (forall ln, rows_from_top ln out) /\ (r = Ok false -> lineno st' = 0).
Proof.
  unfold Script.loop_body. intros H0 H.
  apply bind_inv in H as [(k & st1 & o1 & o2 & H1 & H2 & ->)|[[H1 ->]|(e & H1 & ->)]];
    pose proof (win_getch_lineno _ _ _ _ _ H1) as L1;
    apply win_getch_inv in H1 as [[E1 ->]|[E1 ->]]; try discriminate E1.
  2:{ split; [intros ln; exact I | discriminate]. }
  injection E1 as ->. destruct (key c =? Py.ord "q").
  { injection H2 as <- _ <-. split; [intros ln; exact I | discriminate]. }
  apply bind_inv in H2 as [(a & st2 & o_r & o3 & Hr & H3 & ->)|[[Hr ->]|(e & Hr & ->)]];
    pose proof (logs_refresh_window (fun e => is_draw e = true) (snap c)
                  eq_refl (fun _ _ _ _ => eq_refl) _ _ _ _ Hr) as Hd;
    destruct (tracking_refresh_window _ _ _ _ _ Hr) as [Rr _];
    rewrite L1, H0 in Rr;
    pose proof (rows_from_top_draws _ _ Hd Rr) as Rt.
  - rewrite set_lineno_then in H3.
    apply bind_inv in H3 as [(b & st3 & o4 & o5 & H4 & H5 & ->)|[[H4 ->]|(e & H4 & ->)]];
      pose proof (time_sleep_lineno _ _ _ _ _ H4) as L4;
      apply time_sleep_inv in H4 as [[E4 ->]|[E4 ->]]; try discriminate E4.
    + injection H5 as <- <- <-. split.
      * intros ln. cbn [app rows_from_top].
        apply rows_from_top_app; [exact Rt | intros; exact I].
      * intros _. rewrite L4. reflexivity.
    + split; [|discriminate]. intros ln. cbn [app rows_from_top].
      apply rows_from_top_app; [exact Rt | intros; exact I].
  - destruct (raises_only_refresh_window _ _ _ _ _ Hr).
  - split; [|discriminate]. intros ln. cbn [app rows_from_top]. exact Rt.
Qed.

(** X15.  The cursor does not drift from turn to turn: in a run of the loop
    that starts with the cursor at 0, the lines that follow a key poll are
    at column 0 of the rows 0, 1, 2, ..., whatever the earlier turns have
    drawn and however they differ. *)
Theorem every_turn_draws_from_the_top cycles st r st' out :
  lineno st = 0 ->
  while_true cycles st = (r, st', out) ->
  forall pre k lines post,
    out = pre ++ Egetch k :: lines ++ post ->
    Forall (fun e => is_addstr e = true) lines ->
    forall i y x line attr ok,
      nth_error lines i = Some (Eaddstr y x line attr ok) ->
      y = Z.of_nat i /\ x = 0.
Proof.
  intros H0 H.
  assert (G : forall ln, rows_from_top ln out).
  { revert st out H0 H. induction cycles as [|c rest IH]; intros st out H0 H ln.
    - injection H as _ _ <-. exact I.
    - cbn [Script.while_true] in H.
      apply bind_inv in H as [(stop & st1 & o1 & o2 & H1 & H2 & ->)|[[H1 _]|(e & H1 & _)]];
        destruct (loop_body_rows _ _ _ _ _ H0 H1) as [R1 L1]; [|apply R1 ..].
      apply rows_from_top_app; [apply R1|]. destruct stop.
      + injection H2 as _ _ <-. intros; exact I.
      + intros ln'. exact (IH _ _ (L1 eq_refl) H2 ln'). }
  intros pre k lines post -> Hl.
  exact (rows_from_top_nth 0 pre k lines post (G 0) Hl).
Qed.

End ScriptProperties.

(** ** Sample runs *)

Lemma no_interfaces_exit_witness :
  sample_run 24 no_wifi_host None [] =
    (Exited 1 (Some (SystemExit "no Wi-Fi interfaces installed")),
     {| lineno := 0; sigint := None |},
     [Einitscr]).
Proof.
  exact (no_interfaces_exit sample_bytes2human 8 (term_addstr_ok 24 80) 2 10 17
           no_wifi_host None [] eq_refl eq_refl).
Defined.

(** With no interface the process exits with a non-zero status, but the
    screen has been initialised by then: [initscr] is in the log. *)
Lemma no_interfaces_screen_initialised :
  let '(o, _, out) := sample_run 24 no_wifi_host None [] in
  ~ ((exists status reported, o = Exited status reported /\ status <> 0)
     /\ ~ In Einitscr out).
Proof. vm_compute. intros [_ H]. apply H. left. reflexivity. Qed.

(** A terminal of 10 lines is too small for the sample: the eleventh line is
    refused, the process ends with the error, and [tear_down] has run. *)
Lemma teardown_on_every_exit_witness :
  let '(r, st1, out1) := sample_while_true 10 [sample_cycle (-1)] start in
  r = Raise CursesError
  /\ exists o,
       sample_run 10 sample_host None [sample_cycle (-1)] =
         (o, st1, (Einitscr :: setup_log 8 ++ out1) ++ tear_down_log)
       /\ o <> Running
       /\ Forall (fun e => teardown_event e = false) (Einitscr :: setup_log 8 ++ out1)
       /\ (r = Ok tt -> o = Exited 0 None)
       /\ (r = Raise KeyboardInterrupt -> o = Exited 0 None)
       /\ (forall e, r = Raise e -> is_interrupt_or_exit e = false ->
             o = Exited 1 (Some e)).
Proof.
  unfold sample_while_true, sample_run, start.
  destruct (Script.while_true sample_bytes2human (term_addstr_ok 10 80) 2 10 17
              [sample_cycle (-1)] {| lineno := 0; sigint := None |})
    as [[r st1] out1] eqn:E.
  assert (Hr : r = Raise CursesError) by (vm_compute in E; congruence).
  split; [exact Hr|].
  exact (teardown_on_every_exit sample_bytes2human 8 (term_addstr_ok 10 80) 2 10 17
           sample_host None [sample_cycle (-1)] _ _ r st1 out1 eq_refl eq_refl E
           ltac:(rewrite Hr; discriminate)).
Defined.

(** The quit key and Ctrl-C (here at the sixth operation of the loop) end
    the sample run the same way. *)
Lemma quit_and_interrupt_exit_cleanly_witness :
  (exists st', sample_while_true 30 [sample_cycle 113; sample_cycle (-1)] start
               = (Ok tt, st', [Egetch 113]))
  /\ (sample_run 30 sample_host None [sample_cycle (-1); sample_cycle 113]).1.1
     = Exited 0 None
  /\ (sample_run 30 sample_host (Some 5%nat) [sample_cycle (-1); sample_cycle 113]).1.1
     = Exited 0 None.
Proof.
  unfold sample_while_true, sample_run, start.
  destruct (quit_and_interrupt_exit_cleanly sample_bytes2human 8
              (term_addstr_ok 30 80) 2 10 17) as (Hq & _ & _ & Hi & Hrun).
  split; [|split].
  - exact (Hq (sample_cycle 113) [sample_cycle (-1)]
             {| lineno := 0; sigint := None |} eq_refl ltac:(discriminate)).
  - destruct (Script.while_true sample_bytes2human (term_addstr_ok 30 80) 2 10 17
                [sample_cycle (-1); sample_cycle 113]
                {| lineno := 0; sigint := None |}) as [[r st1] out1] eqn:E.
    assert (Hr : r = Ok tt) by (vm_compute in E; congruence).
    rewrite (proj1 (Hrun sample_host None _ _ _ r st1 out1 eq_refl eq_refl E
                      (or_introl Hr))).
    reflexivity.
  - destruct (Script.while_true sample_bytes2human (term_addstr_ok 30 80) 2 10 17
                [sample_cycle (-1); sample_cycle 113]
                {| lineno := 0; sigint := Some 5%nat |}) as [[r st1] out1] eqn:E.
    assert (Hs : sigint st1 = None)
      by (vm_compute in E; injection E as _ <- _; reflexivity).
    assert (Hr : r = Raise KeyboardInterrupt)
      by (exact (Hi _ _ _ _ _ E ltac:(discriminate) Hs)).
    rewrite (proj1 (Hrun sample_host (Some 5%nat) _ _ _ r st1 out1 eq_refl eq_refl E
                      (or_intror Hr))).
    reflexivity.
Defined.

Ltac find_failed :=
  repeat first [apply Exists_cons_hd; reflexivity | apply Exists_cons_tl].

(** On a terminal of 10 lines, a line at row 10 is refused and a line at row 3
    is written; the sample does not fit, and the process ends with the
    error. *)
Lemma printl_overflow_witness :
  sample_printl 10 "x" None false false {| lineno := 10; sigint := None |}
  = (Raise CursesError, {| lineno := 0; sigint := None |},
     [Eaddstr 10 0 "x" 0 false; Erefresh])
  /\ sample_printl 10 "x" None false false {| lineno := 3; sigint := None |}
     = (Ok tt, {| lineno := 3 + 1; sigint := None |}, [Eaddstr 3 0 "x" 0 true])
  /\ (sample_refresh_window 10 sample_snapshot start).1.1 = Raise CursesError
  /\ (sample_run 10 sample_host None [sample_cycle (-1)]).1.1
     = Exited 1 (Some CursesError).
Proof.
  unfold sample_printl, sample_refresh_window, sample_run, start.
  destruct (printl_overflow sample_bytes2human 8 (term_addstr_ok 10 80) 2 10 17)
    as (Ha & Hb & Hc & Hd).
  split; [|split; [|split]].
  - exact (Ha "x"%string None false false 0 10 eq_refl eq_refl).
  - exact (Hb "x"%string None false false 0 3 eq_refl eq_refl).
  - destruct (Script.refresh_window sample_bytes2human (term_addstr_ok 10 80) 2 10 17
                sample_snapshot {| lineno := 0; sigint := None |})
      as [[r st'] out] eqn:E.
    assert (Hex : Exists (fun e => failed_addstr e = true) out)
      by (vm_compute in E; injection E as _ _ <-; find_failed).
    destruct (Hc sample_snapshot {| lineno := 0; sigint := None |} r st' out
                eq_refl E Hex) as (-> & _).
    reflexivity.
  - destruct (Script.while_true sample_bytes2human (term_addstr_ok 10 80) 2 10 17
                [sample_cycle (-1)] {| lineno := 0; sigint := None |})
      as [[r st1] out1] eqn:E.
    assert (Hex : Exists (fun e => failed_addstr e = true) out1)
      by (vm_compute in E; injection E as _ _ <-; find_failed).
    rewrite (Hd sample_host [sample_cycle (-1)] _ _ r st1 out1 eq_refl eq_refl E Hex).
    reflexivity.
Defined.

(** Two turns on the sample snapshot, the second with another key (a space). *)
Lemma refresh_cycles_identical_witness :
  let '(r, st1, out1) := sample_loop_body 30 (sample_cycle (-1)) start in
  r = Ok false
  /\ exists rendered st_r,
       sample_refresh_window 30 sample_snapshot start = (Ok tt, st_r, rendered)
       /\ out1 = Egetch (-1) :: rendered ++ [Esleep INTERVAL_ms]
       /\ st1 = start
       /\ sample_loop_body 30 (sample_cycle 32) st1
          = (Ok false, st1, Egetch 32 :: rendered ++ [Esleep INTERVAL_ms])
       /\ sample_while_true 30 [sample_cycle (-1); sample_cycle 32] start
          = (Diverge, start, out1 ++ Egetch 32 :: rendered ++ [Esleep INTERVAL_ms]).
Proof.
  unfold sample_loop_body, sample_refresh_window, sample_while_true, start.
  destruct (Script.loop_body sample_bytes2human (term_addstr_ok 30 80) 2 10 17
              (sample_cycle (-1)) {| lineno := 0; sigint := None |})
    as [[r st1] out1] eqn:E.
  assert (Hr : r = Ok false) by (vm_compute in E; congruence).
  split; [exact Hr|]. subst r.
  exact (refresh_cycles_identical sample_bytes2human (term_addstr_ok 30 80) 2 10 17
           (sample_cycle (-1)) (sample_cycle 32) {| lineno := 0; sigint := None |}
           st1 out1 eq_refl eq_refl eq_refl ltac:(discriminate) E).
Defined.

(** The sample: a link quality of 64 gives a green bar, a signal level of 45
    a red one, both bold. *)
Lemma bar_colour_and_bold_witness :
  bar_color 64 = "green"%string
  /\ bar_color 45 = "red"%string
  /\ (Curses.pair_number 2106112 = 35
      /\ Z.land 2106112 Curses.A_BOLD = Curses.A_BOLD
      /\ Z.land 2106112 Curses.A_UNDERLINE = 0)
  /\ exists quality bar_q level bar_s attr_q attr_s,
       (sample_iface_levels 30 sample_info {| lineno := 3; sigint := None |}).2 =
         [Eaddstr 3 0 "Levels" title_attr true;
          Eaddstr (3 + 1) 0 quality 0 true;
          Eaddstr (3 + 2) 0 bar_q attr_q true;
          Eaddstr (3 + 3) 0 level 0 true;
          Eaddstr (3 + 4) 0 bar_s attr_s true]
       /\ printl_flags (Some (bar_color 64)) true false = Ok attr_q
       /\ printl_flags (Some (bar_color 45)) true false = Ok attr_s
       /\ (exists d e, get_dashes 64 = Ok (d, e)
                       /\ bar_q = "    [" +:+ d +:+ e +:+ "]")
       /\ (exists d e, get_dashes 45 = Ok (d, e)
                       /\ bar_s = "    [" +:+ d +:+ e +:+ "]").
Proof.
  unfold sample_iface_levels.
  destruct (bar_colour_and_bold (term_addstr_ok 30 80))
    as (Hc & _ & _ & _ & Hf & Hl).
  split; [exact (proj1 (Hc 64) ltac:(lia))|].
  split; [exact (proj2 (Hc 45) ltac:(lia))|].
  split; [exact (Hf 64 2106112 eq_refl)|].
  destruct (Script.iface_levels (term_addstr_ok 30 80) sample_info
              {| lineno := 3; sigint := None |}) as [[r st'] out] eqn:E.
  assert (Hr : r = Ok tt) by (vm_compute in E; congruence). subst r.
  exact (Hl sample_info {| lineno := 3; sigint := None |} st' out E).
Defined.

(** With the Linux values 2, 10 and 17 of the three families, the unknown
    family 1 is rendered as "1". *)
Lemma family_labels_witness :
  family_label 2 10 17 2 = PyStr "IPv4"
  /\ family_label 2 10 17 10 = PyStr "IPv6"
  /\ family_label 2 10 17 17 = PyStr "MAC"
  /\ family_label 2 10 17 1 = PyInt 1
  /\ sample_print_addr 30 {| family := 1; address := "?" |} start
     = (Ok tt, {| lineno := 0 + 1; sigint := None |}, [Eaddstr 0 0 "    1: ?" 0 true]).
Proof.
  unfold sample_print_addr, start.
  destruct (family_labels (term_addstr_ok 30 80) 2 10 17
              ltac:(discriminate) ltac:(discriminate) ltac:(discriminate))
    as (H4 & H6 & HL & Ho & Hp).
  split; [exact H4|]. split; [exact H6|]. split; [exact HL|].
  split; [exact (proj1 (Ho 1 ltac:(discriminate) ltac:(discriminate)
                          ltac:(discriminate)))|].
  rewrite (Hp {| family := 1; address := "?" |} 0). vm_compute. reflexivity.
Defined.

(** ** Sample runs of the further properties *)

(** On a terminal with 8 colours [setup] initialises neither the pair of
    red nor the pair of green. *)
Lemma setup_no_pair_above_colors_witness :
  let '(_, _, out) := setup 8 start in
  (forall n fg bg,
      In (Einit_pair n fg bg) out -> 1 <= n <= 8 /\ fg = n - 1 /\ bg = -1)
  /\ ~ In (Einit_pair 10 9 (-1)) out
  /\ ~ In (Einit_pair 35 34 (-1)) out.
Proof.
  destruct (setup 8 start) as [[r st'] out] eqn:E.
  destruct (setup_no_pair_above_colors 8 start r st' out E) as [Hin Hc].
  split; [exact Hin|]. split.
  - exact (Hc "red"%string 10 9 (-1) eq_refl ltac:(lia)).
  - exact (Hc "green"%string 35 34 (-1) eq_refl ltac:(lia)).
Defined.

Lemma printl_unknown_colour_witness :
  sample_printl 24 "x" (Some "yellow"%string) true false start
  = (Raise (KeyError "yellow"), start, []).
Proof.
  unfold sample_printl.
  destruct (printl_unknown_colour (term_addstr_ok 24 80) "x"%string true false start)
    as (H & Hm & _).
  apply H; [discriminate|]. apply Hm. repeat split; discriminate.
Defined.

(** Red, bold and underlined; and green, neither bold nor underlined. *)
Lemma printl_attributes_witness :
  printl_flags (Some "red"%string) true true = Ok 2230784
  /\ (Curses.pair_number 2230784 = 10
      /\ Z.land 2230784 Curses.A_BOLD = Curses.A_BOLD
      /\ Z.land 2230784 Curses.A_UNDERLINE = Curses.A_UNDERLINE)
  /\ printl_flags (Some "green"%string) false false = Ok 8960
  /\ (Curses.pair_number 8960 = 35
      /\ Z.land 8960 Curses.A_BOLD = 0
      /\ Z.land 8960 Curses.A_UNDERLINE = 0).
Proof.
  split; [reflexivity|].
  split; [exact (proj1 (printl_attributes (term_addstr_ok 24 80))
                   (Some "red"%string) true true 2230784 eq_refl)|].
  split; [reflexivity|].
  exact (proj1 (printl_attributes (term_addstr_ok 24 80))
           (Some "green"%string) false false 8960 eq_refl).
Defined.

(** The sample on a terminal of 10 lines, drawn from row 2: the refresh
    fails, and the lines it has handed over are at the rows 2, 3, ... *)
Lemma lines_on_consecutive_rows_witness :
  let '(r, st', out) :=
    sample_refresh_window 10 sample_snapshot {| lineno := 2; sigint := None |} in
  (forall i y x line attr ok,
      nth_error (List.filter is_addstr out) i = Some (Eaddstr y x line attr ok) ->
      y = 2 + Z.of_nat i /\ x = 0)
  /\ (r = Ok tt -> lineno st' = 2 + Z.of_nat (length (List.filter is_addstr out))).
Proof.
  unfold sample_refresh_window.
  destruct (Script.refresh_window sample_bytes2human (term_addstr_ok 10 80) 2 10 17
              sample_snapshot {| lineno := 2; sigint := None |})
    as [[r st'] out] eqn:E.
  exact (lines_on_consecutive_rows sample_bytes2human (term_addstr_ok 10 80) 2 10 17
           sample_snapshot {| lineno := 2; sigint := None |} r st' out E).
Defined.

(** The sample has one interface with four addresses: 25 lines. *)
Lemma refresh_window_height_witness :
  window_height sample_snapshot = 25%nat
  /\ let '(r, st', out) := sample_refresh_window 30 sample_snapshot start in
     r = Ok tt
     /\ exists lines,
          out = lines ++ [Erefresh]
          /\ Forall (fun e => is_addstr e = true /\ failed_addstr e = false) lines
          /\ length lines = window_height sample_snapshot
          /\ lineno st' = lineno start + Z.of_nat (window_height sample_snapshot).
Proof.
  split; [reflexivity|]. unfold sample_refresh_window, start.
  destruct (Script.refresh_window sample_bytes2human (term_addstr_ok 30 80) 2 10 17
              sample_snapshot {| lineno := 0; sigint := None |})
    as [[r st'] out] eqn:E.
  assert (Hr : r = Ok tt) by (vm_compute in E; congruence).
  split; [exact Hr|]. subst r.
  exact (refresh_window_height sample_bytes2human (term_addstr_ok 30 80) 2 10 17
           sample_snapshot {| lineno := 0; sigint := None |} st' out E).
Defined.

(** The sample without the counters of its interface. *)
Lemma refresh_window_errors_witness :
  let '(r, _, _) := sample_refresh_window 30 orphan_snapshot start in
  r = Raise (KeyError "wlp3s0")
  /\ r <> Ok tt
  /\ exists info,
       In ("wlp3s0"%string, info) (wifi_ifaces orphan_snapshot)
       /\ (net_io_counters orphan_snapshot !! "wlp3s0"%string = None
           \/ net_if_addrs orphan_snapshot !! "wlp3s0"%string = None).
Proof.
  unfold sample_refresh_window, start.
  destruct (refresh_window_errors sample_bytes2human (term_addstr_ok 30 80) 2 10 17
              orphan_snapshot) as (Hn & Hk).
  destruct (Script.refresh_window sample_bytes2human (term_addstr_ok 30 80) 2 10 17
              orphan_snapshot {| lineno := 0; sigint := None |})
    as [[r st'] out] eqn:E.
  assert (Hr : r = Raise (KeyError "wlp3s0")) by (vm_compute in E; congruence).
  split; [exact Hr|].
  split; [exact (Hn "wlp3s0"%string sample_info _ _ _ _
                   (or_introl eq_refl) (or_introl eq_refl) E)|].
  subst r. exact (Hk _ _ _ _ E).
Defined.

(** The sample needs 25 rows; a terminal of 10 lines refuses whatever is
    written at row 10. *)
Lemma window_too_small_witness :
  0 <= 10 < 0 + Z.of_nat (window_height sample_snapshot)
  /\ (sample_refresh_window 10 sample_snapshot start).1.1 <> Ok tt.
Proof.
  split; [vm_compute; split; [discriminate | reflexivity]|].
  unfold sample_refresh_window, start.
  destruct (Script.refresh_window sample_bytes2human (term_addstr_ok 10 80) 2 10 17
              sample_snapshot {| lineno := 0; sigint := None |})
    as [[r st'] out] eqn:E.
  exact (window_too_small sample_bytes2human (term_addstr_ok 10 80) 2 10 17
           sample_snapshot {| lineno := 0; sigint := None |} r st' out 10
           ltac:(vm_compute; split; [discriminate | reflexivity])
           (fun _ _ _ => eq_refl) E).
Defined.

Lemma refresh_without_interfaces_witness :
  sample_refresh_window 24 empty_snapshot start
  = (Ok tt, {| lineno := 0 + 1; sigint := None |},
     [Eaddstr 0 0 "" 0 true; Erefresh])
  /\ sample_loop_body 24 {| key := -1; snap := empty_snapshot |} start
     = (Ok false, {| lineno := 0; sigint := None |},
        [Egetch (-1); Eaddstr 0 0 "" 0 true; Erefresh; Esleep INTERVAL_ms]).
Proof.
  exact (refresh_without_interfaces sample_bytes2human (term_addstr_ok 24 80) 2 10 17
           {| key := -1; snap := empty_snapshot |} 0
           eq_refl ltac:(discriminate) eq_refl).
Defined.

Lemma platform_not_supported_witness :
  sample_run 24 no_curses_host None []
  = (Exited 1 (Some (SystemExit "platform not supported")),
     {| lineno := 0; sigint := None |}, [])
  /\ sample_run 24 no_wifi_api_host None []
     = (Exited 1 (Some (SystemExit "platform not supported")),
        {| lineno := 0; sigint := None |}, [Einitscr]).
Proof.
  unfold sample_run. split.
  - exact (proj1 (platform_not_supported sample_bytes2human 8 (term_addstr_ok 24 80)
                    2 10 17 no_curses_host None []) eq_refl).
  - exact (proj2 (platform_not_supported sample_bytes2human 8 (term_addstr_ok 24 80)
                    2 10 17 no_wifi_api_host None []) eq_refl eq_refl).
Defined.

(** Two turns and the quit key: three polls, two sleeps. *)
Lemma one_sleep_per_turn_witness :
  let '(r, _, out) :=
    sample_while_true 30 [sample_cycle (-1); sample_cycle 32; sample_cycle 113]
      start in
  r = Ok tt
  /\ (count_if is_sleep out <= count_if is_getch out <= count_if is_sleep out + 1)%nat
  /\ (count_if is_getch out <= 3)%nat
  /\ Forall (fun e => is_sleep e = true -> e = Esleep INTERVAL_ms) out
  /\ (r = Diverge -> count_if is_getch out = 3%nat /\ count_if is_sleep out = 3%nat)
  /\ (r = Ok tt -> count_if is_getch out = S (count_if is_sleep out)).
Proof.
  unfold sample_while_true, start.
  destruct (Script.while_true sample_bytes2human (term_addstr_ok 30 80) 2 10 17
              [sample_cycle (-1); sample_cycle 32; sample_cycle 113]
              {| lineno := 0; sigint := None |}) as [[r st'] out] eqn:E.
  assert (Hr : r = Ok tt) by (vm_compute in E; congruence).
  split; [exact Hr|].
  exact (one_sleep_per_turn sample_bytes2human (term_addstr_ok 30 80) 2 10 17
           _ _ r st' out E).
Defined.

(** Two turns on the sample: the second one draws from row 0 again. *)
Lemma every_turn_draws_from_the_top_witness :
  let '(r, _, out) :=
    sample_while_true 30 [sample_cycle (-1); sample_cycle 32] start in
  r = Diverge
  /\ forall pre k lines post,
       out = pre ++ Egetch k :: lines ++ post ->
       Forall (fun e => is_addstr e = true) lines ->
       forall i y x line attr ok,
         nth_error lines i = Some (Eaddstr y x line attr ok) ->
         y = Z.of_nat i /\ x = 0.
Proof.
  unfold sample_while_true, start.
  destruct (Script.while_true sample_bytes2human (term_addstr_ok 30 80) 2 10 17
              [sample_cycle (-1); sample_cycle 32]
              {| lineno := 0; sigint := None |}) as [[r st'] out] eqn:E.
  assert (Hr : r = Diverge) by (vm_compute in E; congruence).
  split; [exact Hr|].
  exact (every_turn_draws_from_the_top sample_bytes2human (term_addstr_ok 30 80)
           2 10 17 [sample_cycle (-1); sample_cycle 32]
           {| lineno := 0; sigint := None |} r st' out eq_refl E).
Defined.

(** The sample on a terminal of 10 lines: the one refresh follows the line
    that was refused. *)
Lemma refresh_is_last_witness :
  let '(r, _, out) := sample_refresh_window 10 sample_snapshot start in
  r = Raise CursesError
  /\ (Forall (fun e => e <> Erefresh) out
      \/ exists pre,
           out = pre ++ [Erefresh]
           /\ Forall (fun e => e <> Erefresh) pre
           /\ (r = Ok tt \/ r = Raise CursesError \/ r = Raise KeyboardInterrupt))
  /\ ((r = Raise OverflowError \/ exists k, r = Raise (KeyError k)) ->
      Forall (fun e => e <> Erefresh) out).
Proof.
  unfold sample_refresh_window, start.
  destruct (Script.refresh_window sample_bytes2human (term_addstr_ok 10 80) 2 10 17
              sample_snapshot {| lineno := 0; sigint := None |})
    as [[r st'] out] eqn:E.
  assert (Hr : r = Raise CursesError) by (vm_compute in E; congruence).
  split; [exact Hr|].
  exact (refresh_is_last sample_bytes2human (term_addstr_ok 10 80) 2 10 17
           sample_snapshot {| lineno := 0; sigint := None |} r st' out E).
Defined.

(** The sample without I/O counters: the missing key ends the process with
    status 1, and the key is the name of the interface. *)
Lemma exit_statuses_witness :
  let '(o, _, _) :=
    sample_run 30 sample_host None [{| key := -1; snap := orphan_snapshot |}] in
  o = Exited 1 (Some (KeyError "wlp3s0"))
  /\ Exists
       (fun c =>
          exists info,
            In ("wlp3s0"%string, info) (wifi_ifaces (snap c))
            /\ (net_io_counters (snap c) !! "wlp3s0"%string = None
                \/ net_if_addrs (snap c) !! "wlp3s0"%string = None))
       [{| key := -1; snap := orphan_snapshot |}].
Proof.
  unfold sample_run.
  pose proof (exit_statuses sample_bytes2human 8 (term_addstr_ok 30 80) 2 10 17
                sample_host None [{| key := -1; snap := orphan_snapshot |}]) as H.
  destruct (run sample_bytes2human 8 (term_addstr_ok 30 80) 2 10 17
              sample_host None [{| key := -1; snap := orphan_snapshot |}])
    as [[o st'] out] eqn:E.
  assert (Ho : o = Exited 1 (Some (KeyError "wlp3s0")))
    by (vm_compute in E; congruence).
  split; [exact Ho|].
  destruct H as (_ & _ & Hk). exact (proj2 (Hk 1 "wlp3s0"%string Ho)).
Defined.
